(** * Bulk / personalized SMS sending: the [useSMS] hook and the
      [send-sms-demo1] edge functions

    A shallow embedding of the sending hook ([sendSMS], [sendBulkSMS],
    [logSMSCampaign], [testSMS]), of the two edge-function handlers
    (the pass-through [serve] handler and the database-backed
    [Deno.serve] handler) and of the sending logic of the component
    [SMSManager], followed by the properties of the specification that
    they satisfy or break and by further properties of the code.

    Conventions.
    - A JavaScript string is a [string]; one [ascii] stands for one code
      unit below 256.
    - A JavaScript number holding a count is a [Z]; costs and the progress
      computation are IEEE-754 doubles ([float]).
    - [null] / [undefined] / a missing field is [None], where the code
      treats them alike; the [sender] of an edge-function request, where
      it does not, is an [Edge.Field].
    - Effects (database tables, outbound calls, React state setters,
      [Math.random]) are explicit: a computation is a function from a
      [World] to an outcome and a new [World], and a thrown exception is
      an outcome of its own, which keeps the state changes made before the
      throw. *)

From Stdlib Require Import String Ascii List ZArith Lia Bool Arith.
From Stdlib Require Import Floats Uint63 DecimalString.
From Equations Require Import Equations.
Import ListNotations.

Local Open Scope string_scope.
Local Open Scope list_scope.

Set Implicit Arguments.

(** ** JavaScript strings *)

Module JS.

(** [\s] and [String.prototype.trim]: the white space and line terminator
    code units below 256 (TAB, LF, VT, FF, CR, SP, NBSP). *)
Definition is_space (c : ascii) : bool :=
  let n := nat_of_ascii c in
  ((9 <=? n)%nat && (n <=? 13)%nat) || (n =? 32)%nat || (n =? 160)%nat.

Fixpoint trimStart (s : string) : string :=
  match s with
  | String c r => if is_space c then trimStart r else s
  | EmptyString => EmptyString
  end.

Fixpoint rev_append (s acc : string) : string :=
  match s with
  | EmptyString => acc
  | String c r => rev_append r (String c acc)
  end.

Definition rev (s : string) : string := rev_append s EmptyString.

Definition trimEnd (s : string) : string := rev (trimStart (rev s)).

(** [s.trim()] *)
Definition trim (s : string) : string := trimEnd (trimStart s).

(** [s.startsWith(p)] *)
Definition startsWith (s p : string) : bool := String.prefix p s.

(** [s.includes(p)] *)
Fixpoint includes (s p : string) : bool :=
  String.prefix p s ||
  match s with
  | EmptyString => false
  | String _ r => includes r p
  end.

(** [a.join(sep)] *)
Fixpoint join (sep : string) (l : list string) : string :=
  match l with
  | [] => ""
  | [x] => x
  | x :: r => x ++ sep ++ join sep r
  end.

(** [s.split(c)] for a one-character separator: always at least one
    segment. *)
Fixpoint split (c : ascii) (s : string) : list string :=
  match s with
  | EmptyString => [""]
  | String d r =>
      if Ascii.eqb d c then "" :: split c r
      else match split c r with
           | [] => [String d ""]
           | x :: xs => String d x :: xs
           end
  end.

(** Truthiness of an optional string: [undefined], [null] and [""] are
    falsy. *)
Definition truthy (o : option string) : bool :=
  match o with
  | Some s => negb (s =? "")
  | None => false
  end.

(** [o || d] on strings. *)
Definition or_else (o : option string) (d : string) : string :=
  match o with
  | Some s => if s =? "" then d else s
  | None => d
  end.

(** [o] when it is truthy. *)
Definition nonempty (o : option string) : option string :=
  match o with
  | Some s => if s =? "" then None else Some s
  | None => None
  end.

(** [`${o}`] *)
Definition template (o : option string) : string :=
  match o with
  | Some s => s
  | None => "undefined"
  end.

(** [s.toUpperCase()] on the letters ["a"] to ["z"]; other code units
    below 128 are their own upper case. *)
Definition upper (c : ascii) : ascii :=
  let n := nat_of_ascii c in
  if (97 <=? n)%nat && (n <=? 122)%nat then ascii_of_nat (n - 32) else c.

Fixpoint toUpperCase (s : string) : string :=
  match s with
  | EmptyString => EmptyString
  | String c r => String (upper c) (toUpperCase r)
  end.

(** [s.toLowerCase()] on code units below 256: the letters ["A"] to
    ["Z"] and the Latin-1 capitals (192 to 222, the multiplication sign
    215 apart) move up by 32. *)
Definition lower (c : ascii) : ascii :=
  let n := nat_of_ascii c in
  if ((65 <=? n)%nat && (n <=? 90)%nat) ||
     ((192 <=? n)%nat && (n <=? 222)%nat && negb (n =? 215)%nat)
  then ascii_of_nat (n + 32) else c.

Fixpoint toLowerCase (s : string) : string :=
  match s with
  | EmptyString => EmptyString
  | String c r => String (lower c) (toLowerCase r)
  end.

(** [`${n}`] for a non-negative integer. *)
Definition of_nat (n : nat) : string :=
  NilZero.string_of_uint (Nat.to_uint n).

(** *** The regular expression [/\{\{\s*link\s*\}\}/]

    [match_link s] is the number of code units of the match that starts
    at the first code unit of [s], if there is one.  Neither ["l"] nor
    ["}"] is white space, so the two greedy [\s*] never have to give a
    character back. *)
Fixpoint strip (p s : string) : option string :=
  match p, s with
  | EmptyString, _ => Some s
  | String a p', String b s' => if Ascii.eqb a b then strip p' s' else None
  | String _ _, EmptyString => None
  end.

Definition match_link (s : string) : option nat :=
  match strip "{{" s with
  | None => None
  | Some r1 =>
      match strip "link" (trimStart r1) with
      | None => None
      | Some r2 =>
          match strip "}}" (trimStart r2) with
          | None => None
          | Some r3 => Some (String.length s - String.length r3)
          end
      end
  end.

(** [s.replace(/\{\{\s*link\s*\}\}/g, marker)]: matches are found left to
    right and do not overlap.  [skip] counts the code units of the current
    match that are still to be dropped. *)
Fixpoint replace_from (marker : string) (skip : nat) (s : string) : string :=
  match s with
  | EmptyString => EmptyString
  | String c r =>
      match skip with
      | S k => replace_from marker k r
      | O =>
          match match_link s with
          | Some n => marker ++ replace_from marker (n - 1) r
          | None => String c (replace_from marker 0 r)
          end
      end
  end.

Definition replace_link (marker s : string) : string :=
  replace_from marker 0 s.

End JS.

(** ** Numbers *)

Module Num.

(** The double of an integer (exact below [2^53]). *)
Definition of_Z (z : Z) : float :=
  if (z <? 0)%Z then PrimFloat.opp (PrimFloat.of_uint63 (Uint63.of_Z (- z)))
  else PrimFloat.of_uint63 (Uint63.of_Z z).

(** [Math.round]: [floor (x + 1/2)] computed exactly, so a tie goes up;
    infinities, NaN and integers are returned as they are, and a negative
    argument that rounds to zero gives [-0].  A finite double is
    [m * 2^e]; with [e < 0] and [d = 2^(-e)] it is [m / d]. *)
Definition round (x : float) : float :=
  match Prim2SF x with
  | S754_finite s m e =>
      if (0 <=? e)%Z then x
      else
        let d := (2 ^ (- e))%Z in
        if s then PrimFloat.opp (of_Z ((2 * Zpos m + d - 1) / (2 * d)))
        else of_Z ((2 * Zpos m + d) / (2 * d))
  | _ => x
  end.

(** A number as a condition: [0], [-0] and [NaN] are falsy. *)
Definition truthy (x : float) : bool :=
  negb (PrimFloat.eqb x 0) && PrimFloat.eqb x x.

Definition of_nat (n : nat) : float := of_Z (Z.of_nat n).

End Num.

(** ** Data model *)

(** A thrown value: [instanceof_Error] tells whether [e instanceof Error]
    holds, [exn_message] is [e.message]. *)
Record exn := Exn { instanceof_Error : bool; exn_message : string }.

(** [new Error(msg)] *)
Definition Error (msg : string) : exn := Exn true msg.

(** [e instanceof Error ? e.message : dflt] *)
Definition message_of (e : exn) (dflt : string) : string :=
  if instanceof_Error e then exn_message e else dflt.

(** [b || false] *)
Definition or_false (o : option bool) : bool :=
  match o with Some b => b | None => false end.

(** Rows of the relational store. *)
Record UserRow := {
  user_id : string;
  phone_number : string;
  country : string;
  user_status : string }.

Record CampaignRow := {
  campaign_id : string;
  short_id : string }.

Record RecipientRow := {
  cr_campaign_id : string;
  cr_user_id : string;
  cr_status : string;
  unique_token : string }.

(** [completed_at] is wall-clock time and is left out. *)
Record BulkRow := {
  bm_type : string;
  bm_content : string;
  recipient_count : Z;
  sent_count : Z;
  bm_status : string;
  bm_campaign_id : option string }.

(** [interface SMSRequest] of the hook.  The element type admits [null]:
    the hook filters such entries out. *)
Record SMSRequest := {
  recipients : option (list (option string));
  message : string;
  sender : option string;
  test : option bool;
  campaignId : option string;
  param1 : option string }.

Record InvalidNumber := {
  number : string;
  submitted_number : string;
  inv_message : string }.

(** One entry of the provider's [list]. *)
Record SentItem := {
  item_id : string;
  points : float;
  item_number : string;
  item_status : string }.

(** The [details] field, of type [any]. *)
Inductive Details :=
| DetailsLists (sent : list SentItem) (invalid : list InvalidNumber)
               (errs : option (list string))
| DetailsText (responseText : string)
| DetailsInternal.

(** [interface SMSResponse], with the [errors] field that the
    personalized path adds to its result object. *)
Record SMSResponse := {
  success : bool;
  sentCount : option Z;
  totalRecipients : option Z;
  messageIds : option (list string);
  cost : option float;
  currency : option string;
  error : option string;
  errorCode : option Z;
  invalidNumbers : option (list InvalidNumber);
  details : option Details;
  errors : option (list string) }.

(** [{ success: false, error }] *)
Definition failure (msg : string) : SMSResponse :=
  {| success := false; sentCount := None; totalRecipients := None;
     messageIds := None; cost := None; currency := None; error := Some msg;
     errorCode := None; invalidNumbers := None; details := None;
     errors := None |}.

(** The [body] handed to [supabase.functions.invoke('send-sms-demo1', ...)]. *)
Record InvokeBody := {
  b_recipients : list string;
  b_message : string;
  b_sender : string;
  b_test : bool;
  b_param1 : option string }.

(** The [error] of a [functions.invoke] reply: [error.message] and
    [error.context?.error]. *)
Record FunctionsError := {
  fe_message : option string;
  fe_context_error : option string }.

(** What [await supabase.functions.invoke(...)] does: throw, or resolve to
    [{ data: null, error }] or to [{ data, error: null }].  A reply without
    error carries the JSON object that the edge function answered. *)
Inductive InvokeReply :=
| InvokeThrows (e : exn)
| InvokeError (e : FunctionsError)
| InvokeData (data : SMSResponse).

(** The request to the SMS provider: its [Authorization] header and the
    fields of its form. *)
Record FormData := {
  f_authorization : string;
  f_to : string;
  f_message : string;
  f_from : string;
  f_format : string;
  f_encoding : string;
  f_param1 : option string;
  f_test : option string }.

(** [interface SMSAPIResponse] *)
Record SMSAPIResponse := {
  api_count : option Z;
  api_list : option (list SentItem);
  api_invalid_numbers : option (list InvalidNumber);
  api_error : option Z;
  api_message : option string }.

(** What [fetch] followed by [JSON.parse(responseText)] does. *)
Inductive ProviderReply :=
| FetchThrows (e : exn)
| NotJSON (responseText : string)
| ProviderJSON (d : SMSAPIResponse).

(** ** The environment and the world *)

(** Everything the code reads but does not decide.  The phone utilities
    live in a module of their own ([../utils/phoneValidation]) and are
    taken as given, total functions.  Each oracle is indexed by the number
    of earlier uses, so that a property proved for every [Env] holds for
    every behaviour of the network, the provider and the random generator.
    Every awaited call is taken to settle. *)
Record Env := {
  normalizePhoneNumber : string -> string;
  detectCountryFromPhone : string -> option string;
  (** [window.location.origin] *)
  origin : string;
  (** [Deno.env.get] *)
  deno_env : string -> option string;
  (** the failure, if any, that keeps the [n]-th database request from
      reaching the store, with its message *)
  db_fault : nat -> option string;
  (** whether the client's error objects are instances of [Error] *)
  postgrest_is_Error : bool;
  (** the id given to row [j] of the [n]-th database request *)
  gen_id : nat -> nat -> string;
  (** the base-36 digits that [Math.random().toString(36)] prints after
      ["0."] at the [n]-th draw (none when the draw is [0]) *)
  math_random : nat -> list nat;
  (** the reply to the [n]-th [functions.invoke] *)
  invoke_reply : nat -> InvokeBody -> InvokeReply;
  (** the reply to the [n]-th [fetch] of the provider *)
  provider_reply : nat -> FormData -> ProviderReply }.

(** The store, the counters of the oracles and the observable traces
    (oldest entry first). *)
Record World := {
  users : list UserRow;
  campaigns : list CampaignRow;
  campaign_recipients : list RecipientRow;
  bulk_messages : list BulkRow;
  db_requests : nat;
  randoms : nat;
  invocations : list InvokeBody;
  fetches : list FormData;
  sending : list bool;
  progress : list float }.

Definition set_users (f : list UserRow -> list UserRow) (w : World) : World :=
  {| users := f (users w); campaigns := campaigns w;
     campaign_recipients := campaign_recipients w;
     bulk_messages := bulk_messages w; db_requests := db_requests w;
     randoms := randoms w; invocations := invocations w;
     fetches := fetches w; sending := sending w; progress := progress w |}.

Definition set_campaign_recipients
  (f : list RecipientRow -> list RecipientRow) (w : World) : World :=
  {| users := users w; campaigns := campaigns w;
     campaign_recipients := f (campaign_recipients w);
     bulk_messages := bulk_messages w; db_requests := db_requests w;
     randoms := randoms w; invocations := invocations w;
     fetches := fetches w; sending := sending w; progress := progress w |}.

Definition set_bulk_messages (f : list BulkRow -> list BulkRow) (w : World)
  : World :=
  {| users := users w; campaigns := campaigns w;
     campaign_recipients := campaign_recipients w;
     bulk_messages := f (bulk_messages w); db_requests := db_requests w;
     randoms := randoms w; invocations := invocations w;
     fetches := fetches w; sending := sending w; progress := progress w |}.

Definition set_db_requests (f : nat -> nat) (w : World) : World :=
  {| users := users w; campaigns := campaigns w;
     campaign_recipients := campaign_recipients w;
     bulk_messages := bulk_messages w; db_requests := f (db_requests w);
     randoms := randoms w; invocations := invocations w;
     fetches := fetches w; sending := sending w; progress := progress w |}.

Definition set_randoms (f : nat -> nat) (w : World) : World :=
  {| users := users w; campaigns := campaigns w;
     campaign_recipients := campaign_recipients w;
     bulk_messages := bulk_messages w; db_requests := db_requests w;
     randoms := f (randoms w); invocations := invocations w;
     fetches := fetches w; sending := sending w; progress := progress w |}.

Definition set_invocations (f : list InvokeBody -> list InvokeBody)
  (w : World) : World :=
  {| users := users w; campaigns := campaigns w;
     campaign_recipients := campaign_recipients w;
     bulk_messages := bulk_messages w; db_requests := db_requests w;
     randoms := randoms w; invocations := f (invocations w);
     fetches := fetches w; sending := sending w; progress := progress w |}.

Definition set_fetches (f : list FormData -> list FormData) (w : World)
  : World :=
  {| users := users w; campaigns := campaigns w;
     campaign_recipients := campaign_recipients w;
     bulk_messages := bulk_messages w; db_requests := db_requests w;
     randoms := randoms w; invocations := invocations w;
     fetches := f (fetches w); sending := sending w; progress := progress w |}.

Definition set_sending (f : list bool -> list bool) (w : World) : World :=
  {| users := users w; campaigns := campaigns w;
     campaign_recipients := campaign_recipients w;
     bulk_messages := bulk_messages w; db_requests := db_requests w;
     randoms := randoms w; invocations := invocations w;
     fetches := fetches w; sending := f (sending w); progress := progress w |}.

Definition set_progress (f : list float -> list float) (w : World) : World :=
  {| users := users w; campaigns := campaigns w;
     campaign_recipients := campaign_recipients w;
     bulk_messages := bulk_messages w; db_requests := db_requests w;
     randoms := randoms w; invocations := invocations w;
     fetches := fetches w; sending := sending w; progress := f (progress w) |}.

(** ** Computations with effects and exceptions *)

Definition M (A : Type) : Type := World -> (exn + A) * World.

Definition ret {A} (a : A) : M A := fun w => (inr a, w).

Definition bind {A B} (c : M A) (k : A -> M B) : M B :=
  fun w =>
    match c w with
    | (inl e, w') => (inl e, w')
    | (inr a, w') => k a w'
    end.

Definition throw {A} (e : exn) : M A := fun w => (inl e, w).

(** [try { c } catch (e) { h e }] *)
Definition try_catch {A} (c : M A) (h : exn -> M A) : M A :=
  fun w =>
    match c w with
    | (inl e, w') => h e w'
    | (inr a, w') => (inr a, w')
    end.

(** [try { c } finally { f }] *)
Definition finally {A} (c : M A) (f : M unit) : M A :=
  fun w =>
    match c w with
    | (r, w') =>
        match f w' with
        | (inl e, w'') => (inl e, w'')
        | (inr _, w'') => (r, w'')
        end
    end.

Definition update (f : World -> World) : M unit := fun w => (inr tt, f w).

Declare Scope js_scope.
Delimit Scope js_scope with js.
Notation "x <- c ;; k" := (bind c (fun x => k))
  (at level 100, c at next level, right associativity) : js_scope.
Notation "c ;;; k" := (bind c (fun _ => k))
  (at level 100, right associativity) : js_scope.
Local Open Scope js_scope.

(** [for (const x of l) { s = body(s, x) }] *)
Fixpoint forEach {A S} (body : S -> A -> M S) (l : list A) (s : S) : M S :=
  match l with
  | [] => ret s
  | x :: r => s' <- body s x ;; forEach body r s'
  end.

(** ** The relational store behind the [supabase] client *)

(** What a request resolves to: [{ data: null, error }] or
    [{ data, error: null }]. *)
Inductive DbResult (A : Type) :=
| DbError (msg : string)
| DbData (a : A).
Arguments DbError {A} msg.
Arguments DbData {A} a.

Module Db.
Section WithEnv.
Variable E : Env.

Definition no_single_row : string :=
  "JSON object requested, multiple (or no) rows returned".
Definition duplicate_key : string :=
  "duplicate key value violates unique constraint".

(** One round trip: the request is numbered, and either fails on the way
    (the store is untouched) or is answered by the store. *)
Definition request {A} (op : nat -> World -> DbResult A * World)
  : M (DbResult A) :=
  fun w =>
    let n := db_requests w in
    let w1 := set_db_requests S w in
    match db_fault E n with
    | Some msg => (inr (DbError msg), w1)
    | None => let (r, w2) := op n w1 in (inr r, w2)
    end.

(** [.single()]: exactly one row, or an error. *)
Definition single {A} (rows : list A) : DbResult A :=
  match rows with
  | [r] => DbData r
  | _ => DbError no_single_row
  end.

(** [.single()] after a request that selects or returns rows. *)
Definition and_single {A} (r : DbResult (list A)) : DbResult A :=
  match r with
  | DbError msg => DbError msg
  | DbData rows => single rows
  end.

Definition user_has_phone (phone : string) (u : UserRow) : bool :=
  phone_number u =? phone.

Definition recipient_is (cid uid : string) (r : RecipientRow) : bool :=
  (cr_campaign_id r =? cid) && (cr_user_id r =? uid).

(** Modelled from the spec: the schema of the store is not among the
    sources.  [users.phone_number] is unique and [campaign_recipients] is
    composite-unique on [(campaign_id, user_id)]; an insert that would
    break either is refused as a whole and leaves the table as it was. *)
Fixpoint add_users (tbl : list UserRow) (rows : list UserRow)
  : option (list UserRow) :=
  match rows with
  | [] => Some tbl
  | u :: rest =>
      if existsb (user_has_phone (phone_number u)) tbl then None
      else add_users (tbl ++ [u]) rest
  end.

Fixpoint add_recipients (tbl : list RecipientRow) (rows : list RecipientRow)
  : option (list RecipientRow) :=
  match rows with
  | [] => Some tbl
  | r :: rest =>
      if existsb (recipient_is (cr_campaign_id r) (cr_user_id r)) tbl
      then None
      else add_recipients (tbl ++ [r]) rest
  end.

(** [from('campaigns').select('short_id').eq('id', cid).single()] *)
Definition select_campaign_short_id (cid : string) : M (DbResult string) :=
  request (fun _ w =>
    (single (map short_id
       (filter (fun c => campaign_id c =? cid) (campaigns w))), w)).

(** [from('users').select('id').eq('phone_number', phone).single()] *)
Definition select_user_id (phone : string) : M (DbResult string) :=
  request (fun _ w =>
    (single (map user_id (filter (user_has_phone phone) (users w))), w)).

(** [from('users').select('id, phone_number').in('phone_number', phones)] *)
Definition select_users_in (phones : list string)
  : M (DbResult (list (string * string))) :=
  request (fun _ w =>
    (DbData (map (fun u => (phone_number u, user_id u))
       (filter (fun u => existsb (String.eqb (phone_number u)) phones)
          (users w))), w)).

(** [from('users').insert(rows).select('id, phone_number')]: the store
    gives each new row its id. *)
Definition insert_users (rows : list (string * string * string))
  : M (DbResult (list (string * string))) :=
  request (fun n w =>
    let new :=
      map (fun jr : nat * (string * string * string) =>
             let '(j, (phone, ctry, st)) := jr in
             {| user_id := gen_id E n j; phone_number := phone;
                country := ctry; user_status := st |})
          (combine (seq 0 (length rows)) rows) in
    match add_users (users w) new with
    | None => (DbError duplicate_key, w)
    | Some tbl =>
        (DbData (map (fun u => (phone_number u, user_id u)) new),
         set_users (fun _ => tbl) w)
    end).

(** [from('campaign_recipients').select('unique_token')
      .eq('campaign_id', cid).eq('user_id', uid).single()] *)
Definition select_recipient_token (cid uid : string) : M (DbResult string) :=
  request (fun _ w =>
    (single (map unique_token
       (filter (recipient_is cid uid) (campaign_recipients w))), w)).

(** [from('campaign_recipients').select('user_id, unique_token')
      .eq('campaign_id', cid).in('user_id', uids)] *)
Definition select_recipients_in (cid : string) (uids : list string)
  : M (DbResult (list (string * string))) :=
  request (fun _ w =>
    (DbData (map (fun r => (cr_user_id r, unique_token r))
       (filter (fun r => (cr_campaign_id r =? cid) &&
                         existsb (String.eqb (cr_user_id r)) uids)
          (campaign_recipients w))), w)).

(** [from('campaign_recipients').insert(rows)] *)
Definition insert_recipients (rows : list RecipientRow) : M (DbResult unit) :=
  request (fun _ w =>
    match add_recipients (campaign_recipients w) rows with
    | None => (DbError duplicate_key, w)
    | Some tbl => (DbData tt, set_campaign_recipients (fun _ => tbl) w)
    end).

Definition with_status (st : string) (r : RecipientRow) : RecipientRow :=
  {| cr_campaign_id := cr_campaign_id r; cr_user_id := cr_user_id r;
     cr_status := st; unique_token := unique_token r |}.

(** [from('campaign_recipients').update({ status })
      .eq('campaign_id', cid).in('user_id', uids)] *)
Definition update_recipient_status (cid : string) (uids : list string)
  (st : string) : M (DbResult unit) :=
  request (fun _ w =>
    (DbData tt,
     set_campaign_recipients
       (map (fun r =>
               if (cr_campaign_id r =? cid) &&
                  existsb (String.eqb (cr_user_id r)) uids
               then with_status st r else r)) w)).

(** [from('bulk_messages').insert(row)] *)
Definition insert_bulk_message (row : BulkRow) : M (DbResult unit) :=
  request (fun _ w => (DbData tt, set_bulk_messages (fun t => t ++ [row]) w)).

End WithEnv.
End Db.

(** ** Token generation *)

Module Token.

Definition base36 : string := "0123456789abcdefghijklmnopqrstuvwxyz".

Definition digit36 (d : nat) : ascii :=
  match String.get (d mod 36) base36 with
  | Some c => c
  | None => "0"%char
  end.

Fixpoint string_of_digits (ds : list nat) : string :=
  match ds with
  | [] => EmptyString
  | d :: r => String (digit36 d) (string_of_digits r)
  end.

(** [Math.random().toString(36).substring(2, 10).toUpperCase()]: up to
    eight of the digits printed after ["0."], in upper case. *)
Definition generate (E : Env) : M string :=
  fun w =>
    (inr (JS.toUpperCase
            (string_of_digits (firstn 8 (math_random E (randoms w))))),
     set_randoms S w).

End Token.

(** ** The sending hook [useSMS] *)

Module Hook.

(** The [results] object that the personalized path fills in. *)
Record Results := {
  r_success : bool;
  r_sentCount : Z;
  r_totalRecipients : Z;
  r_messageIds : list string;
  r_cost : float;
  r_currency : string;
  r_invalidNumbers : list InvalidNumber;
  r_errors : list string;
  r_error : option string }.

Definition to_response (r : Results) : SMSResponse :=
  {| success := r_success r; sentCount := Some (r_sentCount r);
     totalRecipients := Some (r_totalRecipients r);
     messageIds := Some (r_messageIds r); cost := Some (r_cost r);
     currency := Some (r_currency r); error := r_error r;
     errorCode := None; invalidNumbers := Some (r_invalidNumbers r);
     details := None; errors := Some (r_errors r) |}.

(** [results.errors.push(msg)] *)
Definition push_error (msg : string) (r : Results) : Results :=
  {| r_success := r_success r; r_sentCount := r_sentCount r;
     r_totalRecipients := r_totalRecipients r;
     r_messageIds := r_messageIds r; r_cost := r_cost r;
     r_currency := r_currency r; r_invalidNumbers := r_invalidNumbers r;
     r_errors := r_errors r ++ [msg]; r_error := r_error r |}.

(** [results.invalidNumbers.push(...l)] *)
Definition push_invalid (l : list InvalidNumber) (r : Results) : Results :=
  {| r_success := r_success r; r_sentCount := r_sentCount r;
     r_totalRecipients := r_totalRecipients r;
     r_messageIds := r_messageIds r; r_cost := r_cost r;
     r_currency := r_currency r;
     r_invalidNumbers := r_invalidNumbers r ++ l;
     r_errors := r_errors r; r_error := r_error r |}.

(** The three updates of a batch that the gateway reports as sent. *)
Definition add_sent (smsData : SMSResponse) (r : Results) : Results :=
  {| r_success := r_success r;
     r_sentCount :=
       (r_sentCount r + match sentCount smsData with Some n => n | None => 0 end)%Z;
     r_totalRecipients := r_totalRecipients r;
     r_messageIds :=
       match messageIds smsData with
       | Some ids => r_messageIds r ++ ids
       | None => r_messageIds r
       end;
     r_cost :=
       match cost smsData with
       | Some c => if Num.truthy c then PrimFloat.add (r_cost r) c else r_cost r
       | None => r_cost r
       end;
     r_currency := r_currency r; r_invalidNumbers := r_invalidNumbers r;
     r_errors := r_errors r; r_error := r_error r |}.

(** [results.success = false; results.error = msg] *)
Definition fail_with (msg : string) (r : Results) : Results :=
  {| r_success := false; r_sentCount := r_sentCount r;
     r_totalRecipients := r_totalRecipients r;
     r_messageIds := r_messageIds r; r_cost := r_cost r;
     r_currency := r_currency r; r_invalidNumbers := r_invalidNumbers r;
     r_errors := r_errors r; r_error := Some msg |}.

Definition batchSize : nat := 100.

(** [a.slice(i, j)] for [i <= j] *)
Definition slice {A} (a : list A) (i j : nat) : list A :=
  firstn (j - i) (skipn i a).

(** [for (let i = ...; i < validRecipients.length; i += batchSize)
       batches.push(validRecipients.slice(i, i + batchSize))] *)
Equations? batches_from (v : list string) (i : nat) : list (list string)
  by wf (length v - i) lt :=
  batches_from v i with lt_dec i (length v) := {
    | left _ => slice v i (i + batchSize) :: batches_from v (i + batchSize)
    | right _ => [] }.
Proof. unfold batchSize. lia. Qed.

(** The recipients that pass the filter
    [phone && phone.trim() && phone !== 'null' && phone !== 'undefined']. *)
Definition is_valid (phone : string) : bool :=
  negb (phone =? "") && negb (JS.trim phone =? "") &&
  negb (phone =? "null") && negb (phone =? "undefined").

Definition validRecipients (l : list (option string)) : list string :=
  flat_map (fun p => match p with
                     | Some phone => if is_valid phone then [phone] else []
                     | None => []
                     end) l.

(** [Math.round(((batchIndex + 1) / batches.length) * 90)] *)
Definition progressPercent (batchIndex total : nat) : float :=
  Num.round
    (PrimFloat.mul
       (PrimFloat.div (Num.of_nat (batchIndex + 1)) (Num.of_nat total)) 90).

Section WithEnv.
Variable E : Env.

Definition setSending (b : bool) : M unit :=
  update (set_sending (fun l => l ++ [b])).

Definition setProgress (p : float) : M unit :=
  update (set_progress (fun l => l ++ [p])).

(** [await supabase.functions.invoke('send-sms-demo1', { body })] *)
Definition invoke (body : InvokeBody) : M InvokeReply :=
  fun w =>
    let n := length (invocations w) in
    let w' := set_invocations (fun l => l ++ [body]) w in
    match invoke_reply E n body with
    | InvokeThrows e => (inl e, w')
    | reply => (inr reply, w')
    end.

(** A database error object, as thrown by [throw createUserError]. *)
Definition db_exn (msg : string) : exn := Exn (postgrest_is_Error E) msg.

(** [logSMSCampaign]: the outcome of the insert is not looked at, and an
    exception would be caught and logged. *)
Definition logSMSCampaign (type content : string)
  (recipientCount sentCount : Z) (status : string)
  (campaign : option string) : M unit :=
  try_catch
    (_ <- Db.insert_bulk_message E
            {| bm_type := type; bm_content := content;
               recipient_count := recipientCount; sent_count := sentCount;
               bm_status := status;
               bm_campaign_id := JS.nonempty campaign |} ;;
     ret tt)
    (fun _ => ret tt).

(** The message that [sendBulkSMS] throws for a gateway error. *)
Definition bulk_error_message (err : FunctionsError) : string :=
  let has (p : string) :=
    match fe_message err with
    | Some m => JS.includes m p
    | None => false
    end in
  if has "Failed to fetch" then
    "Unable to connect to SMS service. Please check your internet connection and Supabase configuration."
  else if has "non-2xx status" then
    "SMS service returned an error. Please check that SMSAPI_TOKEN is configured in Supabase Edge Functions settings."
  else match JS.nonempty (fe_context_error err) with
       | Some m => m
       | None => JS.or_else (fe_message err) "SMS sending failed"
       end.

(** [sendBulkSMS]: one pass-through call.  The interval timer that moves
    the progress bar while the call is pending is not part of the model. *)
Definition sendBulkSMS (recipients : list string) (message : string)
  (sender : option string) (test : option bool) (param1 : option string)
  : M SMSResponse :=
  try_catch
    (reply <- invoke {| b_recipients := recipients;
                        b_message := JS.trim message;
                        b_sender := JS.or_else sender "BulkComm";
                        b_test := or_false test;
                        b_param1 := param1 |} ;;
     setProgress 100 ;;;
     match reply with
     | InvokeError err => throw (Error (bulk_error_message err))
     | InvokeData data => ret data
     | InvokeThrows e => throw e
     end)
    (fun error => throw error).

(** "Find or create user": the id of the user with this phone number.
    Any error of the lookup counts as "no such user". *)
Definition findOrCreateUser (normalizedPhone : string) : M string :=
  existingUser <- Db.select_user_id E normalizedPhone ;;
  match existingUser with
  | DbError _ =>
      let country :=
        JS.or_else (detectCountryFromPhone E normalizedPhone) "Unknown" in
      newUser <- Db.insert_users E [(normalizedPhone, country, "active")] ;;
      match Db.and_single newUser with
      | DbError createUserError => throw (db_exn createUserError)
      | DbData row => ret (snd row)
      end
  | DbData id => ret id
  end.

(** "Find or create campaign recipient": the token of the recipient.  Any
    error of the lookup counts as "no such recipient". *)
Definition findOrCreateRecipient (cid userId : string) : M string :=
  existingRecipient <- Db.select_recipient_token E cid userId ;;
  match existingRecipient with
  | DbError _ =>
      token <- Token.generate E ;;
      created <- Db.insert_recipients E
                   [{| cr_campaign_id := cid; cr_user_id := userId;
                       cr_status := "sent"; unique_token := token |}] ;;
      match created with
      | DbError createRecipientError => throw (db_exn createRecipientError)
      | DbData _ => ret token
      end
  | DbData token =>
      _ <- Db.update_recipient_status E cid [userId] "sent" ;;
      ret token
  end.

(** The first part of the per-recipient [try]: the value that
    [uniqueToken] holds when the recipient is pushed to the batch. *)
Definition resolveToken (request : SMSRequest) (hasLinkPlaceholder : bool)
  (normalizedPhone : string) : M string :=
  match JS.nonempty (campaignId request) with
  | Some cid =>
      (* the campaign's short id is fetched; a failure is only logged *)
      _ <- Db.select_campaign_short_id E cid ;;
      userId <- findOrCreateUser normalizedPhone ;;
      findOrCreateRecipient cid userId
  | None =>
      if hasLinkPlaceholder then Token.generate E else ret ""
  end.

(** [hasLinkPlaceholder && uniqueToken
       ? `${window.location.origin}/${uniqueToken}` : ''] *)
Definition link_of (hasLinkPlaceholder : bool) (uniqueToken : string)
  : string :=
  if hasLinkPlaceholder && negb (uniqueToken =? "")
  then (origin E ++ "/" ++ uniqueToken)%string else "".

(** The body of the per-recipient [try]: the link pushed to [batchLinks]. *)
Definition resolveLink (request : SMSRequest) (hasLinkPlaceholder : bool)
  (normalizedPhone : string) : M string :=
  uniqueToken <- resolveToken request hasLinkPlaceholder normalizedPhone ;;
  ret (link_of hasLinkPlaceholder uniqueToken).

(** The loop state of a batch: [results], [batchRecipients], [batchLinks]. *)
Definition BatchState : Type := Results * list string * list string.

(** One turn of [for (const phone of batch)]. *)
Definition processRecipient (request : SMSRequest)
  (hasLinkPlaceholder : bool) (st : BatchState) (phone : string)
  : M BatchState :=
  let '(results, batchRecipients, batchLinks) := st in
  let normalizedPhone := normalizePhoneNumber E phone in
  try_catch
    (link <- resolveLink request hasLinkPlaceholder normalizedPhone ;;
     ret (results, batchRecipients ++ [normalizedPhone], batchLinks ++ [link]))
    (fun error =>
       ret (push_error
              (normalizedPhone ++ ": " ++ message_of error "Unknown error")%string
              results,
            batchRecipients ++ [normalizedPhone], batchLinks ++ [""])).

(** The [body] of the call for one batch: [{{ link }}] becomes the
    provider's marker [[%1%]], and [param1] carries the links. *)
Definition batch_body (request : SMSRequest) (hasLinkPlaceholder : bool)
  (batchRecipients batchLinks : list string) : InvokeBody :=
  let batchMessage :=
    if hasLinkPlaceholder
    then JS.replace_link "[%1%]" (message request)
    else message request in
  {| b_recipients := batchRecipients;
     b_message := JS.trim batchMessage;
     b_sender := JS.or_else (sender request) "BulkComm";
     b_test := or_false (test request);
     b_param1 :=
       if hasLinkPlaceholder
       then Some (JS.join "|" batchLinks) else None |}.

(** [`Batch ${batchIndex + 1}: `] *)
Definition batch_label (batchIndex : nat) : string :=
  "Batch " ++ JS.of_nat (batchIndex + 1) ++ ": ".

(** What a reply of the gateway does to [results]:
    [if (smsError) ... else if (smsData?.success) ... else ...]. *)
Definition absorb (batchIndex : nat) (reply : InvokeReply)
  (results : Results) : Results :=
  match reply with
  | InvokeError smsError =>
      push_error
        (batch_label batchIndex ++ JS.template (fe_message smsError))%string
        results
  | InvokeData smsData =>
      if success smsData then add_sent smsData results
      else
        let results' :=
          push_error
            (batch_label batchIndex ++
             JS.or_else (error smsData) "Unknown error")%string
            results in
        match invalidNumbers smsData with
        | Some l => push_invalid l results'
        | None => results'
        end
  | InvokeThrows e =>
      push_error
        (batch_label batchIndex ++ message_of e "Unknown error")%string
        results
  end.

(** The [try] that sends one batch; an exception of the call is recorded
    like an error of the gateway. *)
Definition sendBatch (request : SMSRequest) (hasLinkPlaceholder : bool)
  (batchIndex : nat) (st : BatchState) : M Results :=
  let '(results, batchRecipients, batchLinks) := st in
  try_catch
    (reply <- invoke (batch_body request hasLinkPlaceholder
                        batchRecipients batchLinks) ;;
     ret (absorb batchIndex reply results))
    (fun error => ret (absorb batchIndex (InvokeThrows error) results)).

(** One turn of [for (let batchIndex = 0; batchIndex < batches.length;
    batchIndex++)]: resolve every recipient, send, report progress. *)
Definition processBatch (request : SMSRequest) (hasLinkPlaceholder : bool)
  (total batchIndex : nat) (results : Results) (batch : list string)
  : M Results :=
  st <- forEach (processRecipient request hasLinkPlaceholder) batch
          (results, [], []) ;;
  results' <- sendBatch request hasLinkPlaceholder batchIndex st ;;
  setProgress (progressPercent batchIndex total) ;;;
  ret results'.

Fixpoint batchLoop (request : SMSRequest) (hasLinkPlaceholder : bool)
  (total batchIndex : nat) (batches : list (list string))
  (results : Results) : M Results :=
  match batches with
  | [] => ret results
  | batch :: rest =>
      results' <- processBatch request hasLinkPlaceholder total batchIndex
                    results batch ;;
      batchLoop request hasLinkPlaceholder total (S batchIndex) rest results'
  end.

Definition initial_results (totalRecipients : nat) : Results :=
  {| r_success := true; r_sentCount := 0;
     r_totalRecipients := Z.of_nat totalRecipients; r_messageIds := [];
     r_cost := 0; r_currency := "EUR"; r_invalidNumbers := [];
     r_errors := []; r_error := None |}.

(** [results.errors.length > 0 ? results.errors[0] : '...'] *)
Definition first_error (r : Results) : string :=
  match r_errors r with
  | e :: _ => e
  | [] => "No messages were sent successfully"
  end.

(** "Determine overall success" *)
Definition determine_success (r : Results) : Results :=
  if (r_sentCount r =? 0)%Z then fail_with (first_error r) r else r.

(** The personalized path: batches, aggregation, logging.  (The dynamic
    import of the phone utilities is taken to succeed.) *)
Definition sendPersonalized (request : SMSRequest)
  (valid : list string) (hasLinkPlaceholder : bool) : M SMSResponse :=
  let batches := batches_from valid 0 in
  looped <- batchLoop request hasLinkPlaceholder (length batches) 0 batches
              (initial_results (length valid)) ;;
  setProgress 100 ;;;
  let results := determine_success looped in
  (if r_success results && (0 <? r_sentCount results)%Z
   then logSMSCampaign "sms" (message request) (Z.of_nat (length valid))
          (r_sentCount results) "completed" (campaignId request)
   else ret tt) ;;;
  ret (to_response results).

(** The body of the outer [try] of [sendSMS]. *)
Definition sendSMS_try (request : SMSRequest) : M SMSResponse :=
  match recipients request with
  | None | Some [] => throw (Error "No recipients provided")
  | Some rs =>
      match validRecipients rs with
      | [] => throw (Error "No valid recipients found")
      | valid =>
          let hasLinkPlaceholder :=
            JS.includes (message request) "{{ link }}" in
          if negb (JS.truthy (campaignId request)) && negb hasLinkPlaceholder
          then sendBulkSMS valid (message request) (sender request)
                 (test request) None
          else sendPersonalized request valid hasLinkPlaceholder
      end
  end.

(** [sendSMS].  The timer that resets the progress to [0] one second after
    the call has settled lies outside the call. *)
Definition sendSMS (request : SMSRequest) : M SMSResponse :=
  setSending true ;;;
  setProgress 0 ;;;
  finally
    (try_catch (sendSMS_try request)
       (fun error =>
          ret (failure (message_of error "Unknown error occurred"))))
    (setSending false).

Definition with_test (request : SMSRequest) : SMSRequest :=
  {| recipients := recipients request; message := message request;
     sender := sender request; test := Some true;
     campaignId := campaignId request; param1 := param1 request |}.

(** [testSMS] *)
Definition testSMS (request : SMSRequest) : M SMSResponse :=
  sendSMS (with_test request).

(** [sendSingleSMS] *)
Definition sendSingleSMS (phoneNumber message : string)
  (sender campaign : option string) : M SMSResponse :=
  sendSMS {| recipients := Some [Some phoneNumber]; message := message;
             sender := sender; test := None; campaignId := campaign;
             param1 := None |}.

End WithEnv.
End Hook.

(** ** The edge functions *)

(** [new Map(...)] with string keys and values: [set] on a key that is
    present keeps the position of the entry. *)
Module JSMap.

Definition t : Type := list (string * string).

Definition get (m : t) (k : string) : option string :=
  match find (fun kv => fst kv =? k) m with
  | Some kv => Some (snd kv)
  | None => None
  end.

Definition has (m : t) (k : string) : bool :=
  existsb (fun kv => fst kv =? k) m.

Definition set (k v : string) (m : t) : t :=
  if has m k
  then map (fun kv => if fst kv =? k then (k, v) else kv) m
  else m ++ [(k, v)].

Definition of_entries (l : list (string * string)) : t :=
  fold_left (fun m kv => set (fst kv) (snd kv) m) l [].

Definition keys (m : t) : list string := map fst m.
Definition values (m : t) : list string := map snd m.

End JSMap.

Module Edge.

(** A string field of the JSON body as a destructuring pattern sees it:
    missing ([undefined]), [null], or a string.  The default of a pattern
    ([sender = 'BulkComm']) stands in for a missing field only. *)
Inductive Field :=
| Missing
| Null
| Text (s : string).

(** The JSON body of the request.  [rq_recipients] is [None] when the
    field is missing or is not an array. *)
Record Request := {
  rq_recipients : option (list string);
  rq_message : option string;
  rq_sender : Field;
  rq_test : option bool;
  rq_param1 : option string;
  rq_campaignId : option string }.

(** [req.method] and [await req.json()], which throws on a body that is
    not JSON. *)
Record HttpRequest := {
  http_method : string;
  http_json : exn + Request }.

Inductive Response :=
| Preflight
| Json (status : Z) (body : SMSResponse).

Definition status_of (r : Response) : Z :=
  match r with
  | Preflight => 200
  | Json st _ => st
  end.

(** [errorMessages[code]] *)
Definition errorMessages (code : Z) : option string :=
  if (code =? 11)%Z then Some "Message too long or contains invalid characters"
  else if (code =? 13)%Z then Some "No valid phone numbers provided"
  else if (code =? 14)%Z then Some "Invalid sender name"
  else if (code =? 101)%Z then Some "Invalid authorization"
  else if (code =? 103)%Z then Some "Insufficient credits"
  else if (code =? 105)%Z then Some "IP address not allowed"
  else if (code =? 112)%Z then Some "Sending to this country is restricted"
  else if (code =? 203)%Z then Some "Too many requests, please try again later"
  else None.

Definition string_of_Z (z : Z) : string :=
  NilZero.string_of_int (Z.to_int z).

(** [errorMessages[smsData.error] ||
     `SMS API Error: ${smsData.message || smsData.error}`] *)
Definition provider_error_text (code : Z) (msg : option string) : string :=
  match errorMessages code with
  | Some m => m
  | None => ("SMS API Error: " ++ JS.or_else msg (string_of_Z code))%string
  end.

(** [smsData.list?.reduce((sum, item) => sum + item.points, 0) || 0] *)
Definition total_cost (l : option (list SentItem)) : float :=
  match l with
  | Some items =>
      let sum := fold_left (fun acc it => PrimFloat.add acc (points it)) items 0%float in
      if Num.truthy sum then sum else 0%float
  | None => 0%float
  end.

Definition or_nil {A} (o : option (list A)) : list A :=
  match o with Some l => l | None => [] end.

Definition or_zero (o : option Z) : Z :=
  match o with Some z => z | None => 0%Z end.

(** A JSON answer with [success: false] and an error text. *)
Definition error_body (msg : string) : SMSResponse := failure msg.

Definition with_details (d : Details) (b : SMSResponse) : SMSResponse :=
  {| success := success b; sentCount := sentCount b;
     totalRecipients := totalRecipients b; messageIds := messageIds b;
     cost := cost b; currency := currency b; error := error b;
     errorCode := errorCode b; invalidNumbers := invalidNumbers b;
     details := Some d; errors := errors b |}.

(** The 400 answer to a provider error. *)
Definition provider_error_body (smsData : SMSAPIResponse) (code : Z)
  : SMSResponse :=
  {| success := false; sentCount := None; totalRecipients := None;
     messageIds := None; cost := None; currency := None;
     error := Some (provider_error_text code (api_message smsData));
     errorCode := Some code;
     invalidNumbers := Some (or_nil (api_invalid_numbers smsData));
     details := None; errors := None |}.

(** The prefix table of the handler's own [detectCountryFromPhone], in the
    order of its entries. *)
Definition prefixes : list (string * string) :=
  [("+359", "BG"); ("+380", "UA"); ("+48", "PL"); ("+40", "RO");
   ("+36", "HU"); ("+420", "CZ"); ("+421", "SK"); ("+385", "HR");
   ("+386", "SI"); ("+381", "RS"); ("+49", "DE"); ("+33", "FR");
   ("+39", "IT"); ("+34", "ES"); ("+31", "NL"); ("+32", "BE");
   ("+43", "AT"); ("+41", "CH"); ("+44", "GB"); ("+1", "US")].

Definition detectCountryFromPhone (phone : string) : string :=
  match find (fun pc => JS.startsWith phone (fst pc)) prefixes with
  | Some pc => snd pc
  | None => "Unknown"
  end.

Section WithEnv.
Variable E : Env.

(** [await fetch(smsApiUrl, ...)], [await smsResponse.text()] and
    [JSON.parse(responseText)] *)
Definition fetch (form : FormData) : M ProviderReply :=
  fun w =>
    let n := length (fetches w) in
    let w' := set_fetches (fun l => l ++ [form]) w in
    match provider_reply E n form with
    | FetchThrows e => (inl e, w')
    | reply => (inr reply, w')
    end.

Definition answer (status : Z) (body : SMSResponse) : M Response :=
  ret (Json status body).

(** [if (smsData.error)]: the code, when it is a non-zero number. *)
Definition error_code (smsData : SMSAPIResponse) : option Z :=
  match api_error smsData with
  | Some code => if (code =? 0)%Z then None else Some code
  | None => None
  end.

Definition form_data (token : string) (recipients : list string)
  (finalMessage sender : string) (param1Value : option string) (test : bool)
  : FormData :=
  {| f_authorization := ("Bearer " ++ token)%string;
     f_to := JS.join "," recipients;
     f_message := finalMessage;
     f_from := sender;
     f_format := "json";
     f_encoding := "utf-8";
     f_param1 := JS.nonempty param1Value;
     f_test := if test then Some "1" else None |}.

(** [sender] after [const { ..., sender = 'BulkComm', ... } = await
    req.json()], as [formData.append('from', sender)] writes it: the
    default for a missing field, the field's text for a string, and the
    text ["null"] for [null], which the default does not replace and
    [URLSearchParams] converts to a string. *)
Definition default_sender (rq : Request) : string :=
  match rq_sender rq with
  | Missing => "BulkComm"
  | Null => "null"
  | Text s => s
  end.

(** *** The pass-through handler ([serve]) *)

Definition serve_try (rq : Request) : M Response :=
  match rq_recipients rq with
  | None | Some [] =>
      answer 400
        (error_body "Recipients array is required and cannot be empty")
  | Some recipients =>
      match JS.nonempty (rq_message rq) with
      | None => answer 400 (error_body "Message content is required")
      | Some message =>
          if JS.trim message =? "" then
            answer 400 (error_body "Message content is required")
          else
            match JS.nonempty (deno_env E "SMSAPI_TOKEN") with
            | None => answer 500 (error_body "SMSAPI token not configured")
            | Some SMSAPI_TOKEN =>
                reply <- fetch (form_data SMSAPI_TOKEN recipients
                                  (JS.trim message) (default_sender rq)
                                  (rq_param1 rq) (or_false (rq_test rq))) ;;
                match reply with
                | FetchThrows e => throw e
                | NotJSON responseText =>
                    answer 500
                      (with_details (DetailsText responseText)
                         (error_body "Invalid response from SMS provider"))
                | ProviderJSON smsData =>
                    match error_code smsData with
                    | Some code =>
                        answer 400 (provider_error_body smsData code)
                    | None =>
                        answer 200
                          {| success := true;
                             sentCount := Some (or_zero (api_count smsData));
                             totalRecipients :=
                               Some (Z.of_nat (length recipients));
                             messageIds :=
                               Some (map item_id (or_nil (api_list smsData)));
                             cost := Some (total_cost (api_list smsData));
                             currency := Some "EUR";
                             error := None; errorCode := None;
                             invalidNumbers := None;
                             details :=
                               Some (DetailsLists
                                       (or_nil (api_list smsData))
                                       (or_nil (api_invalid_numbers smsData))
                                       None);
                             errors := None |}
                    end
                end
            end
      end
  end.

(** The [catch] of both handlers: a 500 answer with the message. *)
Definition internal_error (e : exn) : M Response :=
  answer 500
    (with_details DetailsInternal
       (error_body (message_of e "Unknown error occurred"))).

Definition serve (req : HttpRequest) : M Response :=
  if http_method req =? "OPTIONS" then ret Preflight
  else
    try_catch
      (match http_json req with
       | inl e => throw e
       | inr rq => serve_try rq
       end)
      internal_error.

(** *** The database-backed handler ([Deno.serve]) *)

(** What the later steps share. *)
Record Ctx := {
  recipients : list string;
  message : string;
  sender : string;
  test : bool;
  campaignId : option string;
  publicBaseUrl : string;
  hasLinkPlaceholder : bool;
  campaignShortId : option string }.

Definition bulk_row (c : Ctx) (sent : Z) (status : string) : BulkRow :=
  {| bm_type := "sms"; bm_content := message c;
     recipient_count := Z.of_nat (length (recipients c));
     sent_count := sent; bm_status := status;
     bm_campaign_id := campaignId c |}.

(** Steps 9 to 13: the provider's answer, the status updates, the log. *)
Definition finish (c : Ctx) (userIdMap : JSMap.t) (reply : ProviderReply)
  : M Response :=
  match reply with
  | FetchThrows e => throw e
  | NotJSON responseText =>
      answer 500
        (with_details (DetailsText responseText)
           (error_body "Invalid response from SMS provider"))
  | ProviderJSON smsData =>
      match error_code smsData with
      | Some code =>
          (* log failed bulk message *)
          (if test c then ret tt
           else _ <- Db.insert_bulk_message E (bulk_row c 0 "failed") ;;
                ret tt) ;;;
          answer 400 (provider_error_body smsData code)
      | None =>
          let sentCount := or_zero (api_count smsData) in
          (* step 11 *)
          (match campaignId c, api_list smsData with
           | Some cid, Some list =>
               let successfulNumbers := map item_number list in
               let successfulUserIds :=
                 flat_map (fun phone =>
                             if existsb (String.eqb phone) successfulNumbers
                             then match JS.nonempty (JSMap.get userIdMap phone) with
                                  | Some uid => [uid]
                                  | None => []
                                  end
                             else []) (recipients c) in
               match successfulUserIds with
               | [] => ret tt
               | _ => _ <- Db.update_recipient_status E cid
                             successfulUserIds "sent" ;;
                      ret tt
               end
           | _, _ => ret tt
           end) ;;;
          (* step 12 *)
          (if test c then ret tt
           else _ <- Db.insert_bulk_message E
                       (bulk_row c sentCount
                          (if (0 <? sentCount)%Z then "completed"
                           else "failed")) ;;
                ret tt) ;;;
          answer 200
            {| success := true;
               sentCount := Some sentCount;
               totalRecipients := Some (Z.of_nat (length (recipients c)));
               messageIds := Some (map item_id (or_nil (api_list smsData)));
               cost := Some (total_cost (api_list smsData));
               currency := Some "EUR";
               error := None; errorCode := None;
               invalidNumbers := Some (or_nil (api_invalid_numbers smsData));
               details :=
                 Some (DetailsLists (or_nil (api_list smsData))
                         (or_nil (api_invalid_numbers smsData)) None);
               errors := None |}
      end
  end.

(** Step 6: the link of one recipient. *)
Definition personalizedLink (c : Ctx) (campaignRecipientMap : JSMap.t)
  (phone : string) : string :=
  match JSMap.get campaignRecipientMap phone with
  | Some token =>
      match campaignId c, JS.nonempty (campaignShortId c) with
      | Some _, Some short =>
          (publicBaseUrl c ++ "/c/" ++ short ++ "?token=" ++ token)%string
      | _, _ => (publicBaseUrl c ++ "/" ++ token)%string
      end
  | None => publicBaseUrl c
  end.

(** Steps 6 to 8: links, message, credentials, the call of the provider. *)
Definition send (c : Ctx) (userIdMap campaignRecipientMap : JSMap.t)
  : M Response :=
  let personalizedLinks :=
    if hasLinkPlaceholder c
    then map (personalizedLink c campaignRecipientMap) (recipients c)
    else [] in
  let personalize :=
    hasLinkPlaceholder c && negb (length personalizedLinks =? 0)%nat in
  let finalMessage :=
    if personalize then JS.replace_link "[%1%]" (JS.trim (message c))
    else JS.trim (message c) in
  let param1Value :=
    if personalize then Some (JS.join "|" personalizedLinks) else None in
  match JS.nonempty (deno_env E "SMSAPI_TOKEN") with
  | None => answer 500 (error_body "SMSAPI token not configured")
  | Some SMSAPI_TOKEN =>
      reply <- fetch (form_data SMSAPI_TOKEN (recipients c) finalMessage
                        (sender c) param1Value (test c)) ;;
      finish c userIdMap reply
  end.

(** Step 5, one turn of [for (const phone of recipients)]: reuse the
    token on record or draw a new one.  The state is [recipientTokenMap]
    and [newCampaignRecipients]. *)
Definition assignToken (cid : string)
  (userIdMap existingRecipientMap : JSMap.t)
  (st : JSMap.t * list RecipientRow) (phone : string)
  : M (JSMap.t * list RecipientRow) :=
  let '(recipientTokenMap, newCampaignRecipients) := st in
  match JS.nonempty (JSMap.get userIdMap phone) with
  | None => ret st
  | Some userId =>
      match JS.nonempty (JSMap.get existingRecipientMap userId) with
      | Some existingToken =>
          ret (JSMap.set phone existingToken recipientTokenMap,
               newCampaignRecipients)
      | None =>
          uniqueToken <- Token.generate E ;;
          ret (JSMap.set phone uniqueToken recipientTokenMap,
               newCampaignRecipients ++
               [{| cr_campaign_id := cid; cr_user_id := userId;
                   cr_status := "sent"; unique_token := uniqueToken |}])
      end
  end.

(** Step 5: campaign recipients. *)
Definition campaignRecipients (c : Ctx) (userIdMap : JSMap.t) : M Response :=
  match campaignId c with
  | None => send c userIdMap []
  | Some cid =>
      existingRecipients <-
        Db.select_recipients_in E cid (JSMap.values userIdMap) ;;
      match existingRecipients with
      | DbError _ =>
          answer 500
            (error_body "Failed to fetch existing campaign recipients")
      | DbData rows =>
          let existingRecipientMap := JSMap.of_entries rows in
          st <- forEach (assignToken cid userIdMap existingRecipientMap)
                  (recipients c) ([], []) ;;
          let '(recipientTokenMap, newCampaignRecipients) := st in
          inserted <-
            match newCampaignRecipients with
            | [] => ret (DbData tt)
            | _ => Db.insert_recipients E newCampaignRecipients
            end ;;
          match inserted with
          | DbError _ =>
              answer 500 (error_body "Failed to create campaign recipients")
          | DbData _ =>
              (* update existing campaign recipients; a failure is logged *)
              (match JSMap.keys existingRecipientMap with
               | [] => ret tt
               | existingUserIds =>
                   _ <- Db.update_recipient_status E cid existingUserIds
                          "sent" ;;
                   ret tt
               end) ;;;
              send c userIdMap recipientTokenMap
          end
      end
  end.

(** Step 4, one turn: [userIdMap.set(phone, userId)] when an id is known. *)
Definition mapUser (existingUserMap newUserMap : JSMap.t)
  (userIdMap : JSMap.t) (phone : string) : JSMap.t :=
  let userId :=
    match JS.nonempty (JSMap.get existingUserMap phone) with
    | Some id => Some id
    | None => JS.nonempty (JSMap.get newUserMap phone)
    end in
  match userId with
  | Some id => JSMap.set phone id userIdMap
  | None => userIdMap
  end.

(** Steps 1 to 4: users. *)
Definition resolveUsers (c : Ctx) : M Response :=
  existingUsers <- Db.select_users_in E (recipients c) ;;
  match existingUsers with
  | DbError _ =>
      answer 500 (error_body "Failed to fetch existing users from database")
  | DbData rows =>
      let existingUserMap := JSMap.of_entries rows in
      let newUsers :=
        map (fun phone => (phone, detectCountryFromPhone phone, "active"))
          (filter (fun phone => negb (JSMap.has existingUserMap phone))
             (recipients c)) in
      inserted <-
        match newUsers with
        | [] => ret (DbData [])
        | _ => Db.insert_users E newUsers
        end ;;
      match inserted with
      | DbError _ =>
          answer 500 (error_body "Failed to create new users in database")
      | DbData insertedUsers =>
          let newUserMap := JSMap.of_entries insertedUsers in
          let userIdMap :=
            fold_left (mapUser existingUserMap newUserMap) (recipients c) [] in
          campaignRecipients c userIdMap
      end
  end.

(** Validation, configuration and the campaign's short id. *)
Definition handle_try (rq : Request) : M Response :=
  match rq_recipients rq with
  | None | Some [] =>
      answer 400
        (error_body "Recipients array is required and cannot be empty")
  | Some recipients =>
      match JS.nonempty (rq_message rq) with
      | None => answer 400 (error_body "Message content is required")
      | Some message =>
          if JS.trim message =? "" then
            answer 400 (error_body "Message content is required")
          else
            match JS.nonempty (deno_env E "SUPABASE_URL"),
                  JS.nonempty (deno_env E "SUPABASE_SERVICE_ROLE_KEY") with
            | Some _, Some _ =>
                let hasLink := JS.includes message "{{ link }}" in
                let ctx (short : option string) :=
                  {| recipients := recipients; message := message;
                     sender := default_sender rq;
                     test := or_false (rq_test rq);
                     campaignId := JS.nonempty (rq_campaignId rq);
                     publicBaseUrl :=
                       JS.or_else (deno_env E "PUBLIC_BASE_URL")
                         "https://your-domain.com";
                     hasLinkPlaceholder := hasLink;
                     campaignShortId := short |} in
                match JS.nonempty (rq_campaignId rq) with
                | Some cid =>
                    if hasLink then
                      campaignData <- Db.select_campaign_short_id E cid ;;
                      match campaignData with
                      | DbError _ =>
                          answer 400
                            (error_body
                               "Campaign not found or invalid campaign ID")
                      | DbData short => resolveUsers (ctx (Some short))
                      end
                    else resolveUsers (ctx None)
                | None => resolveUsers (ctx None)
                end
            | _, _ => answer 500 (error_body "Supabase configuration missing")
            end
      end
  end.

Definition handler (req : HttpRequest) : M Response :=
  if http_method req =? "OPTIONS" then ret Preflight
  else
    try_catch
      (match http_json req with
       | inl e => throw e
       | inr rq => handle_try rq
       end)
      internal_error.

End WithEnv.
End Edge.

(** ** Vocabulary of the properties *)

(** [c] started in [w] returns normally, with a value and a final world
    that satisfy [Q]. *)
Definition returns {A} (c : M A) (w : World) (Q : A -> World -> Prop) : Prop :=
  exists a w', c w = (inr a, w') /\ Q a w'.

Fixpoint has_char (c : ascii) (s : string) : bool :=
  match s with
  | EmptyString => false
  | String d r => Ascii.eqb d c || has_char c r
  end.

(** No ["|"] in [s]: as a link, [s] stays one segment of [param1]. *)
Definition pipe_free (s : string) : Prop := has_char "|" s = false.

(** The tokens on record are free of ["|"] (tokens are drawn from the
    digits and the upper-case letters). *)
Definition tokens_pipe_free (w : World) : Prop :=
  Forall (fun r => pipe_free (unique_token r)) (campaign_recipients w).

(** [tok] is a token on record for the campaign [cid] and a user whose
    phone number is [phone]. *)
Definition token_on_record (w : World) (cid phone tok : string) : Prop :=
  exists u r,
    In u (users w) /\ phone_number u = phone /\
    In r (campaign_recipients w) /\ cr_campaign_id r = cid /\
    cr_user_id r = user_id u /\ unique_token r = tok.

(** [w'] has the traces and the log of [w]: nothing was sent, reported or
    logged in between. *)
Definition quiet (w w' : World) : Prop :=
  invocations w' = invocations w /\ progress w' = progress w /\
  sending w' = sending w /\ fetches w' = fetches w /\
  bulk_messages w' = bulk_messages w.

(** [r'] is [r] with further entries in [errors]: nothing was credited
    in between. *)
Definition more_errors (r r' : Hook.Results) : Prop :=
  Hook.r_success r' = Hook.r_success r /\
  Hook.r_sentCount r' = Hook.r_sentCount r /\
  Hook.r_totalRecipients r' = Hook.r_totalRecipients r /\
  Hook.r_messageIds r' = Hook.r_messageIds r /\
  Hook.r_cost r' = Hook.r_cost r /\
  Hook.r_currency r' = Hook.r_currency r /\
  Hook.r_invalidNumbers r' = Hook.r_invalidNumbers r /\
  Hook.r_error r' = Hook.r_error r /\
  exists errs, Hook.r_errors r' = Hook.r_errors r ++ errs.

(** What a gateway reply adds to [results.sentCount]. *)
Definition sent_by (reply : InvokeReply) : Z :=
  match reply with
  | InvokeData smsData =>
      if success smsData
      then match sentCount smsData with Some n => n | None => 0%Z end
      else 0%Z
  | _ => 0%Z
  end.

(** The accumulated [sentCount] of the calls [calls], the first of which
    is the [n]-th call of the run. *)
Fixpoint sent_total (E : Env) (n : nat) (calls : list InvokeBody) : Z :=
  match calls with
  | [] => 0%Z
  | body :: rest =>
      (sent_by (invoke_reply E n body) + sent_total E (S n) rest)%Z
  end.

(** [r'] is [r] after [n] more messages were credited and some errors
    were recorded. *)
Definition credited (n : Z) (r r' : Hook.Results) : Prop :=
  Hook.r_success r' = Hook.r_success r /\
  Hook.r_error r' = Hook.r_error r /\
  Hook.r_totalRecipients r' = Hook.r_totalRecipients r /\
  Hook.r_sentCount r' = (Hook.r_sentCount r + n)%Z /\
  exists errs, Hook.r_errors r' = Hook.r_errors r ++ errs.

(** *** What a resolution does to the store

    [user_step phone uid us us']: the user with phone number [phone] has
    the id [uid]; the row was found, or was added. *)
Inductive user_step (phone uid : string) (us us' : list UserRow) : Prop :=
| UserFound (u : UserRow) :
    filter (Db.user_has_phone phone) us = [u] ->
    user_id u = uid ->
    us' = us ->
    user_step phone uid us us'
| UserCreated (u : UserRow) :
    existsb (Db.user_has_phone phone) us = false ->
    phone_number u = phone ->
    user_id u = uid ->
    us' = us ++ [u] ->
    user_step phone uid us us'.

(** A token that [Token.generate] can return. *)
Definition generated (tok : string) : Prop :=
  exists ds, tok = JS.toUpperCase (Token.string_of_digits ds).

(** The status update of the rows of one campaign and one user. *)
Definition touch (cid uid : string) (r : RecipientRow) : RecipientRow :=
  if (cr_campaign_id r =? cid) && existsb (String.eqb (cr_user_id r)) [uid]
  then Db.with_status "sent" r else r.

(** [token_step cid uid tok rs rs']: the recipient [(cid, uid)] has the
    token [tok]; the row was found (and its status set, unless that
    request failed), or was added with a fresh token. *)
Inductive token_step (cid uid tok : string) (rs rs' : list RecipientRow)
  : Prop :=
| TokenFound (r : RecipientRow) :
    filter (Db.recipient_is cid uid) rs = [r] ->
    unique_token r = tok ->
    rs' = rs \/ rs' = map (touch cid uid) rs ->
    token_step cid uid tok rs rs'
| TokenCreated :
    existsb (Db.recipient_is cid uid) rs = false ->
    generated tok ->
    rs' = rs ++ [{| cr_campaign_id := cid; cr_user_id := uid;
                    cr_status := "sent"; unique_token := tok |}] ->
    token_step cid uid tok rs rs'.

(** Every token on record in [w] is on record in [w']. *)
Definition store_grows (w w' : World) : Prop :=
  forall cid phone tok,
    token_on_record w cid phone tok -> token_on_record w' cid phone tok.

(** [link] is a link for the recipient [phone]: empty, or the origin
    followed by a token, which with a campaign is the token on record in
    [w] for that campaign and that phone number. *)
Definition link_for (E : Env) (request : SMSRequest) (w : World)
  (phone link : string) : Prop :=
  link = "" \/
  exists tok,
    link = (origin E ++ "/" ++ tok)%string /\
    forall cid, JS.nonempty (campaignId request) = Some cid ->
      token_on_record w cid phone tok.

(** [body] is the call for [batch]: its recipients are the normalized
    phone numbers of the batch, in order, and its links are links for
    them, position by position; under [J] no link holds a ["|"]. *)
Definition call_of (E : Env) (request : SMSRequest)
  (hasLinkPlaceholder : bool) (J : Prop) (w : World)
  (batch : list string) (body : InvokeBody) : Prop :=
  exists links,
    body = Hook.batch_body request hasLinkPlaceholder
             (map (normalizePhoneNumber E) batch) links /\
    Forall2 (link_for E request w) (map (normalizePhoneNumber E) batch)
      links /\
    (J -> Forall pipe_free links).

(** What a run of batches leaves behind: the calls, the progress
    reports, the credit. *)
Definition batches_post (E : Env) (request : SMSRequest)
  (hasLinkPlaceholder : bool) (total batchIndex : nat)
  (batches : list (list string)) (results : Hook.Results) (w : World)
  (results' : Hook.Results) (w' : World) : Prop :=
  exists calls,
    invocations w' = invocations w ++ calls /\
    Forall2 (call_of E request hasLinkPlaceholder
               (pipe_free (origin E) /\ tokens_pipe_free w) w')
      batches calls /\
    progress w' =
      progress w ++
      map (fun i => Hook.progressPercent i total)
        (seq batchIndex (length batches)) /\
    sending w' = sending w /\ fetches w' = fetches w /\
    bulk_messages w' = bulk_messages w /\
    store_grows w w' /\
    (pipe_free (origin E) -> tokens_pipe_free w -> tokens_pipe_free w') /\
    credited (sent_total E (length (invocations w)) calls) results results'.

(** The world in which the outer [try] of [sendSMS] starts. *)
Definition started (w : World) : World :=
  set_progress (fun l => l ++ [0%float]) (set_sending (fun l => l ++ [true]) w).

(** The uniqueness constraints of the store. *)
Definition unique_phones (w : World) : Prop :=
  NoDup (map phone_number (users w)).

Definition unique_recipients (w : World) : Prop :=
  NoDup (map (fun r => (cr_campaign_id r, cr_user_id r))
           (campaign_recipients w)).

(** No database request fails on the way. *)
Definition no_faults (E : Env) : Prop := forall n, db_fault E n = None.

(** [ceil(n / 100)] *)
Definition ceil_div (n d : nat) : nat := (n + (d - 1)) / d.

(** The progress that the code reports when [k] of [totalBatches]
    batches are done: [Math.round((k / totalBatches) * 90)]. *)
Definition progress_after (k totalBatches : nat) : float :=
  Num.round
    (PrimFloat.mul
       (PrimFloat.div (Num.of_nat k) (Num.of_nat totalBatches)) 90).

(** The progress formula in the words of the specification:
    [round(100 * k / totalBatches)], capped at 90. *)
Definition spec_progress (k totalBatches : nat) : float :=
  let p := Num.round
             (PrimFloat.div (PrimFloat.mul 100 (Num.of_nat k))
                (Num.of_nat totalBatches)) in
  if PrimFloat.ltb 90 p then 90%float else p.

(** *** Hoare triples

    [hoare P c Q X]: from a world in [P], [c] either returns a value and a
    world in [Q] or throws an exception with a world in [X]. *)

Definition hoare {A} (P : World -> Prop) (c : M A)
  (Q : A -> World -> Prop) (X : exn -> World -> Prop) : Prop :=
  forall w, P w ->
    match c w with
    | (inr a, w') => Q a w'
    | (inl e, w') => X e w'
    end.

(** [c] keeps [I]: whether it returns or throws. *)
Definition keeps {A} (I : World -> Prop) (c : M A) : Prop :=
  hoare I c (fun _ => I) (fun _ => I).

(** A property that does not depend on the store or on the counters. *)
Definition store_blind (I : World -> Prop) : Prop :=
  forall w, I w ->
    (forall f, I (set_users f w)) /\
    (forall f, I (set_campaign_recipients f w)) /\
    (forall f, I (set_db_requests f w)) /\
    (forall f, I (set_randoms f w)).

(** Properties that do not depend on the log, or on the calls of the
    provider. *)
Definition bulk_blind (I : World -> Prop) : Prop :=
  forall w f, I w -> I (set_bulk_messages f w).

Definition fetch_blind (I : World -> Prop) : Prop :=
  forall w f, I w -> I (set_fetches f w).

(** What the final state and world of a loop over recipients satisfy. *)
Definition recipients_post (E : Env) (request : SMSRequest)
  (results : Hook.Results)
  (brs bls : list string) (phones : list string) (w : World)
  (st' : Hook.BatchState) (w' : World) : Prop :=
  let '(results', brs', bls') := st' in
  more_errors results results' /\
  brs' = brs ++ map (normalizePhoneNumber E) phones /\
  quiet w w' /\ store_grows w w' /\
  exists links,
    bls' = bls ++ links /\
    Forall2 (link_for E request w') (map (normalizePhoneNumber E) phones)
      links /\
    (pipe_free (origin E) -> tokens_pipe_free w ->
     tokens_pipe_free w' /\ Forall pipe_free links).

(** ** The component [SMSManager] *)

(** The part of the component that decides what is sent: the derived
    lists, the event handlers and [handleSend], the caller of [sendSMS]
    and [testSMS].  The state of the component is a record that the
    handlers transform; a handler reads the state of the render in which
    it was created. *)
Module Manager.

(** A user, as [useUsers] gives it. *)
Record User := {
  usr_id : string;
  name : option string;
  phoneNumber : option string;
  email : option string;
  status : string }.

(** A template, as [useTemplates] gives it. *)
Record Template := {
  tpl_id : string;
  tpl_type : string;
  content : option string }.

(** What the hooks of the component hand to a render: the templates, the
    users and the translation function. *)
Record Props := {
  templates : list Template;
  users : list User;
  t : string -> string }.

(** The [useState] cells that the handlers read or write.  ([sender] has
    no setter: it is the constant ["1511"].) *)
Record State := {
  selectedCampaign : string;
  selectedTemplate : string;
  customMessage : string;
  recipientFilter : string;
  selectedUserIds : list string;
  userSearchTerm : string;
  sendResult : option SMSResponse;
  isTestMode : bool }.

Definition setSendResult (r : option SMSResponse) (s : State) : State :=
  {| selectedCampaign := selectedCampaign s;
     selectedTemplate := selectedTemplate s;
     customMessage := customMessage s;
     recipientFilter := recipientFilter s;
     selectedUserIds := selectedUserIds s;
     userSearchTerm := userSearchTerm s;
     sendResult := r; isTestMode := isTestMode s |}.

Definition setSelectedTemplate (v : string) (s : State) : State :=
  {| selectedCampaign := selectedCampaign s;
     selectedTemplate := v;
     customMessage := customMessage s;
     recipientFilter := recipientFilter s;
     selectedUserIds := selectedUserIds s;
     userSearchTerm := userSearchTerm s;
     sendResult := sendResult s; isTestMode := isTestMode s |}.

Definition setCustomMessage (v : string) (s : State) : State :=
  {| selectedCampaign := selectedCampaign s;
     selectedTemplate := selectedTemplate s;
     customMessage := v;
     recipientFilter := recipientFilter s;
     selectedUserIds := selectedUserIds s;
     userSearchTerm := userSearchTerm s;
     sendResult := sendResult s; isTestMode := isTestMode s |}.

(** [setSelectedUserIds((prev) => f(prev))] *)
Definition setSelectedUserIds (f : list string -> list string) (s : State)
  : State :=
  {| selectedCampaign := selectedCampaign s;
     selectedTemplate := selectedTemplate s;
     customMessage := customMessage s;
     recipientFilter := recipientFilter s;
     selectedUserIds := f (selectedUserIds s);
     userSearchTerm := userSearchTerm s;
     sendResult := sendResult s; isTestMode := isTestMode s |}.

(** [phone && phone.trim() && phone !== "null" && phone !== "undefined"],
    the test that the component applies to a phone number. *)
Definition phone_ok (phone : option string) : bool :=
  match phone with
  | Some p =>
      negb (p =? "") && negb (JS.trim p =? "") &&
      negb (p =? "null") && negb (p =? "undefined")
  | None => false
  end.

Section WithProps.
Variable P : Props.

Definition smsTemplates : list Template :=
  filter (fun tp => tpl_type tp =? "sms") (templates P).

Definition activeUsersWithPhones : list User :=
  filter (fun u => (status u =? "active") && phone_ok (phoneNumber u))
    (users P).

(** "Filter users based on search term" *)
Definition matches_search (term : string) (user : User) : bool :=
  if JS.trim term =? "" then true
  else
    let searchLower := JS.toLowerCase term in
    let name := JS.or_else (name user) "" in
    let phone := JS.or_else (phoneNumber user) "" in
    let email := JS.or_else (email user) "" in
    JS.includes (JS.toLowerCase name) searchLower ||
    JS.includes (JS.toLowerCase phone) searchLower ||
    JS.includes (JS.toLowerCase email) searchLower.

Definition filteredUsersWithPhones (s : State) : list User :=
  filter (matches_search (userSearchTerm s)) activeUsersWithPhones.

Definition getRecipientCount (s : State) : nat :=
  if recipientFilter s =? "selected" then length (selectedUserIds s)
  else if recipientFilter s =? "filtered"
       then length (filteredUsersWithPhones s)
       else length (filteredUsersWithPhones s).

Definition getCurrentMessage (s : State) : string :=
  if negb (selectedTemplate s =? "") then
    match find (fun tp => tpl_id tp =? selectedTemplate s) smsTemplates with
    | Some template => JS.or_else (content template) ""
    | None => ""
    end
  else customMessage s.

Definition handleUserSelection (userId : string) (checked : bool)
  (s : State) : State :=
  if checked
  then setSelectedUserIds (fun prev => prev ++ [userId]) s
  else setSelectedUserIds
         (fun prev => filter (fun i => negb (i =? userId)) prev) s.

Definition handleSelectAllUsers (s : State) : State :=
  if (length (selectedUserIds s) =? length (filteredUsersWithPhones s))%nat
  then setSelectedUserIds (fun _ => []) s
  else setSelectedUserIds
         (fun _ => map usr_id (filteredUsersWithPhones s)) s.

(** [us.map((user) => user.phoneNumber).filter((phone) => ...)] *)
Definition phones_of (us : list User) : list string :=
  flat_map (fun user =>
              match phoneNumber user with
              | Some phone =>
                  if phone_ok (Some phone) then [phone] else []
              | None => []
              end) us.

(** "Get recipient phone numbers based on selection" *)
Definition recipients_of (s : State) : list string :=
  if recipientFilter s =? "selected" then
    phones_of
      (filter (fun user => existsb (String.eqb (usr_id user))
                             (selectedUserIds s))
         (filteredUsersWithPhones s))
  else if recipientFilter s =? "filtered"
       then phones_of (filteredUsersWithPhones s)
       else phones_of (filteredUsersWithPhones s).

(** The request that [handleSend] hands to the hook. *)
Definition request_of (s : State) (recipients : list string)
  (message : string) : SMSRequest :=
  let sender := "1511" in
  Build_SMSRequest
    (Some (map Some recipients))
    (JS.trim message)
    (Some (JS.or_else (Some (JS.trim sender)) "BulkComm"))
    None
    (JS.nonempty (Some (selectedCampaign s)))
    None.

Variable E : Env.

(** [handleSend]: the new state of the component. *)
Definition handleSend (s : State) : M State :=
  let message := getCurrentMessage s in
  if (JS.trim message =? "") || (getRecipientCount s =? 0)%nat then ret s
  else
    let s1 := setSendResult None s in
    match recipients_of s with
    | [] => ret (setSendResult (Some (failure (t P "sms.noValidRecipients"))) s1)
    | recipients =>
        try_catch
          (let smsFunction :=
             if isTestMode s then Hook.testSMS E else Hook.sendSMS E in
           result <- smsFunction (request_of s recipients message) ;;
           let s2 := setSendResult (Some result) s1 in
           (* clear message if successful and not in test mode *)
           if success result && negb (isTestMode s)
           then ret (setCustomMessage "" (setSelectedTemplate "" s2))
           else ret s2)
          (fun error =>
             ret (setSendResult
                    (Some (failure (message_of error (t P "sms.smsSendError"))))
                    s1))
    end.

End WithProps.
End Manager.

(** ** Further vocabulary *)

(** An answer of an edge function is coherent: [success] is [true] with
    status 200, and [false] with an error text with status 400 or 500. *)
Definition answer_ok (r : Edge.Response) : Prop :=
  match r with
  | Edge.Preflight => True
  | Edge.Json st body =>
      (st = 200%Z /\ success body = true) \/
      ((st = 400%Z \/ st = 500%Z) /\ success body = false /\
       exists msg, error body = Some msg)
  end.

(** The status update of the rows of one campaign and some users. *)
Definition mark_sent (cid : string) (uids : list string) (r : RecipientRow)
  : RecipientRow :=
  if (cr_campaign_id r =? cid) && existsb (String.eqb (cr_user_id r)) uids
  then Db.with_status "sent" r else r.

(** One elementary change of the world. *)
Inductive write : World -> World -> Prop :=
| write_request w : write w (set_db_requests S w)
| write_random w : write w (set_randoms S w)
| write_users w rows :
    Forall (fun u => user_status u = "active") rows ->
    write w (set_users (fun tbl => tbl ++ rows) w)
| write_recipients w rows :
    Forall (fun r => cr_status r = "sent") rows ->
    write w (set_campaign_recipients (fun tbl => tbl ++ rows) w)
| write_status w cid uids :
    write w (set_campaign_recipients (map (mark_sent cid uids)) w)
| write_log w row :
    bm_type row = "sms" ->
    write w (set_bulk_messages (fun tbl => tbl ++ [row]) w)
| write_invoke w body : write w (set_invocations (fun l => l ++ [body]) w)
| write_fetch w form : write w (set_fetches (fun l => l ++ [form]) w)
| write_sending w b : write w (set_sending (fun l => l ++ [b]) w)
| write_progress w p : write w (set_progress (fun l => l ++ [p]) w).

(** A sequence of elementary changes. *)
Inductive writes : World -> World -> Prop :=
| writes_refl w : writes w w
| writes_step w1 w2 w3 : writes w1 w2 -> write w2 w3 -> writes w1 w3.

(** [r'] is the row [r], or [r] with the status ["sent"]. *)
Definition row_kept (r r' : RecipientRow) : Prop :=
  r' = r \/ r' = Db.with_status "sent" r.

(** The store of [w'] extends the store of [w]: rows were only added
    (users as ["active"], campaign recipients as ["sent"], log rows of
    type ["sms"]), a campaign recipient on record kept its campaign, its
    user and its token, and the campaigns are as they were. *)
Definition extends (w w' : World) : Prop :=
  (exists us, users w' = users w ++ us /\
     Forall (fun u => user_status u = "active") us) /\
  campaigns w' = campaigns w /\
  (exists old new,
     campaign_recipients w' = old ++ new /\
     Forall2 row_kept (campaign_recipients w) old /\
     Forall (fun r => cr_status r = "sent") new) /\
  (exists rows, bulk_messages w' = bulk_messages w ++ rows /\
     Forall (fun row => bm_type row = "sms") rows).

(** The context that the database-backed handler builds from a request
    whose recipients are [rs] and whose message is [m]. *)
Definition ctx_of (E : Env) (rq : Edge.Request) (rs : list string)
  (m : string) (short : option string) : Edge.Ctx :=
  {| Edge.recipients := rs; Edge.message := m;
     Edge.sender := Edge.default_sender rq;
     Edge.test := or_false (Edge.rq_test rq);
     Edge.campaignId := JS.nonempty (Edge.rq_campaignId rq);
     Edge.publicBaseUrl :=
       JS.or_else (deno_env E "PUBLIC_BASE_URL") "https://your-domain.com";
     Edge.hasLinkPlaceholder := JS.includes m "{{ link }}";
     Edge.campaignShortId := short |}.

(** The HTTP request that carries [body] to an edge function. *)
Definition http_of (body : InvokeBody) : Edge.HttpRequest :=
  {| Edge.http_method := "POST";
     Edge.http_json :=
       inr {| Edge.rq_recipients := Some (b_recipients body);
              Edge.rq_message := Some (b_message body);
              Edge.rq_sender := Edge.Text (b_sender body);
              Edge.rq_test := Some (b_test body);
              Edge.rq_param1 := b_param1 body;
              Edge.rq_campaignId := None |} |}.

(** A digit or an upper-case letter. *)
Definition is_alnum_upper (c : ascii) : bool :=
  let n := nat_of_ascii c in
  ((48 <=? n)%nat && (n <=? 57)%nat) || ((65 <=? n)%nat && (n <=? 90)%nat).

Fixpoint all_chars (p : ascii -> bool) (s : string) : bool :=
  match s with
  | EmptyString => true
  | String c r => p c && all_chars p r
  end.

(** [c] changes the world by elementary changes only, whether it returns
    or throws. *)
Definition tame {A} (c : M A) : Prop := forall w, writes w (snd (c w)).

(** [c] returns from every world: it never throws. *)
Definition total {A} (c : M A) : Prop :=
  forall w, exists a w', c w = (inr a, w').




(** [form] is the request to the provider that the database-backed
    handler makes for a JSON body [rq] with recipients [rs] and message
    [m]: all recipients joined by [","], the sender (["BulkComm"] for a
    missing field, ["null"] for [null]), the test flag; with
    the literal placeholder in the message, the message after the
    replacement and one link per recipient in [param1], each link
    starting with the public base URL; without it, the trimmed message
    and no [param1]. *)
Definition handler_form (E : Env) (rq : Edge.Request) (rs : list string)
  (m : string) (form : FormData) : Prop :=
  (exists tok,
     JS.nonempty (deno_env E "SMSAPI_TOKEN") = Some tok /\
     f_authorization form = ("Bearer " ++ tok)%string) /\
  f_to form = JS.join "," rs /\
  f_from form
  = match Edge.rq_sender rq with
    | Edge.Missing => "BulkComm"
    | Edge.Null => "null"
    | Edge.Text s => s
    end /\
  f_format form = "json" /\ f_encoding form = "utf-8" /\
  f_test form = (if or_false (Edge.rq_test rq) then Some "1" else None) /\
  if JS.includes m "{{ link }}"
  then
    f_message form = JS.replace_link "[%1%]" (JS.trim m) /\
    exists links,
      length links = length rs /\
      f_param1 form = JS.nonempty (Some (JS.join "|" links)) /\
      Forall (fun link =>
                JS.startsWith link
                  (JS.or_else (deno_env E "PUBLIC_BASE_URL")
                     "https://your-domain.com") = true) links
  else f_message form = JS.trim m /\ f_param1 form = None.

(** What a reply of the gateway adds to [results.messageIds] and to
    [results.invalidNumbers], and what it makes of [results.cost]. *)
Definition ids_by (reply : InvokeReply) : list string :=
  match reply with
  | InvokeData smsData =>
      if success smsData
      then match messageIds smsData with Some ids => ids | None => [] end
      else []
  | _ => []
  end.

Definition invalid_by (reply : InvokeReply) : list InvalidNumber :=
  match reply with
  | InvokeData smsData =>
      if success smsData then []
      else match invalidNumbers smsData with Some l => l | None => [] end
  | _ => []
  end.

Definition cost_by (acc : float) (reply : InvokeReply) : float :=
  match reply with
  | InvokeData smsData =>
      if success smsData
      then match cost smsData with
           | Some c => if Num.truthy c then PrimFloat.add acc c else acc
           | None => acc
           end
      else acc
  | _ => acc
  end.

(** The replies to the calls [calls], the first of which is the [n]-th
    call of the run. *)
Fixpoint replies_of (E : Env) (n : nat) (calls : list InvokeBody)
  : list InvokeReply :=
  match calls with
  | [] => []
  | body :: rest => invoke_reply E n body :: replies_of E (S n) rest
  end.

(** [r'] is [r] after the replies [replies] were absorbed, in order. *)
Definition gathered (replies : list InvokeReply) (r r' : Hook.Results)
  : Prop :=
  Hook.r_messageIds r' = Hook.r_messageIds r ++ concat (map ids_by replies) /\
  Hook.r_invalidNumbers r'
  = Hook.r_invalidNumbers r ++ concat (map invalid_by replies) /\
  Hook.r_cost r' = fold_left cost_by replies (Hook.r_cost r) /\
  Hook.r_totalRecipients r' = Hook.r_totalRecipients r /\
  Hook.r_currency r' = Hook.r_currency r.


(** ** Sample data *)

Module Sample.

Definition world : World :=
  {| users := []; campaigns := []; campaign_recipients := [];
     bulk_messages := []; db_requests := 0; randoms := 0;
     invocations := []; fetches := []; sending := []; progress := [] |}.

(** A gateway reply for a batch of [n] recipients, all sent. *)
Definition sent (n : Z) : SMSResponse :=
  {| success := true; sentCount := Some n; totalRecipients := Some n;
     messageIds := Some []; cost := Some 0%float; currency := Some "EUR";
     error := None; errorCode := None; invalidNumbers := None;
     details := None; errors := None |}.

(** An environment in which nothing fails: every database request reaches
    the store and the gateway reports every recipient as sent. *)
Definition env : Env :=
  {| normalizePhoneNumber := fun phone => phone;
     detectCountryFromPhone := fun _ => None;
     origin := "https://app.example";
     deno_env := fun _ => None;
     db_fault := fun _ => None;
     postgrest_is_Error := false;
     gen_id := fun n j => ("user-" ++ JS.of_nat n ++ "-" ++ JS.of_nat j)%string;
     math_random := fun n => [10 + n; 1; 2; 35; 4; 5; 6; 7; 8; 9];
     invoke_reply :=
       fun _ body => InvokeData (sent (Z.of_nat (length (b_recipients body))));
     provider_reply := fun _ _ => NotJSON "" |}.

Definition request (phones : list string) (text : string)
  (campaign : option string) : SMSRequest :=
  {| recipients := Some (map Some phones); message := text; sender := None;
     test := None; campaignId := campaign; param1 := None |}.

(** As [env], but the database requests whose numbers are in [ns] fail on
    the way. *)
Definition flaky (ns : list nat) : Env :=
  {| normalizePhoneNumber := normalizePhoneNumber env;
     detectCountryFromPhone := detectCountryFromPhone env;
     origin := origin env;
     deno_env := deno_env env;
     db_fault :=
       fun n => if existsb (Nat.eqb n) ns then Some "connection lost"
                else None;
     postgrest_is_Error := postgrest_is_Error env;
     gen_id := gen_id env;
     math_random := math_random env;
     invoke_reply := invoke_reply env;
     provider_reply := provider_reply env |}.

(** A store that knows one user, a recipient of the campaign ["c1"]. *)
Definition known : World :=
  {| users := [{| user_id := "u1"; phone_number := "+359888000001";
                  country := "BG"; user_status := "active" |}];
     campaigns := [{| campaign_id := "c1"; short_id := "spring" |}];
     campaign_recipients :=
       [{| cr_campaign_id := "c1"; cr_user_id := "u1"; cr_status := "sent";
           unique_token := "TOKEN123" |}];
     bulk_messages := []; db_requests := 0; randoms := 0;
     invocations := []; fetches := []; sending := []; progress := [] |}.

(** The configuration of the edge functions: the store's credentials
    are always set, the provider's token only when [with_token] is. *)
Definition config (with_token : bool) (name : string) : option string :=
  if name =? "SUPABASE_URL" then Some "https://db.example"
  else if name =? "SUPABASE_SERVICE_ROLE_KEY" then Some "service-key"
  else if name =? "SMSAPI_TOKEN" then
    (if with_token then Some "provider-token" else None)
  else None.

(** As [env], for the edge functions: the provider answers [reply]. *)
Definition edge_env (with_token : bool) (reply : ProviderReply) : Env :=
  {| normalizePhoneNumber := normalizePhoneNumber env;
     detectCountryFromPhone := detectCountryFromPhone env;
     origin := origin env;
     deno_env := config with_token;
     db_fault := db_fault env;
     postgrest_is_Error := postgrest_is_Error env;
     gen_id := gen_id env;
     math_random := math_random env;
     invoke_reply := invoke_reply env;
     provider_reply := fun _ _ => reply |}.

(** The provider accepts the request and reports [n] messages. *)
Definition accepted (n : Z) : ProviderReply :=
  ProviderJSON {| api_count := Some n; api_list := Some [];
                  api_invalid_numbers := None; api_error := None;
                  api_message := None |}.

Definition post (phones : list string) (text : string)
  (testing : option bool) (campaign : option string) : Edge.HttpRequest :=
  {| Edge.http_method := "POST";
     Edge.http_json :=
       inr {| Edge.rq_recipients := Some phones;
              Edge.rq_message := Some text;
              Edge.rq_sender := Edge.Missing; Edge.rq_test := testing;
              Edge.rq_param1 := None; Edge.rq_campaignId := campaign |} |}.

(** The gateway as the pass-through handler answers it: a 2xx answer is
    the [data] of the reply, any other answer is an [error]. *)
Definition through_serve (E : Env) (n : nat) (body : InvokeBody)
  : InvokeReply :=
  match fst (Edge.serve E
               {| Edge.http_method := "POST";
                  Edge.http_json :=
                    inr {| Edge.rq_recipients := Some (b_recipients body);
                           Edge.rq_message := Some (b_message body);
                           Edge.rq_sender := Edge.Text (b_sender body);
                           Edge.rq_test := Some (b_test body);
                           Edge.rq_param1 := b_param1 body;
                           Edge.rq_campaignId := None |} |} world) with
  | inr (Edge.Json status data) =>
      if (200 <=? status)%Z && (status <? 300)%Z then InvokeData data
      else InvokeError
             {| fe_message := Some "Edge Function returned a non-2xx status code";
                fe_context_error := None |}
  | inr Edge.Preflight => InvokeData (sent 0)
  | inl e => InvokeThrows e
  end.

(** As [env], with the pass-through handler as the gateway and a provider
    that accepts every request and reports no message. *)
Definition nothing_sent_env : Env :=
  {| normalizePhoneNumber := normalizePhoneNumber env;
     detectCountryFromPhone := detectCountryFromPhone env;
     origin := origin env;
     deno_env := deno_env env;
     db_fault := db_fault env;
     postgrest_is_Error := postgrest_is_Error env;
     gen_id := gen_id env;
     math_random := math_random env;
     invoke_reply := through_serve (edge_env true (accepted 0));
     provider_reply := provider_reply env |}.

(** One phone number, [n] times. *)
Definition crowd (n : nat) : list string := repeat "+359888000001" n.

(** The JSON body of [post]. *)
Definition body_of (phones : list string) (text : string)
  (testing : option bool) (campaign : option string) : Edge.Request :=
  {| Edge.rq_recipients := Some phones;
     Edge.rq_message := Some text;
     Edge.rq_sender := Edge.Missing; Edge.rq_test := testing;
     Edge.rq_param1 := None; Edge.rq_campaignId := campaign |}.

(** A JSON body whose [sender] is [from], and the request that carries
    it. *)
Definition body_from (from : Edge.Field) (phones : list string)
  (text : string) : Edge.Request :=
  {| Edge.rq_recipients := Some phones;
     Edge.rq_message := Some text;
     Edge.rq_sender := from; Edge.rq_test := None;
     Edge.rq_param1 := None; Edge.rq_campaignId := None |}.

Definition post_from (from : Edge.Field) (phones : list string)
  (text : string) : Edge.HttpRequest :=
  {| Edge.http_method := "POST";
     Edge.http_json := inr (body_from from phones text) |}.

(** What the hooks hand to the component: two active users with a phone
    number, one inactive user, one user without phone number; one SMS
    template and one e-mail template. *)
Definition props : Manager.Props :=
  {| Manager.templates :=
       [{| Manager.tpl_id := "t1"; Manager.tpl_type := "sms";
           Manager.content := Some "Visit {{ link }}" |};
        {| Manager.tpl_id := "t2"; Manager.tpl_type := "email";
           Manager.content := Some "Dear customer" |}];
     Manager.users :=
       [{| Manager.usr_id := "u1"; Manager.name := Some "Ana";
           Manager.phoneNumber := Some "+359888000001";
           Manager.email := None; Manager.status := "active" |};
        {| Manager.usr_id := "u2"; Manager.name := Some "Boris";
           Manager.phoneNumber := Some "+359888000002";
           Manager.email := Some "boris@example.com";
           Manager.status := "active" |};
        {| Manager.usr_id := "u3"; Manager.name := Some "Vera";
           Manager.phoneNumber := Some "+359888000003";
           Manager.email := None; Manager.status := "inactive" |};
        {| Manager.usr_id := "u4"; Manager.name := None;
           Manager.phoneNumber := Some "null";
           Manager.email := None; Manager.status := "active" |}];
     Manager.t := fun key => key |}.

(** The component with a custom message typed in, and with a template
    selected. *)
Definition draft (template text : string) : Manager.State :=
  {| Manager.selectedCampaign := ""; Manager.selectedTemplate := template;
     Manager.customMessage := text; Manager.recipientFilter := "all";
     Manager.selectedUserIds := []; Manager.userSearchTerm := "";
     Manager.sendResult := None; Manager.isTestMode := false |}.

End Sample.

(** * Properties *)

Example trim_ex : JS.trim "  Visit  {{ link }} " = "Visit  {{ link }}".
Proof. reflexivity. Qed.

Example replace_ex1 :
  JS.replace_link "[%1%]" "a {{link}} b {{   link }}{{ link}}}" = "a [%1%] b [%1%][%1%]}".
Proof. reflexivity. Qed.

Example replace_ex2 :
  JS.replace_link "[%1%]" "{{ lin k }} {{{link}}" = "{{ lin k }} {[%1%]".
Proof. reflexivity. Qed.

Example split_ex : JS.split "|" "a||b|" = ["a"; ""; "b"; ""].
Proof. reflexivity. Qed.

Example of_nat_ex : JS.of_nat 12 = "12" /\ JS.of_nat 0 = "0".
Proof. split; reflexivity. Qed.

Example includes_ex :
  JS.includes "Visit {{ link }}" "{{ link }}" = true /\
  JS.includes "Visit {{link}}" "{{ link }}" = false.
Proof. split; reflexivity. Qed.

Example detectCountry_ex :
  map Edge.detectCountryFromPhone ["+420777123456"; "+12025550100"; "+999000"]
  = ["CZ"; "US"; "Unknown"].
Proof. reflexivity. Qed.

Example provider_error_ex :
  Edge.provider_error_text 13 None = "No valid phone numbers provided" /\
  Edge.provider_error_text 999 (Some "Teapot") = "SMS API Error: Teapot" /\
  Edge.provider_error_text 999 None = "SMS API Error: 999".
Proof. repeat split. Qed.

Example validRecipients_ex :
  Hook.validRecipients
    [Some "+359888000001"; None; Some ""; Some "   "; Some "null";
     Some "undefined"; Some " +359888000002 "]
  = ["+359888000001"; " +359888000002 "].
Proof. reflexivity. Qed.

Example batches_ex :
  map (@length string) (Hook.batches_from (repeat "x" 250) 0) = [100; 100; 50].
Proof. reflexivity. Qed.

Example token_ex :
  fst (Token.generate Sample.env Sample.world) = inr "A12Z4567".
Proof. reflexivity. Qed.

Example round_ex :
  map Num.round [2.5; 2.25; (-2.5); (-2.75); 45; 0.5; 89.5; 7.25]%float
  = [3; 2; (-2); (-3); 45; 1; 90; 7]%float.
Proof. vm_compute. reflexivity. Qed.

(** ** Computations *)

Section Computations.
Context {A B : Type}.

Lemma returns_ret (a : A) w (Q : A -> World -> Prop) :
  Q a w -> returns (ret a) w Q.
Proof. intros H. exists a, w. split; [reflexivity | exact H]. Qed.

Lemma returns_bind (c : M A) (k : A -> M B) w (Q : B -> World -> Prop) :
  returns c w (fun a w' => returns (k a) w' Q) -> returns (bind c k) w Q.
Proof.
  intros (a & w' & Hc & b & w'' & Hk & HQ).
  exists b, w''. split; [| exact HQ].
  unfold bind. rewrite Hc. exact Hk.
Qed.

Lemma returns_weaken (c : M A) w (P Q : A -> World -> Prop) :
  returns c w P -> (forall a w', P a w' -> Q a w') -> returns c w Q.
Proof.
  intros (a & w' & Hc & HP) HPQ. exists a, w'. split; [exact Hc | auto].
Qed.

Lemma returns_inv (c : M A) w (Q : A -> World -> Prop) a w' :
  returns c w Q -> c w = (inr a, w') -> Q a w'.
Proof.
  intros (a0 & w0 & Hc & HQ) Heq. rewrite Hc in Heq.
  injection Heq as -> ->. exact HQ.
Qed.

End Computations.

Lemma returns_update (f : World -> World) w (Q : unit -> World -> Prop) :
  Q tt (f w) -> returns (update f) w Q.
Proof. intros H. exists tt, (f w). split; [reflexivity | exact H]. Qed.

(** ** Hoare triples *)

Section HoareRules.
Context {A B : Type}.

Lemma hoare_ret (P : World -> Prop) (a : A) Q X :
  (forall w, P w -> Q a w) -> hoare P (ret a) Q X.
Proof. intros H w HP. cbn. auto. Qed.

Lemma hoare_throw (P : World -> Prop) (e : exn) (Q : A -> World -> Prop) X :
  (forall w, P w -> X e w) -> hoare P (throw e) Q X.
Proof. intros H w HP. cbn. auto. Qed.

Lemma hoare_bind (P : World -> Prop) (c : M A) (k : A -> M B) R Q X :
  hoare P c R X -> (forall a, hoare (R a) (k a) Q X) ->
  hoare P (bind c k) Q X.
Proof.
  intros Hc Hk w HP. specialize (Hc w HP). unfold bind.
  destruct (c w) as [[e | a] w']; [exact Hc |].
  apply (Hk a w' Hc).
Qed.

Lemma hoare_try_catch (P : World -> Prop) (c : M A) (h : exn -> M A)
  Q X Y :
  hoare P c Q Y -> (forall e, hoare (Y e) (h e) Q X) ->
  hoare P (try_catch c h) Q X.
Proof.
  intros Hc Hh w HP. specialize (Hc w HP). unfold try_catch.
  destruct (c w) as [[e | a] w']; [| exact Hc].
  apply (Hh e w' Hc).
Qed.

End HoareRules.

Section KeepsRules.
Context {A B : Type}.
Variable I : World -> Prop.

Lemma keeps_ret (a : A) : keeps I (ret a).
Proof. apply hoare_ret. auto. Qed.

Lemma keeps_throw (e : exn) : keeps I (@throw A e).
Proof. apply hoare_throw. auto. Qed.

Lemma keeps_bind (c : M A) (k : A -> M B) :
  keeps I c -> (forall a, keeps I (k a)) -> keeps I (bind c k).
Proof. intros Hc Hk. eapply hoare_bind; [exact Hc | exact Hk]. Qed.

Lemma keeps_try_catch (c : M A) (h : exn -> M A) :
  keeps I c -> (forall e, keeps I (h e)) -> keeps I (try_catch c h).
Proof. intros Hc Hh. eapply hoare_try_catch; [exact Hc | exact Hh]. Qed.

Lemma keeps_forEach {S} (body : S -> A -> M S) l s :
  (forall s x, keeps I (body s x)) -> keeps I (forEach body l s).
Proof.
  intros Hbody. revert s. induction l as [| x l IH]; intros s; simpl.
  - apply hoare_ret. auto.
  - eapply hoare_bind; [apply Hbody |]. intros s'. apply IH.
Qed.

Lemma keeps_snd (c : M A) w : keeps I c -> I w -> I (snd (c w)).
Proof.
  intros H HI. specialize (H w HI). destruct (c w) as [[e | a] w']; exact H.
Qed.

End KeepsRules.

(** ** The database layer *)

Section DbFacts.
Variable E : Env.

(** A request never throws: a failure is a value. *)
Lemma hoare_request {A} (op : nat -> World -> DbResult A * World)
  (P : World -> Prop) (Q : DbResult A -> World -> Prop) X :
  (forall w msg, P w -> db_fault E (db_requests w) = Some msg ->
     Q (DbError msg) (set_db_requests S w)) ->
  (forall w, P w -> db_fault E (db_requests w) = None ->
     Q (fst (op (db_requests w) (set_db_requests S w)))
       (snd (op (db_requests w) (set_db_requests S w)))) ->
  hoare P (Db.request E op) Q X.
Proof.
  intros Hfault Hok w HP. unfold Db.request.
  destruct (db_fault E (db_requests w)) as [msg |] eqn:Hf.
  - apply Hfault; assumption.
  - specialize (Hok w HP Hf).
    destruct (op (db_requests w) (set_db_requests S w)). exact Hok.
Qed.

Lemma quiet_store_blind w0 : store_blind (quiet w0).
Proof. intros w H. split; [| split; [| split]]; intros ?; exact H. Qed.

Section Blind.
Variable I : World -> Prop.
Hypothesis HI : store_blind I.

Lemma blind_request {A} (op : nat -> World -> DbResult A * World) :
  (forall n w, I w -> I (snd (op n w))) -> keeps I (Db.request E op).
Proof.
  intros Hop. apply hoare_request.
  - intros w msg Hw _. apply HI. exact Hw.
  - intros w Hw _. apply Hop. apply HI. exact Hw.
Qed.

Lemma blind_select_campaign_short_id cid :
  keeps I (Db.select_campaign_short_id E cid).
Proof. apply blind_request. auto. Qed.

Lemma blind_select_user_id phone : keeps I (Db.select_user_id E phone).
Proof. apply blind_request. auto. Qed.

Lemma blind_select_users_in phones : keeps I (Db.select_users_in E phones).
Proof. apply blind_request. auto. Qed.

Lemma blind_insert_users rows : keeps I (Db.insert_users E rows).
Proof.
  apply blind_request. intros n w Hw.
  cbv beta zeta. match goal with
  | |- context [Db.add_users ?t ?r] => destruct (Db.add_users t r)
  end; cbn; [apply HI |]; exact Hw.
Qed.

Lemma blind_select_recipient_token cid uid :
  keeps I (Db.select_recipient_token E cid uid).
Proof. apply blind_request. auto. Qed.

Lemma blind_select_recipients_in cid uids :
  keeps I (Db.select_recipients_in E cid uids).
Proof. apply blind_request. auto. Qed.

Lemma blind_insert_recipients rows : keeps I (Db.insert_recipients E rows).
Proof.
  apply blind_request. intros n w Hw.
  cbv beta zeta. match goal with
  | |- context [Db.add_recipients ?t ?r] => destruct (Db.add_recipients t r)
  end; cbn; [apply HI |]; exact Hw.
Qed.

Lemma blind_update_recipient_status cid uids st :
  keeps I (Db.update_recipient_status E cid uids st).
Proof. apply blind_request. intros n w Hw. cbn. apply HI. exact Hw. Qed.

Lemma blind_generate : keeps I (Token.generate E).
Proof. intros w Hw. cbn. apply HI. exact Hw. Qed.

End Blind.
End DbFacts.

(** ** The hook: one recipient *)

Ltac keeps_step :=
  match goal with
  | |- keeps _ (bind _ _) => apply keeps_bind; [| intros ?]
  | |- keeps _ (ret _) => apply keeps_ret
  | |- keeps _ (throw _) => apply keeps_throw
  | |- keeps _ (try_catch _ _) => apply keeps_try_catch; [| intros ?]
  | |- keeps _ (Db.select_campaign_short_id _ _) =>
      apply blind_select_campaign_short_id; assumption
  | |- keeps _ (Db.select_user_id _ _) =>
      apply blind_select_user_id; assumption
  | |- keeps _ (Db.select_users_in _ _) =>
      apply blind_select_users_in; assumption
  | |- keeps _ (Db.insert_users _ _) =>
      apply blind_insert_users; assumption
  | |- keeps _ (Db.select_recipient_token _ _ _) =>
      apply blind_select_recipient_token; assumption
  | |- keeps _ (Db.select_recipients_in _ _ _) =>
      apply blind_select_recipients_in; assumption
  | |- keeps _ (Db.insert_recipients _ _) =>
      apply blind_insert_recipients; assumption
  | |- keeps _ (Db.update_recipient_status _ _ _ _) =>
      apply blind_update_recipient_status; assumption
  | |- keeps _ (Token.generate _) => apply blind_generate; assumption
  | |- keeps _ (match ?x with _ => _ end) => destruct x
  end.

Section HookRecipient.
Variable E : Env.
Variable request : SMSRequest.
Variable hasLinkPlaceholder : bool.

Lemma more_errors_refl r : more_errors r r.
Proof.
  repeat split. exists []. symmetry. apply app_nil_r.
Qed.

Lemma more_errors_trans r1 r2 r3 :
  more_errors r1 r2 -> more_errors r2 r3 -> more_errors r1 r3.
Proof.
  unfold more_errors.
  intros (a1 & a2 & a3 & a4 & a5 & a6 & a7 & a8 & e1 & He1)
         (b1 & b2 & b3 & b4 & b5 & b6 & b7 & b8 & e2 & He2).
  repeat split; try congruence.
  exists (e1 ++ e2). rewrite He2, He1. symmetry. apply app_assoc.
Qed.

Lemma more_errors_push msg r : more_errors r (Hook.push_error msg r).
Proof. repeat split. exists [msg]. reflexivity. Qed.

(** Resolving a recipient sends nothing, reports nothing and logs
    nothing. *)
Lemma resolveToken_blind (I : World -> Prop) phone :
  store_blind I ->
  keeps I (Hook.resolveToken E request hasLinkPlaceholder phone).
Proof.
  intros HI.
  unfold Hook.resolveToken, Hook.findOrCreateUser, Hook.findOrCreateRecipient.
  repeat keeps_step.
Qed.

Lemma processRecipient_blind (I : World -> Prop) st phone :
  store_blind I ->
  keeps I (Hook.processRecipient E request hasLinkPlaceholder st phone).
Proof.
  intros HI. destruct st as [[results brs] bls].
  unfold Hook.processRecipient, Hook.resolveLink. repeat keeps_step.
  apply resolveToken_blind. exact HI.
Qed.

End HookRecipient.

(** ** The database layer: what each request answers *)

Section DbRuns.
Variable E : Env.

Lemma map_singleton {A B} (f : A -> B) (l : list A) (b : B) :
  map f l = [b] -> exists a, l = [a] /\ f a = b.
Proof.
  destruct l as [| a [| a' l]]; simpl; intros H; try discriminate.
  injection H as H. eauto.
Qed.

Lemma single_data {A} (rows : list A) (a : A) :
  Db.single rows = DbData a -> rows = [a].
Proof.
  destruct rows as [| x [| y rows]]; simpl; intros H; try discriminate.
  injection H as ->. reflexivity.
Qed.

Lemma select_user_id_run phone w :
  exists r,
    Db.select_user_id E phone w = (inr r, set_db_requests S w) /\
    forall id, r = DbData id ->
      exists u, filter (Db.user_has_phone phone) (users w) = [u] /\
                user_id u = id.
Proof.
  unfold Db.select_user_id, Db.request.
  destruct (db_fault E (db_requests w)).
  - eexists. split; [reflexivity |]. discriminate.
  - eexists. split; [reflexivity |]. cbn. intros id H.
    apply single_data in H. apply map_singleton in H. exact H.
Qed.

Lemma select_campaign_short_id_run cid w :
  exists r,
    Db.select_campaign_short_id E cid w = (inr r, set_db_requests S w).
Proof.
  unfold Db.select_campaign_short_id, Db.request.
  destruct (db_fault E (db_requests w)); eexists; reflexivity.
Qed.

Lemma select_recipient_token_run cid uid w :
  exists r,
    Db.select_recipient_token E cid uid w = (inr r, set_db_requests S w) /\
    forall tok, r = DbData tok ->
      exists row, filter (Db.recipient_is cid uid) (campaign_recipients w)
                  = [row] /\ unique_token row = tok.
Proof.
  unfold Db.select_recipient_token, Db.request.
  destruct (db_fault E (db_requests w)).
  - eexists. split; [reflexivity |]. discriminate.
  - eexists. split; [reflexivity |]. cbn. intros id H.
    apply single_data in H. apply map_singleton in H. exact H.
Qed.

(** The insert of one user: refused, or the row is appended. *)
Lemma insert_user_run phone ctry st w :
  exists r w',
    Db.insert_users E [(phone, ctry, st)] w = (inr r, w') /\
    campaign_recipients w' = campaign_recipients w /\
    quiet w w' /\ randoms w' = randoms w /\
    ((exists msg, r = DbError msg /\ users w' = users w) \/
     (exists u, r = DbData [(phone, user_id u)] /\ phone_number u = phone /\
        existsb (Db.user_has_phone phone) (users w) = false /\
        users w' = users w ++ [u])).
Proof.
  unfold Db.insert_users, Db.request.
  destruct (db_fault E (db_requests w)) as [msg |].
  - eexists; eexists. split; [reflexivity |]. cbn.
    repeat split. left. eauto.
  - cbn. destruct (existsb (Db.user_has_phone phone) (users w)) eqn:Hex.
    + eexists; eexists. split; [reflexivity |]. cbn.
      repeat split. left. eauto.
    + eexists; eexists. split; [reflexivity |]. cbn.
      repeat split. right. eexists. repeat split; cbn; eauto.
Qed.

(** The insert of one recipient: refused, or the row is appended. *)
Lemma insert_recipient_run row w :
  exists r w',
    Db.insert_recipients E [row] w = (inr r, w') /\
    users w' = users w /\ quiet w w' /\ randoms w' = randoms w /\
    ((exists msg, r = DbError msg /\
        campaign_recipients w' = campaign_recipients w) \/
     (r = DbData tt /\
        existsb (Db.recipient_is (cr_campaign_id row) (cr_user_id row))
          (campaign_recipients w) = false /\
        campaign_recipients w' = campaign_recipients w ++ [row])).
Proof.
  unfold Db.insert_recipients, Db.request.
  destruct (db_fault E (db_requests w)) as [msg |].
  - eexists; eexists. split; [reflexivity |]. cbn.
    repeat split. left. eauto.
  - cbn. destruct (existsb _ (campaign_recipients w)) eqn:Hex.
    + eexists; eexists. split; [reflexivity |]. cbn.
      repeat split. left. eauto.
    + eexists; eexists. split; [reflexivity |]. cbn.
      repeat split. right. repeat split; auto.
Qed.

Lemma update_recipient_status_run cid uid w :
  exists r w',
    Db.update_recipient_status E cid [uid] "sent" w = (inr r, w') /\
    users w' = users w /\ quiet w w' /\ randoms w' = randoms w /\
    (campaign_recipients w' = campaign_recipients w \/
     campaign_recipients w' = map (touch cid uid) (campaign_recipients w)).
Proof.
  unfold Db.update_recipient_status, Db.request.
  destruct (db_fault E (db_requests w)) as [msg |].
  - eexists; eexists. split; [reflexivity |]. cbn. repeat split. left. auto.
  - eexists; eexists. split; [reflexivity |]. cbn. repeat split. right. auto.
Qed.

Lemma generate_run w :
  exists tok,
    Token.generate E w = (inr tok, set_randoms S w) /\ generated tok.
Proof.
  unfold Token.generate. eexists. split; [reflexivity |].
  eexists. reflexivity.
Qed.

End DbRuns.

(** ** The hook: the transition of a resolution *)

Section HookResolution.
Variable E : Env.
Variable request : SMSRequest.
Variable hasLinkPlaceholder : bool.

(** "Find or create user" returns the id of a row that it found or added,
    or throws the error of the insert and leaves the table as it was. *)
Lemma findOrCreateUser_run phone w :
  match Hook.findOrCreateUser E phone w with
  | (inr uid, w') =>
      user_step phone uid (users w) (users w') /\
      campaign_recipients w' = campaign_recipients w
  | (inl e, w') =>
      (exists msg, e = Hook.db_exn E msg) /\
      users w' = users w /\ campaign_recipients w' = campaign_recipients w
  end.
Proof.
  unfold Hook.findOrCreateUser, bind.
  destruct (select_user_id_run E phone w) as (ru & -> & Hru).
  destruct ru as [msg | id].
  - destruct (insert_user_run E phone
                (JS.or_else (detectCountryFromPhone E phone) "Unknown")
                "active" (set_db_requests S w))
      as (ri & w1 & -> & Hrecs & _ & _ & Hcase).
    cbn in Hrecs, Hcase.
    destruct Hcase as [(m & -> & Hsame) | (u & -> & Hph & Hnew & Happ)]; cbn.
    + split; [eauto |]. split; assumption.
    + split; [| exact Hrecs]. apply UserCreated with (u := u); auto.
  - destruct (Hru id eq_refl) as (u & Hu & Hid). cbn.
    split; [| reflexivity]. apply UserFound with (u := u); auto.
Qed.

(** "Find or create campaign recipient" returns the token of a row that
    it found or added, or throws the error of the insert and leaves the
    table as it was. *)
Lemma findOrCreateRecipient_run cid uid w :
  match Hook.findOrCreateRecipient E cid uid w with
  | (inr tok, w') =>
      token_step cid uid tok (campaign_recipients w)
        (campaign_recipients w') /\
      users w' = users w
  | (inl e, w') =>
      (exists msg, e = Hook.db_exn E msg) /\
      users w' = users w /\ campaign_recipients w' = campaign_recipients w
  end.
Proof.
  unfold Hook.findOrCreateRecipient, bind.
  destruct (select_recipient_token_run E cid uid w) as (rt & -> & Hrt).
  destruct rt as [msg | tok].
  - destruct (generate_run E (set_db_requests S w)) as (tok & -> & Hgen).
    destruct (insert_recipient_run E
                {| cr_campaign_id := cid; cr_user_id := uid;
                   cr_status := "sent"; unique_token := tok |}
                (set_randoms S (set_db_requests S w)))
      as (ri & w2 & -> & Hus & _ & _ & Hcase).
    cbn in Hus, Hcase.
    destruct Hcase as [(m & -> & Hsame) | (-> & Hnew & Happ)]; cbn.
    + split; [eauto |]. split; assumption.
    + split; [| exact Hus]. apply TokenCreated; auto.
  - destruct (Hrt tok eq_refl) as (row & Hrow & Htok).
    destruct (update_recipient_status_run E cid uid (set_db_requests S w))
      as (r2 & w2 & -> & Hus & _ & _ & Hcase).
    cbn in Hus, Hcase. cbn.
    split; [| exact Hus]. apply TokenFound with (r := row); auto.
Qed.

(** With a campaign, a resolution that returns has found or created the
    user and the recipient; one that throws has thrown a database error
    and has added at most the user. *)
Lemma resolveToken_campaign cid phone w :
  JS.nonempty (campaignId request) = Some cid ->
  match Hook.resolveToken E request hasLinkPlaceholder phone w with
  | (inr tok, w') =>
      exists uid,
        user_step phone uid (users w) (users w') /\
        token_step cid uid tok (campaign_recipients w)
          (campaign_recipients w')
  | (inl e, w') =>
      (exists msg, e = Hook.db_exn E msg) /\
      campaign_recipients w' = campaign_recipients w /\
      (users w' = users w \/
       exists uid, user_step phone uid (users w) (users w'))
  end.
Proof.
  intros Hcid. unfold Hook.resolveToken. rewrite Hcid. unfold bind.
  destruct (select_campaign_short_id_run E cid w) as (r0 & -> ).
  pose proof (findOrCreateUser_run phone (set_db_requests S w)) as Hu.
  destruct (Hook.findOrCreateUser E phone (set_db_requests S w))
    as [[e | uid] w1]; cbn in Hu.
  - destruct Hu as (Hmsg & Hus & Hrecs). auto.
  - destruct Hu as (Hstep & Hrecs).
    pose proof (findOrCreateRecipient_run cid uid w1) as Hr.
    destruct (Hook.findOrCreateRecipient E cid uid w1) as [[e | tok] w2].
    + destruct Hr as (Hmsg & Hus & Hrecs2).
      split; [exact Hmsg |]. split; [congruence |]. right. exists uid.
      rewrite Hus. exact Hstep.
    + destruct Hr as (Hstep2 & Hus). exists uid.
      rewrite Hus, <- Hrecs. auto.
Qed.

(** Without a campaign the store is not touched, and the token is a fresh
    one when the message has the placeholder. *)
Lemma resolveToken_bare phone w :
  JS.nonempty (campaignId request) = None ->
  exists tok w',
    Hook.resolveToken E request hasLinkPlaceholder phone w = (inr tok, w') /\
    users w' = users w /\ campaign_recipients w' = campaign_recipients w /\
    (generated tok \/ tok = "").
Proof.
  intros Hcid. unfold Hook.resolveToken. rewrite Hcid.
  destruct hasLinkPlaceholder.
  - destruct (generate_run E w) as (tok & -> & Hgen).
    exists tok. eexists. split; [reflexivity |]. cbn. auto.
  - exists "". eexists. split; [reflexivity |]. auto.
Qed.

End HookResolution.

(** ** Links and segments *)

Lemma has_char_app c s t :
  has_char c (s ++ t) = has_char c s || has_char c t.
Proof.
  induction s as [| d s IH]; simpl; [reflexivity |].
  rewrite IH. apply orb_assoc.
Qed.

Lemma digit36_not_pipe d :
  Ascii.eqb (JS.upper (Token.digit36 d)) "|" = false.
Proof.
  unfold Token.digit36.
  pose proof (Nat.mod_upper_bound d 36 ltac:(discriminate)) as Hlt.
  generalize dependent (d mod 36). intros k Hlt.
  do 36 (destruct k as [| k]; [reflexivity |]). lia.
Qed.

(** A generated token is made of digits and upper-case letters. *)
Lemma generated_pipe_free tok : generated tok -> pipe_free tok.
Proof.
  intros (ds & ->). unfold pipe_free.
  induction ds as [| d ds IH]; simpl; [reflexivity |].
  rewrite digit36_not_pipe. exact IH.
Qed.

Lemma link_pipe_free E h tok :
  pipe_free (origin E) -> pipe_free tok -> pipe_free (Hook.link_of E h tok).
Proof.
  unfold Hook.link_of, pipe_free. intros Ho Ht.
  destruct (h && negb (tok =? "")); [| reflexivity].
  rewrite !has_char_app, Ho, Ht. reflexivity.
Qed.

(** Splitting at ["|"] undoes joining with ["|"], as long as no joined
    string holds the separator and there is at least one of them. *)
Lemma split_pipe_free s : pipe_free s -> JS.split "|" s = [s].
Proof.
  unfold pipe_free. induction s as [| d s IH]; simpl; [reflexivity |].
  intros H. apply orb_false_iff in H as [Hd Hs].
  rewrite Hd, (IH Hs). reflexivity.
Qed.

Lemma split_app s t :
  pipe_free s ->
  JS.split "|" (s ++ String "|" t) = s :: JS.split "|" t.
Proof.
  unfold pipe_free. induction s as [| d s IH]; simpl; [reflexivity |].
  intros H. apply orb_false_iff in H as [Hd Hs].
  rewrite Hd, (IH Hs). reflexivity.
Qed.

Lemma split_join (l : list string) :
  l <> [] -> Forall pipe_free l -> JS.split "|" (JS.join "|" l) = l.
Proof.
  induction l as [| x l IH]; [congruence |].
  intros _ Hall. inversion Hall as [| ? ? Hx Hl]; subst.
  destruct l as [| y l].
  - simpl. apply split_pipe_free. exact Hx.
  - change (JS.join "|" (x :: y :: l))
      with (x ++ String "|" (JS.join "|" (y :: l)))%string.
    rewrite split_app by exact Hx. f_equal. apply IH; [discriminate | exact Hl].
Qed.

(** ** The store under a resolution *)

Section StoreSteps.
Variables (phone uid cid tok : string).

Lemma user_step_incl us us' :
  user_step phone uid us us' -> incl us us'.
Proof.
  intros [u _ _ -> | u _ _ _ ->]; [apply incl_refl |].
  apply incl_appl, incl_refl.
Qed.

Lemma filter_singleton_in {A} (f : A -> bool) l a :
  filter f l = [a] -> In a l /\ f a = true.
Proof.
  intros H. apply filter_In. rewrite H. left. reflexivity.
Qed.

Lemma user_step_has us us' :
  user_step phone uid us us' ->
  exists u, In u us' /\ phone_number u = phone /\ user_id u = uid.
Proof.
  intros [u Hf Hid -> | u _ Hph Hid ->].
  - apply filter_singleton_in in Hf as [Hin Hp].
    exists u. repeat split; auto.
    unfold Db.user_has_phone in Hp. apply String.eqb_eq. exact Hp.
  - exists u. repeat split; auto. apply in_or_app. right. left. reflexivity.
Qed.

Lemma touch_key c u r :
  cr_campaign_id (touch c u r) = cr_campaign_id r /\
  cr_user_id (touch c u r) = cr_user_id r /\
  unique_token (touch c u r) = unique_token r.
Proof. unfold touch. destruct (_ && _); auto. Qed.

(** A row stays on record through a recipient step, up to its status. *)
Lemma token_step_keeps rs rs' (r : RecipientRow) :
  token_step cid uid tok rs rs' -> In r rs ->
  exists r', In r' rs' /\ cr_campaign_id r' = cr_campaign_id r /\
             cr_user_id r' = cr_user_id r /\
             unique_token r' = unique_token r.
Proof.
  intros [r0 _ _ [-> | ->] | _ _ ->] Hin.
  - exists r. auto.
  - exists (touch cid uid r). split; [apply in_map; exact Hin |].
    apply touch_key.
  - exists r. split; [apply in_or_app; left; exact Hin |]. auto.
Qed.

Lemma token_step_has rs rs' :
  token_step cid uid tok rs rs' ->
  exists r, In r rs' /\ cr_campaign_id r = cid /\ cr_user_id r = uid /\
            unique_token r = tok.
Proof.
  intros [r0 Hf Htok Hcase | _ _ ->].
  - apply filter_singleton_in in Hf as [Hin Hp].
    unfold Db.recipient_is in Hp. apply andb_true_iff in Hp as [Hc Hu].
    apply String.eqb_eq in Hc, Hu.
    destruct Hcase as [-> | ->].
    + exists r0. auto.
    + exists (touch cid uid r0). split; [apply in_map; exact Hin |].
      destruct (touch_key cid uid r0) as (-> & -> & ->). auto.
  - eexists. split; [apply in_or_app; right; left; reflexivity |]. auto.
Qed.

Lemma token_step_pipe_free rs rs' :
  token_step cid uid tok rs rs' ->
  Forall (fun r => pipe_free (unique_token r)) rs ->
  Forall (fun r => pipe_free (unique_token r)) rs' /\ pipe_free tok.
Proof.
  intros [r0 Hf Htok Hcase | _ Hgen ->] Hall.
  - apply filter_singleton_in in Hf as [Hin _].
    rewrite Forall_forall in Hall. split.
    + destruct Hcase as [-> | ->]; apply Forall_forall; [exact Hall |].
      intros r Hr. apply in_map_iff in Hr as (r1 & <- & Hr1).
      destruct (touch_key cid uid r1) as (_ & _ & ->). auto.
    + rewrite <- Htok. auto.
  - pose proof (generated_pipe_free Hgen) as Hpf. split; [| exact Hpf].
    apply Forall_app. split; [exact Hall |]. constructor; [exact Hpf | constructor].
Qed.

End StoreSteps.

(** ** The hook: the recipients of a batch *)

Lemma store_grows_refl w : store_grows w w.
Proof. intros cid phone tok H. exact H. Qed.

Lemma store_grows_trans w1 w2 w3 :
  store_grows w1 w2 -> store_grows w2 w3 -> store_grows w1 w3.
Proof. intros H12 H23 cid phone tok H. apply H23, H12, H. Qed.

Lemma store_grows_intro w w' :
  incl (users w) (users w') ->
  (forall r, In r (campaign_recipients w) ->
     exists r', In r' (campaign_recipients w') /\
                cr_campaign_id r' = cr_campaign_id r /\
                cr_user_id r' = cr_user_id r /\
                unique_token r' = unique_token r) ->
  store_grows w w'.
Proof.
  intros Hus Hrs cid phone tok (u & r & Hu & Hph & Hr & Hc & Hid & Htok).
  destruct (Hrs r Hr) as (r' & Hr' & Hc' & Hid' & Htok').
  exists u, r'. repeat split; auto; congruence.
Qed.

Lemma quiet_refl w : quiet w w.
Proof. repeat split. Qed.

Lemma quiet_trans w1 w2 w3 : quiet w1 w2 -> quiet w2 w3 -> quiet w1 w3.
Proof.
  unfold quiet. intros (a1 & a2 & a3 & a4 & a5) (b1 & b2 & b3 & b4 & b5).
  repeat split; congruence.
Qed.

Lemma link_for_grows E request w w' phone link :
  store_grows w w' -> link_for E request w phone link ->
  link_for E request w' phone link.
Proof.
  intros Hg [-> | (tok & -> & Hrec)]; [left; reflexivity |].
  right. exists tok. split; [reflexivity |]. intros cid Hcid.
  apply Hg, Hrec, Hcid.
Qed.

Section HookBatch.
Variable E : Env.
Variable request : SMSRequest.
Variable hasLinkPlaceholder : bool.

Lemma link_of_for w phone tok :
  (forall cid, JS.nonempty (campaignId request) = Some cid ->
     token_on_record w cid phone tok) ->
  link_for E request w phone (Hook.link_of E hasLinkPlaceholder tok).
Proof.
  intros H. unfold Hook.link_of.
  destruct (hasLinkPlaceholder && negb (tok =? "")); [| left; reflexivity].
  right. exists tok. split; [reflexivity | exact H].
Qed.

(** One recipient: pushed to the batch with a link of its own, whatever
    the resolution did. *)
Lemma processRecipient_spec results brs bls phone w :
  returns
    (Hook.processRecipient E request hasLinkPlaceholder (results, brs, bls)
       phone) w
    (recipients_post E request results brs bls [phone] w).
Proof.
  pose proof (@processRecipient_blind E request hasLinkPlaceholder
                (quiet w) (results, brs, bls) phone
                (@quiet_store_blind w) w (quiet_refl w)) as Hq.
  unfold returns, Hook.processRecipient, Hook.resolveLink in *.
  unfold try_catch, bind, ret in *.
  set (p := normalizePhoneNumber E phone) in *.
  destruct (JS.nonempty (campaignId request)) as [cid |] eqn:Hcid.
  - pose proof (@resolveToken_campaign E request hasLinkPlaceholder cid p w
                  Hcid) as Hres.
    destruct (Hook.resolveToken E request hasLinkPlaceholder p w)
      as [[e | tok] w1].
    + destruct Hres as (_ & Hrecs & Hus).
      eexists; eexists; split; [reflexivity |]. cbn.
      split; [apply more_errors_push |]. split; [reflexivity |].
      split; [exact Hq |].
      assert (Hg : store_grows w w1).
      { apply store_grows_intro.
        - destruct Hus as [-> | (uid & Hstep)]; [apply incl_refl |].
          eapply user_step_incl; eassumption.
        - rewrite Hrecs. intros r Hr. exists r. auto. }
      split; [exact Hg |].
      exists [""]. split; [reflexivity |].
      split; [repeat constructor; left; reflexivity |].
      intros _ Hpf. split; [| repeat constructor].
      unfold tokens_pipe_free in *. rewrite Hrecs. exact Hpf.
    + destruct Hres as (uid & Hustep & Htstep).
      eexists; eexists; split; [reflexivity |]. cbn.
      split; [apply more_errors_refl |]. split; [reflexivity |].
      split; [exact Hq |].
      assert (Hg : store_grows w w1).
      { apply store_grows_intro.
        - eapply user_step_incl; eassumption.
        - intros r Hr. eapply token_step_keeps; eassumption. }
      split; [exact Hg |].
      eexists. split; [reflexivity |]. split.
      * constructor; [| constructor]. apply link_of_for.
        intros cid' Hcid'. assert (cid' = cid) as -> by congruence.
        destruct (user_step_has Hustep) as (u & Hu & Hph & Hid).
        destruct (token_step_has Htstep) as (r & Hr & Hc & Hru & Htok).
        exists u, r. repeat split; auto. congruence.
      * intros Ho Hpf.
        destruct (token_step_pipe_free Htstep Hpf) as (Hpf' & Htok).
        split; [exact Hpf' |]. constructor; [| constructor].
        apply link_pipe_free; assumption.
  - destruct (@resolveToken_bare E request hasLinkPlaceholder p w Hcid)
      as (tok & w1 & Hrun & Hus & Hrecs & Hgen).
    rewrite Hrun in *. eexists; eexists; split; [reflexivity |]. cbn.
    split; [apply more_errors_refl |]. split; [reflexivity |].
    split; [exact Hq |].
    assert (Hg : store_grows w w1).
    { apply store_grows_intro.
      - rewrite Hus. apply incl_refl.
      - rewrite Hrecs. intros r Hr. exists r. auto. }
    split; [exact Hg |].
    eexists. split; [reflexivity |]. split.
    + constructor; [| constructor]. apply link_of_for.
      intros cid Hcid'. congruence.
    + intros Ho Hpf. split.
      * unfold tokens_pipe_free in *. rewrite Hrecs. exact Hpf.
      * constructor; [| constructor]. apply link_pipe_free; [exact Ho |].
        destruct Hgen as [Hgen | ->];
          [apply generated_pipe_free; exact Hgen | reflexivity].
Qed.

(** The whole loop: every recipient of the batch is pushed, in order,
    each with one link. *)
Lemma recipients_loop_spec phones :
  forall results brs bls w,
    returns
      (forEach (Hook.processRecipient E request hasLinkPlaceholder) phones
         (results, brs, bls)) w
      (recipients_post E request results brs bls phones w).
Proof.
  induction phones as [| phone phones IH]; intros results brs bls w.
  - simpl. apply returns_ret. cbn.
    split; [apply more_errors_refl |].
    split; [symmetry; apply app_nil_r |].
    split; [apply quiet_refl |]. split; [apply store_grows_refl |].
    exists []. split; [symmetry; apply app_nil_r |].
    split; [constructor |]. intros _ H. split; [exact H | constructor].
  - simpl. apply returns_bind.
    eapply returns_weaken; [apply processRecipient_spec |].
    intros [[results1 brs1] bls1] w1 H1. cbn in H1.
    destruct H1 as (He1 & -> & Hq1 & Hg1 & l1 & -> & Hl1 & Hp1).
    eapply returns_weaken; [apply IH |].
    intros [[results2 brs2] bls2] w2 H2. cbn in H2. cbn.
    destruct H2 as (He2 & -> & Hq2 & Hg2 & l2 & -> & Hl2 & Hp2).
    split; [eapply more_errors_trans; eassumption |].
    split; [rewrite <- app_assoc; reflexivity |].
    split; [eapply quiet_trans; eassumption |].
    split; [eapply store_grows_trans; eassumption |].
    exists (l1 ++ l2). split; [rewrite <- app_assoc; reflexivity |].
    split.
    + inversion Hl1 as [| ? link ? ? Hlink Hnil]; subst.
      inversion Hnil; subst. cbn. constructor; [| exact Hl2].
      eapply link_for_grows; eassumption.
    + intros Ho Hpf. destruct (Hp1 Ho Hpf) as (Hpf1 & Hf1).
      destruct (Hp2 Ho Hpf1) as (Hpf2 & Hf2).
      split; [exact Hpf2 |]. apply Forall_app. split; assumption.
Qed.

(** Sending a batch is one call; its reply is absorbed, an exception
    included. *)
Lemma sendBatch_run batchIndex results brs bls w :
  let body := Hook.batch_body request hasLinkPlaceholder brs bls in
  Hook.sendBatch E request hasLinkPlaceholder batchIndex (results, brs, bls) w
  = (inr (Hook.absorb batchIndex
            (invoke_reply E (length (invocations w)) body) results),
     set_invocations (fun l => l ++ [body]) w).
Proof.
  cbn. unfold Hook.sendBatch, try_catch, bind, Hook.invoke, ret.
  destruct (invoke_reply E _ _); reflexivity.
Qed.

Lemma absorb_credited batchIndex reply results :
  credited (sent_by reply) results (Hook.absorb batchIndex reply results).
Proof.
  unfold credited, Hook.absorb, sent_by.
  destruct reply as [e | err | data]; cbn.
  - rewrite Z.add_0_r. repeat split. eexists. reflexivity.
  - rewrite Z.add_0_r. repeat split. eexists. reflexivity.
  - destruct (success data); cbn.
    + repeat split. exists []. symmetry. apply app_nil_r.
    + destruct (invalidNumbers data); cbn; rewrite Z.add_0_r;
        repeat split; eexists; reflexivity.
Qed.

Lemma more_errors_credited r r' : more_errors r r' -> credited 0 r r'.
Proof.
  unfold more_errors, credited.
  intros (a1 & a2 & a3 & a4 & a5 & a6 & a7 & a8 & a9).
  rewrite Z.add_0_r. repeat split; assumption.
Qed.

Lemma credited_trans n m r1 r2 r3 :
  credited n r1 r2 -> credited m r2 r3 -> credited (n + m) r1 r3.
Proof.
  unfold credited.
  intros (a1 & a2 & a3 & a4 & e1 & He1) (b1 & b2 & b3 & b4 & e2 & He2).
  repeat split; try congruence.
  - rewrite b4, a4. apply eq_sym, Z.add_assoc.
  - exists (e1 ++ e2). rewrite He2, He1. symmetry. apply app_assoc.
Qed.

Lemma call_of_weaken (J J' : Prop) w w' batch body :
  (J' -> J) -> store_grows w w' ->
  call_of E request hasLinkPlaceholder J w batch body ->
  call_of E request hasLinkPlaceholder J' w' batch body.
Proof.
  intros HJ Hg (links & Hbody & Hl & Hpf).
  exists links. split; [exact Hbody |]. split; [| auto].
  eapply Forall2_impl; [| exact Hl].
  intros phone link. apply link_for_grows. exact Hg.
Qed.

(** One batch: one call for all its recipients, then one progress
    report. *)
Lemma processBatch_spec total batchIndex results batch w :
  returns
    (Hook.processBatch E request hasLinkPlaceholder total batchIndex results
       batch) w
    (batches_post E request hasLinkPlaceholder total batchIndex [batch]
       results w).
Proof.
  unfold Hook.processBatch. apply returns_bind.
  eapply returns_weaken; [apply recipients_loop_spec |].
  intros [[results1 brs1] bls1] w1 H1. cbn in H1.
  destruct H1 as (He1 & -> & Hq1 & Hg1 & links & -> & Hl1 & Hp1).
  destruct Hq1 as (Hinv & Hprog & Hsend & Hfetch & Hbulk).
  apply returns_bind. unfold returns. rewrite sendBatch_run.
  eexists; eexists; split; [reflexivity |].
  apply returns_bind. apply returns_update. apply returns_ret.
  unfold batches_post. cbn.
  eexists. split; [rewrite Hinv; reflexivity |].
  split.
  { constructor; [| constructor]. exists links. split; [reflexivity |].
    split; [exact Hl1 |]. intros [Ho Hpf]. apply Hp1; assumption. }
  split; [rewrite Hprog; reflexivity |].
  split; [exact Hsend |]. split; [exact Hfetch |]. split; [exact Hbulk |].
  split; [exact Hg1 |].
  split; [intros Ho Hpf; apply Hp1; assumption |].
  cbn. rewrite Z.add_0_r, <- Hinv.
  replace (sent_by _) with (0 + sent_by
    (invoke_reply E (length (invocations w1))
       (Hook.batch_body request hasLinkPlaceholder
          (map (normalizePhoneNumber E) batch) links)))%Z by apply Z.add_0_l.
  eapply credited_trans; [apply more_errors_credited; exact He1 |].
  apply absorb_credited.
Qed.

(** All batches: one call per batch, in order. *)
Lemma batchLoop_spec total batches :
  forall batchIndex results w,
    returns
      (Hook.batchLoop E request hasLinkPlaceholder total batchIndex batches
         results) w
      (batches_post E request hasLinkPlaceholder total batchIndex batches
         results w).
Proof.
  induction batches as [| batch batches IH]; intros batchIndex results w.
  - simpl. apply returns_ret. exists []. cbn.
    rewrite !app_nil_r.
    split; [reflexivity |]. split; [constructor |].
    split; [reflexivity |]. split; [reflexivity |].
    split; [reflexivity |]. split; [reflexivity |].
    split; [apply store_grows_refl |]. split; [auto |].
    apply more_errors_credited, more_errors_refl.
  - simpl. apply returns_bind.
    eapply returns_weaken; [apply processBatch_spec |].
    intros results1 w1 (calls1 & Hinv1 & Hc1 & Hprog1 & Hs1 & Hf1 & Hb1 &
                        Hg1 & Hpf1 & Hcr1).
    eapply returns_weaken; [apply IH |].
    intros results2 w2 (calls2 & Hinv2 & Hc2 & Hprog2 & Hs2 & Hf2 & Hb2 &
                        Hg2 & Hpf2 & Hcr2).
    inversion Hc1 as [| ? body ? ? Hbody Hnil]; subst.
    inversion Hnil; subst.
    exists (body :: calls2).
    split; [rewrite Hinv2, Hinv1, <- app_assoc; reflexivity |].
    split.
    { constructor.
      - eapply call_of_weaken; [| exact Hg2 | exact Hbody]. auto.
      - eapply Forall2_impl; [| exact Hc2].
        intros b c. apply call_of_weaken; [| apply store_grows_refl].
        intros [Ho Hpf]. split; [exact Ho | apply Hpf1; assumption]. }
    split; [rewrite Hprog2, Hprog1, <- app_assoc; reflexivity |].
    split; [congruence |]. split; [congruence |]. split; [congruence |].
    split; [eapply store_grows_trans; eassumption |].
    split; [intros Ho Hpf; apply Hpf2; [| apply Hpf1]; assumption |].
    cbn [sent_total]. cbn [sent_total] in Hcr1. rewrite Z.add_0_r in Hcr1.
    rewrite Hinv1, length_app, Nat.add_1_r in Hcr2.
    eapply credited_trans; eassumption.
Qed.

End HookBatch.

(** ** Batches *)

Lemma ceil_div_step n :
  0 < n -> ceil_div n 100 = S (ceil_div (n - 100) 100).
Proof.
  intros Hn. unfold ceil_div. change (100 - 1) with 99.
  destruct (le_lt_dec 100 n) as [Hge | Hlt].
  - replace (n + 99) with ((n - 100 + 99) + 1 * 100) by lia.
    rewrite Nat.div_add by discriminate. lia.
  - replace (n - 100) with 0 by lia.
    replace (n + 99) with ((n - 1) + 1 * 100) by lia.
    rewrite Nat.div_add by discriminate.
    rewrite (Nat.div_small (n - 1)) by lia. reflexivity.
Qed.

Lemma batches_from_length v i :
  length (Hook.batches_from v i) = ceil_div (length v - i) Hook.batchSize.
Proof.
  funelim (Hook.batches_from v i).
  - cbn [length]. rewrite H. unfold Hook.batchSize.
    rewrite (@ceil_div_step (length v - i)) by lia.
    f_equal. f_equal. lia.
  - replace (length v - i) with 0 by lia. reflexivity.
Qed.

Lemma batches_from_concat v i :
  concat (Hook.batches_from v i) = skipn i v.
Proof.
  funelim (Hook.batches_from v i).
  - simpl. rewrite H. unfold Hook.slice.
    replace (i + Hook.batchSize - i) with Hook.batchSize by lia.
    rewrite Nat.add_comm, <- skipn_skipn. apply firstn_skipn.
  - symmetry. apply skipn_all2. lia.
Qed.

Lemma batches_from_sizes v i :
  Forall (fun b => 0 < length b <= Hook.batchSize) (Hook.batches_from v i).
Proof.
  funelim (Hook.batches_from v i).
  - constructor; [| exact H]. unfold Hook.slice.
    replace (i + Hook.batchSize - i) with Hook.batchSize by lia.
    rewrite length_firstn, length_skipn. unfold Hook.batchSize. lia.
  - constructor.
Qed.

(** ** The hook: the personalized path *)

Section HookPersonalized.
Variable E : Env.

(** Logging never throws; it appends one row, or nothing when the insert
    fails on the way. *)
Lemma logSMSCampaign_run type content rc sc status campaign w :
  exists w',
    Hook.logSMSCampaign E type content rc sc status campaign w = (inr tt, w') /\
    invocations w' = invocations w /\ progress w' = progress w /\
    sending w' = sending w /\ fetches w' = fetches w /\
    users w' = users w /\ campaign_recipients w' = campaign_recipients w /\
    bulk_messages w' =
      bulk_messages w ++
      match db_fault E (db_requests w) with
      | Some _ => []
      | None => [{| bm_type := type; bm_content := content;
                    recipient_count := rc; sent_count := sc;
                    bm_status := status;
                    bm_campaign_id := JS.nonempty campaign |}]
      end.
Proof.
  unfold Hook.logSMSCampaign, try_catch, bind, Db.insert_bulk_message,
    Db.request, ret.
  destruct (db_fault E (db_requests w)); cbn.
  - eexists. split; [reflexivity |]. rewrite app_nil_r. repeat split.
  - eexists. split; [reflexivity |]. repeat split.
Qed.

(** The personalized path never throws.  Its batches leave
    [batches_post]; then come the last progress report, the verdict and
    at most one row of the log. *)
Lemma sendPersonalized_spec request valid hasLinkPlaceholder w :
  let batches := Hook.batches_from valid 0 in
  exists looped w1 w',
    Hook.sendPersonalized E request valid hasLinkPlaceholder w
    = (inr (Hook.to_response (Hook.determine_success looped)), w') /\
    batches_post E request hasLinkPlaceholder (length batches) 0 batches
      (Hook.initial_results (length valid)) w looped w1 /\
    invocations w' = invocations w1 /\
    progress w' = progress w1 ++ [100%float] /\
    sending w' = sending w1 /\ fetches w' = fetches w1 /\
    users w' = users w1 /\ campaign_recipients w' = campaign_recipients w1 /\
    bulk_messages w' =
      bulk_messages w1 ++
      if Hook.r_success (Hook.determine_success looped) &&
         (0 <? Hook.r_sentCount (Hook.determine_success looped))%Z
      then
        match db_fault E (db_requests w1) with
        | Some _ => []
        | None =>
            [{| bm_type := "sms"; bm_content := message request;
                recipient_count := Z.of_nat (length valid);
                sent_count := Hook.r_sentCount (Hook.determine_success looped);
                bm_status := "completed";
                bm_campaign_id := JS.nonempty (campaignId request) |}]
        end
      else [].
Proof.
  intros batches. unfold Hook.sendPersonalized. fold batches.
  destruct (@batchLoop_spec E request hasLinkPlaceholder (length batches)
              batches 0 (Hook.initial_results (length valid)) w)
    as (looped & w1 & Hrun & Hpost).
  exists looped, w1. unfold bind at 1. rewrite Hrun.
  unfold bind at 1. unfold Hook.setProgress at 1, update at 1.
  set (w2 := set_progress (fun l => l ++ [100%float]) w1).
  unfold bind.
  destruct (Hook.r_success (Hook.determine_success looped) &&
            (0 <? Hook.r_sentCount (Hook.determine_success looped))%Z).
  - destruct (@logSMSCampaign_run "sms" (message request)
                (Z.of_nat (length valid))
                (Hook.r_sentCount (Hook.determine_success looped))
                "completed" (campaignId request) w2)
      as (w' & Hlog & H1 & H2 & H3 & H4 & H5 & H6 & H7).
    exists w'. rewrite Hlog. split; [reflexivity |].
    split; [exact Hpost |]. repeat split; assumption.
  - exists w2. split; [reflexivity |]. split; [exact Hpost |].
    cbn. rewrite app_nil_r. repeat split.
Qed.

End HookPersonalized.

(** ** The hook: [sendSMS] *)

Section HookSend.
Variable E : Env.

(** [sendSMS] is its [try] body between the two [setSending], with an
    exception turned into a failure result. *)
Lemma sendSMS_run request w :
  Hook.sendSMS E request w =
  match Hook.sendSMS_try E request (started w) with
  | (inl e, w') =>
      (inr (failure (message_of e "Unknown error occurred")),
       set_sending (fun l => l ++ [false]) w')
  | (inr r, w') => (inr r, set_sending (fun l => l ++ [false]) w')
  end.
Proof.
  unfold Hook.sendSMS, bind, finally, try_catch, Hook.setSending,
    Hook.setProgress, update, ret, started.
  destruct (Hook.sendSMS_try E request _) as [[e | r] w']; reflexivity.
Qed.

(** With a valid recipient and a campaign or a placeholder, [sendSMS]
    takes the personalized path. *)
Lemma sendSMS_try_personalized request rs w :
  recipients request = Some rs ->
  Hook.validRecipients rs <> [] ->
  JS.truthy (campaignId request) || JS.includes (message request) "{{ link }}"
  = true ->
  Hook.sendSMS_try E request w =
  Hook.sendPersonalized E request (Hook.validRecipients rs)
    (JS.includes (message request) "{{ link }}") w.
Proof.
  intros Hrs Hvalid Hpath. unfold Hook.sendSMS_try. rewrite Hrs.
  destruct rs as [| p rs]; [contradiction Hvalid; reflexivity |].
  destruct (Hook.validRecipients (p :: rs)) as [| v valid] eqn:Hv;
    [contradiction Hvalid; reflexivity |].
  destruct (JS.truthy (campaignId request)); cbn in Hpath |- *.
  - reflexivity.
  - rewrite Hpath. reflexivity.
Qed.

End HookSend.

(** ** Results about [sendSMS] *)

(** C10: for every request and every behaviour of the store, the gateway
    and the random generator, [sendSMS] returns a result object and never
    throws to its caller; when the body of its [try] throws, the result
    has [success = false] and carries the message of the exception (or
    ["Unknown error occurred"] when the thrown value is not an [Error]). *)
Theorem sendSMS_never_throws (E : Env) (request : SMSRequest) (w : World) :
  exists r w',
    Hook.sendSMS E request w = (inr r, w') /\
    match fst (Hook.sendSMS_try E request (started w)) with
    | inl e =>
        r = failure (message_of e "Unknown error occurred") /\
        success r = false /\
        error r = Some (message_of e "Unknown error occurred")
    | inr r0 => r = r0
    end.
Proof.
  rewrite sendSMS_run.
  destruct (Hook.sendSMS_try E request (started w)) as [[e | r] w'];
    eexists; eexists; (split; [reflexivity |]); cbn; auto.
Qed.

(** The verdict on the personalized path, from what the batches left. *)
Lemma verdict_of_credit total n looped :
  credited n (Hook.initial_results total) looped ->
  let r := Hook.to_response (Hook.determine_success looped) in
  sentCount r = Some n /\
  errors r = Some (Hook.r_errors looped) /\
  success r = negb (n =? 0)%Z /\
  error r =
    (if (n =? 0)%Z
     then Some (hd "No messages were sent successfully" (Hook.r_errors looped))
     else None).
Proof.
  intros (Hs & He & _ & Hn & _). cbn in Hs, He, Hn.
  unfold Hook.determine_success. rewrite Hn.
  destruct (n =? 0)%Z eqn:Hz; cbn.
  - apply Z.eqb_eq in Hz. subst n.
    split; [congruence |]. split; [reflexivity |]. split; [reflexivity |].
    unfold Hook.first_error. destruct (Hook.r_errors looped); reflexivity.
  - split; [congruence |]. split; [reflexivity |].
    split; [exact Hs | congruence].
Qed.

(** C2, as amended: on the personalized path the result has
    [success = false] exactly when the [sentCount] accumulated over the
    calls of all batches is [0], and then [error] is the first recorded
    error, or the generic message when none was recorded; any other
    accumulated [sentCount] gives [success = true], whatever errors were
    recorded. *)
Theorem personalized_success_iff_sent (E : Env) (request : SMSRequest)
  (rs : list (option string)) (w : World) :
  recipients request = Some rs ->
  Hook.validRecipients rs <> [] ->
  JS.truthy (campaignId request) || JS.includes (message request) "{{ link }}"
  = true ->
  exists r w' calls n errs,
    Hook.sendSMS E request w = (inr r, w') /\
    invocations w' = invocations w ++ calls /\
    n = sent_total E (length (invocations w)) calls /\
    sentCount r = Some n /\
    errors r = Some errs /\
    success r = negb (n =? 0)%Z /\
    error r =
      (if (n =? 0)%Z
       then Some (hd "No messages were sent successfully" errs)
       else None).
Proof.
  intros Hrs Hvalid Hpath. rewrite sendSMS_run.
  rewrite (sendSMS_try_personalized E _ _ Hrs Hvalid Hpath).
  destruct (sendPersonalized_spec E request (Hook.validRecipients rs)
              (JS.includes (message request) "{{ link }}") (started w))
    as (looped & w1 & w' & -> & Hpost & Hinv & _).
  destruct Hpost as (calls & Hcalls & _ & _ & _ & _ & _ & _ & _ & Hcr).
  cbn in Hcalls, Hcr.
  destruct (verdict_of_credit Hcr) as (H1 & H2 & H3 & H4).
  eexists; eexists; exists calls; eexists; eexists.
  split; [reflexivity |]. cbn.
  split; [rewrite Hinv; exact Hcalls |].
  split; [reflexivity |].
  exact (conj H1 (conj H2 (conj H3 H4))).
Qed.

Lemma store_grows_same w w' :
  users w' = users w -> campaign_recipients w' = campaign_recipients w ->
  store_grows w w'.
Proof.
  intros Hu Hr. apply store_grows_intro.
  - rewrite Hu. apply incl_refl.
  - rewrite Hr. intros r Hin. exists r. auto.
Qed.

Lemma Forall2_length_eq {A B} (R : A -> B -> Prop) l l' :
  Forall2 R l l' -> length l = length l'.
Proof. induction 1; simpl; congruence. Qed.

(** The calls of a run, seen from outside: recipients, links, segments. *)
Lemma calls_of_batches E request (J : Prop) w batches calls :
  Forall (fun b => 0 < length b <= Hook.batchSize) batches ->
  Forall2 (call_of E request true J w) batches calls ->
  length calls = length batches /\
  concat (map b_recipients calls)
  = map (normalizePhoneNumber E) (concat batches) /\
  Forall (fun call =>
            length (b_recipients call) <= 100 /\
            exists links,
              b_param1 call = Some (JS.join "|" links) /\
              length links = length (b_recipients call) /\
              Forall2 (link_for E request w) (b_recipients call) links /\
              (J -> JS.split "|" (JS.join "|" links) = links)) calls.
Proof.
  intros Hsizes Hcalls.
  induction Hcalls as [| batch call batches calls Hc Hrest IH].
  - repeat split; constructor.
  - inversion Hsizes as [| ? ? Hsize Hsizes']; subst.
    destruct (IH Hsizes') as (Hlen & Hcat & Hall).
    destruct Hc as (links & -> & Hlinks & Hpf).
    split; [simpl; congruence |]. split.
    + simpl. rewrite Hcat, map_app. reflexivity.
    + constructor; [| exact Hall]. cbn.
      rewrite length_map. split; [apply Hsize |].
      exists links. split; [reflexivity |].
      pose proof (Forall2_length_eq Hlinks) as Hlen'.
      rewrite length_map in Hlen'.
      split; [symmetry; exact Hlen' |]. split; [exact Hlinks |].
      intros HJ. apply split_join; [| apply Hpf; exact HJ].
      destruct links; [simpl in Hlen'; lia | discriminate].
Qed.

(** The calls of a send whose message holds the placeholder in the one
    spelling that the hook detects, ["{{ link }}"]: with [N] valid
    recipients the send makes exactly [ceil (N / 100)] calls of the
    gateway; the calls carry the normalized recipients in order, at most
    100 each; the [param1] of each call is the ["|"]-join of as many
    links as the call has recipients; a link is empty or the origin
    followed by a token, which with a campaign is the token on record for
    that recipient; and, the origin and the tokens on record being free
    of ["|"], splitting [param1] at ["|"] gives these links back, one
    segment per recipient. *)
Theorem personalized_send_calls (E : Env) (request : SMSRequest)
  (rs : list (option string)) (w : World) :
  recipients request = Some rs ->
  Hook.validRecipients rs <> [] ->
  JS.includes (message request) "{{ link }}" = true ->
  exists r w' calls,
    Hook.sendSMS E request w = (inr r, w') /\
    invocations w' = invocations w ++ calls /\
    length calls = ceil_div (length (Hook.validRecipients rs)) 100 /\
    concat (map b_recipients calls)
    = map (normalizePhoneNumber E) (Hook.validRecipients rs) /\
    Forall (fun call =>
              length (b_recipients call) <= 100 /\
              exists links,
                b_param1 call = Some (JS.join "|" links) /\
                length links = length (b_recipients call) /\
                Forall2 (link_for E request w') (b_recipients call) links /\
                (pipe_free (origin E) /\ tokens_pipe_free w ->
                 JS.split "|" (JS.join "|" links) = links)) calls.
Proof.
  intros Hrs Hvalid Hlink. rewrite sendSMS_run.
  assert (Hpath : JS.truthy (campaignId request) ||
                  JS.includes (message request) "{{ link }}" = true)
    by (rewrite Hlink; apply orb_true_r).
  rewrite (sendSMS_try_personalized E _ _ Hrs Hvalid Hpath), Hlink.
  destruct (sendPersonalized_spec E request (Hook.validRecipients rs) true
              (started w))
    as (looped & w1 & w' & -> & Hpost & Hinv & _ & _ & _ & Hus & Hrecs & _).
  destruct Hpost as (calls & Hcalls & Hcall & _ & _ & _ & _ & _ & _ & _).
  cbn in Hcalls.
  assert (Hgrow : store_grows w1 (set_sending (fun l => l ++ [false]) w'))
    by (apply store_grows_same; assumption).
  assert (Hcall' :
    Forall2 (call_of E request true
               (pipe_free (origin E) /\ tokens_pipe_free w)
               (set_sending (fun l => l ++ [false]) w'))
      (Hook.batches_from (Hook.validRecipients rs) 0) calls).
  { eapply Forall2_impl; [| exact Hcall].
    intros b c. apply call_of_weaken; [auto | exact Hgrow]. }
  destruct (calls_of_batches
              (batches_from_sizes (Hook.validRecipients rs) 0) Hcall')
    as (Hlen & Hcat & Hall).
  eexists; eexists; exists calls. split; [reflexivity |]. cbn.
  split; [rewrite Hinv; exact Hcalls |].
  split.
  { rewrite Hlen, batches_from_length, Nat.sub_0_r. reflexivity. }
  split.
  { rewrite Hcat, batches_from_concat. reflexivity. }
  exact Hall.
Qed.

Lemma progressPercent_after i total :
  Hook.progressPercent i total = progress_after (S i) total.
Proof. unfold Hook.progressPercent, progress_after. rewrite Nat.add_1_r. reflexivity. Qed.

(** C8, as amended: on the personalized path the progress is set to [0],
    then after batch [k] of [totalBatches] (for [k] from 1 to
    [totalBatches]) to [Math.round((k / totalBatches) * 90)], a scale to
    90 and not a cap, and then to [100]. *)
Theorem personalized_progress (E : Env) (request : SMSRequest)
  (rs : list (option string)) (w : World) :
  recipients request = Some rs ->
  Hook.validRecipients rs <> [] ->
  JS.truthy (campaignId request) || JS.includes (message request) "{{ link }}"
  = true ->
  let totalBatches := ceil_div (length (Hook.validRecipients rs)) 100 in
  exists r w',
    Hook.sendSMS E request w = (inr r, w') /\
    progress w' =
      progress w ++ [0%float] ++
      map (fun k => progress_after k totalBatches) (seq 1 totalBatches) ++
      [100%float].
Proof.
  intros Hrs Hvalid Hpath totalBatches. rewrite sendSMS_run.
  rewrite (sendSMS_try_personalized E _ _ Hrs Hvalid Hpath).
  destruct (sendPersonalized_spec E request (Hook.validRecipients rs)
              (JS.includes (message request) "{{ link }}") (started w))
    as (looped & w1 & w' & -> & Hpost & _ & Hprog & _).
  destruct Hpost as (calls & _ & _ & Hp1 & _).
  eexists; eexists. split; [reflexivity |]. cbn.
  rewrite Hprog, Hp1. cbn.
  rewrite batches_from_length, Nat.sub_0_r. fold totalBatches.
  rewrite <- seq_shift, map_map.
  rewrite (map_ext _ (fun i => progress_after (S i) totalBatches))
    by (intros i; apply progressPercent_after).
  rewrite <- !app_assoc. reflexivity.
Qed.

(** C8, the claim as stated fails: with 101 recipients there are two
    batches, and the progress reported after the first one is [45], where
    [round(100 * 1 / 2)] capped at 90 is [50]. *)
Lemma progress_counterexample :
  let request := Sample.request (Sample.crowd 101) "Hi {{ link }}" None in
  let w' := snd (Hook.sendSMS Sample.env request Sample.world) in
  progress w' = [0; 45; 90; 100]%float /\
  spec_progress 1 2 = 50%float /\
  nth 1 (progress w') 0%float <> spec_progress 1 2.
Proof.
  assert (H1 :
    progress (snd (Hook.sendSMS Sample.env
                     (Sample.request (Sample.crowd 101) "Hi {{ link }}" None)
                     Sample.world))
    = [0; 45; 90; 100]%float) by (vm_compute; reflexivity).
  assert (H2 : spec_progress 1 2 = 50%float) by (vm_compute; reflexivity).
  cbv zeta. rewrite H1, H2. split; [reflexivity |]. split; [reflexivity |].
  cbn. intros H.
  assert (Heq : PrimFloat.eqb 45 50 = true) by (rewrite <- H; reflexivity).
  vm_compute in Heq. discriminate.
Qed.

(** ** A recipient whose resolution fails *)

Lemma forEach_app {A S} (body : S -> A -> M S) l1 l2 s w :
  forEach body (l1 ++ l2) s w =
  bind (forEach body l1 s) (forEach body l2) w.
Proof.
  revert s w. induction l1 as [| x l1 IH]; intros s w; simpl.
  - reflexivity.
  - unfold bind. destruct (body s x w) as [[e | s'] w']; [reflexivity |].
    rewrite IH. reflexivity.
Qed.

(** A failing resolution throws a database error, and only a send with a
    campaign can fail. *)
Lemma resolveToken_throws E request h phone w e w' :
  Hook.resolveToken E request h phone w = (inl e, w') ->
  (exists cid, JS.nonempty (campaignId request) = Some cid) /\
  (exists msg, e = Hook.db_exn E msg).
Proof.
  intros Hrun.
  destruct (JS.nonempty (campaignId request)) as [cid |] eqn:Hcid.
  - pose proof (@resolveToken_campaign E request h cid phone w Hcid) as H.
    rewrite Hrun in H. destruct H as (Hmsg & _). eauto.
  - destruct (@resolveToken_bare E request h phone w Hcid)
      as (tok & w1 & Hrun' & _). congruence.
Qed.

Lemma processRecipient_failed E request h results brs bls phone w e w1 :
  Hook.resolveToken E request h (normalizePhoneNumber E phone) w = (inl e, w1) ->
  Hook.processRecipient E request h (results, brs, bls) phone w =
  (inr (Hook.push_error
          (normalizePhoneNumber E phone ++ ": " ++
           message_of e "Unknown error")%string results,
        brs ++ [normalizePhoneNumber E phone], bls ++ [""]), w1).
Proof.
  intros Hrun.
  unfold Hook.processRecipient, Hook.resolveLink, try_catch, bind.
  rewrite Hrun. reflexivity.
Qed.

(** An error of a lookup alone is no failure of the resolution: the code
    takes it as "no such row" and inserts.  Here the lookup of the user
    (request 1) fails on the way and the store is empty: the user and the
    recipient are created and the link is built. *)
Example lookup_error_leads_to_insert :
  let request :=
    Sample.request ["+359888000001"] "Visit {{ link }}" (Some "c1") in
  let run :=
    Hook.resolveLink (Sample.flaky [1]) request true "+359888000001"
      Sample.world in
  fst run = inr "https://app.example/A12Z4567" /\
  map phone_number (users (snd run)) = ["+359888000001"] /\
  map unique_token (campaign_recipients (snd run)) = ["A12Z4567"].
Proof. cbv zeta. repeat split; vm_compute; reflexivity. Qed.

Lemma credited_errors n r r' msg :
  credited n r r' -> In msg (Hook.r_errors r) -> In msg (Hook.r_errors r').
Proof.
  intros (_ & _ & _ & _ & errs & ->) Hin. apply in_or_app. left. exact Hin.
Qed.

(** C6, as amended: when the resolution of a recipient throws, which it
    does only with a database error (the user or the campaign recipient
    could be neither found nor inserted), the batch is not aborted: the
    error is
    recorded under the phone number of the recipient, the other recipients
    are processed, and the call of the gateway for the batch carries the
    recipient at its position, with the empty link at the same
    position. *)
Theorem failed_recipient_is_sent_without_link (E : Env)
  (request : SMSRequest) (hasLinkPlaceholder : bool)
  (total batchIndex : nat) (results : Hook.Results)
  (before after : list string) (phone : string)
  (st1 : Hook.BatchState) (w w1 w2 : World) (e : exn) :
  forEach (Hook.processRecipient E request hasLinkPlaceholder) before
    (results, [], []) w = (inr st1, w1) ->
  Hook.resolveToken E request hasLinkPlaceholder
    (normalizePhoneNumber E phone) w1 = (inl e, w2) ->
  exists results' w' links,
    Hook.processBatch E request hasLinkPlaceholder total batchIndex results
      (before ++ phone :: after) w = (inr results', w') /\
    invocations w' =
      invocations w ++
      [Hook.batch_body request hasLinkPlaceholder
         (map (normalizePhoneNumber E) (before ++ phone :: after)) links] /\
    length links = length (before ++ phone :: after) /\
    nth (length before) links "-" = "" /\
    In (normalizePhoneNumber E phone ++ ": " ++
        message_of e "Unknown error")%string (Hook.r_errors results') /\
    exists msg, e = Hook.db_exn E msg.
Proof.
  intros Hbefore Hthrow.
  destruct (resolveToken_throws _ _ _ _ _ Hthrow) as (_ & Hdb).
  pose proof (returns_inv (recipients_loop_spec E request hasLinkPlaceholder
                             before results [] [] w) Hbefore) as H1.
  destruct st1 as [[results1 brs1] bls1]. cbn in H1.
  destruct H1 as (He1 & -> & Hq1 & _ & links1 & -> & Hl1 & _).
  apply Forall2_length_eq in Hl1. rewrite length_map in Hl1.
  destruct (recipients_loop_spec E request hasLinkPlaceholder after
              (Hook.push_error
                 (normalizePhoneNumber E phone ++ ": " ++
                  message_of e "Unknown error")%string results1)
              (map (normalizePhoneNumber E) before ++
               [normalizePhoneNumber E phone])
              (links1 ++ [""]) w2)
    as ([[results3 brs3] bls3] & w3 & Hafter & H3).
  cbn in H3.
  destruct H3 as (He3 & -> & Hq3 & _ & links3 & -> & Hl3 & _).
  apply Forall2_length_eq in Hl3. rewrite length_map in Hl3.
  unfold Hook.processBatch. unfold bind at 1.
  rewrite forEach_app. unfold bind at 1. rewrite Hbefore.
  cbn [forEach]. unfold bind at 1.
  rewrite (processRecipient_failed _ _ _ _ _ _ _ _ Hthrow).
  cbn [app] in Hafter |- *. rewrite Hafter.
  unfold bind at 1. rewrite sendBatch_run.
  unfold bind, Hook.setProgress, update, ret.
  eexists; eexists; exists ((links1 ++ [""]) ++ links3).
  split; [reflexivity |]. cbn.
  destruct Hq1 as (Hi1 & _). destruct Hq3 as (Hi3 & _).
  pose proof (@resolveToken_blind E request hasLinkPlaceholder (quiet w1)
                (normalizePhoneNumber E phone) (@quiet_store_blind w1)
                w1 (quiet_refl w1)) as Hq2.
  rewrite Hthrow in Hq2. destruct Hq2 as (Hi2 & _).
  split.
  { rewrite Hi3, Hi2, Hi1. f_equal. f_equal. f_equal.
    rewrite !map_app. cbn. rewrite <- app_assoc. reflexivity. }
  split.
  { rewrite !length_app. cbn. lia. }
  split.
  { rewrite <- app_assoc, app_nth2 by lia.
    rewrite <- Hl1, Nat.sub_diag. reflexivity. }
  split; [| exact Hdb].
  eapply credited_errors; [apply absorb_credited |].
  destruct He3 as (_ & _ & _ & _ & _ & _ & _ & _ & errs & ->).
  apply in_or_app. left. cbn. apply in_or_app. right. left. reflexivity.
Qed.

(** C6, the claim as stated fails for a lookup: the store is empty; the
    lookup of the user (request 1), or the lookup of the campaign
    recipient (request 3), fails on the way.  The hook takes the error
    for "no such row" and inserts: no error is recorded, and the
    recipient is sent with a link that is not empty.  Only when the
    insert fails as well (requests 1 and 2) is the error recorded and the
    link empty. *)
Lemma lookup_failure_counterexample :
  let request :=
    Sample.request ["+359888000001"] "Visit {{ link }}" (Some "c1") in
  let outcome E :=
    let run := Hook.sendSMS E request Sample.world in
    (match fst run with
     | inr r => Some (success r, errors r)
     | inl _ => None
     end,
     map b_param1 (invocations (snd run))) in
  fst (Db.select_user_id (Sample.flaky [1]) "+359888000001"
         (set_db_requests S Sample.world))
  = inr (DbError "connection lost") /\
  outcome (Sample.flaky [1])
  = (Some (true, Some []), [Some "https://app.example/A12Z4567"]) /\
  outcome (Sample.flaky [3])
  = (Some (true, Some []), [Some "https://app.example/A12Z4567"]) /\
  outcome (Sample.flaky [1; 2])
  = (Some (true, Some ["+359888000001: Unknown error"]), [Some ""]).
Proof. cbv zeta. repeat split; vm_compute; reflexivity. Qed.

(** ** Uniqueness and idempotence *)

Section Unique.
Context {A K : Type}.
Variables (key : A -> K) (p : A -> bool) (k : K).
Hypothesis p_spec : forall x, p x = true <-> key x = k.

Lemma filter_nil_existsb l : filter p l = [] <-> existsb p l = false.
Proof.
  induction l as [| x l IH]; simpl; [tauto |].
  destruct (p x); simpl; [split; discriminate | exact IH].
Qed.

Lemma existsb_false_not_in l : existsb p l = false -> ~ In k (map key l).
Proof.
  intros Hex Hin. apply in_map_iff in Hin as (x & Hx & Hin).
  apply p_spec in Hx.
  assert (existsb p l = true) by (apply existsb_exists; eauto). congruence.
Qed.

(** Under a uniqueness constraint a lookup by key finds at most one row. *)
Lemma filter_at_most_one l :
  NoDup (map key l) -> filter p l = [] \/ exists a, filter p l = [a].
Proof.
  induction l as [| x l IH]; simpl; intros Hnd; [left; reflexivity |].
  inversion Hnd as [| ? ? Hnotin Hnd']; subst.
  destruct (p x) eqn:Hpx.
  - right. exists x. f_equal. apply filter_nil_existsb.
    destruct (existsb p l) eqn:Hex; [| reflexivity].
    apply existsb_exists in Hex as (y & Hy & Hpy).
    apply p_spec in Hpx, Hpy. exfalso. apply Hnotin.
    rewrite Hpx, <- Hpy. apply in_map. exact Hy.
  - apply IH. exact Hnd'.
Qed.

Lemma NoDup_snoc l x :
  NoDup (map key l) -> existsb p l = false -> key x = k ->
  NoDup (map key (l ++ [x])).
Proof.
  intros Hnd Hex Hx. rewrite map_app. cbn.
  apply NoDup_app; [exact Hnd | repeat constructor; intros [] |].
  intros y Hy [<- | []]. rewrite Hx in Hy.
  exact (existsb_false_not_in _ Hex Hy).
Qed.

End Unique.

Lemma user_has_phone_spec phone u :
  Db.user_has_phone phone u = true <-> phone_number u = phone.
Proof. apply String.eqb_eq. Qed.

Lemma recipient_is_spec cid uid r :
  Db.recipient_is cid uid r = true <->
  (cr_campaign_id r, cr_user_id r) = (cid, uid).
Proof.
  unfold Db.recipient_is. rewrite andb_true_iff, !String.eqb_eq.
  split; [intros [-> ->]; reflexivity | intros H; injection H; auto].
Qed.

Lemma user_step_unique phone uid us us' :
  user_step phone uid us us' ->
  NoDup (map phone_number us) -> NoDup (map phone_number us').
Proof.
  intros [u _ _ -> | u Hex Hph _ ->] Hnd; [exact Hnd |].
  eapply NoDup_snoc; eauto using user_has_phone_spec.
Qed.

Lemma touch_keys cid uid rs :
  map (fun r => (cr_campaign_id r, cr_user_id r)) (map (touch cid uid) rs)
  = map (fun r => (cr_campaign_id r, cr_user_id r)) rs.
Proof.
  rewrite map_map. apply map_ext. intros r.
  destruct (touch_key cid uid r) as (-> & -> & _). reflexivity.
Qed.

Lemma token_step_unique cid uid tok rs rs' :
  token_step cid uid tok rs rs' ->
  NoDup (map (fun r => (cr_campaign_id r, cr_user_id r)) rs) ->
  NoDup (map (fun r => (cr_campaign_id r, cr_user_id r)) rs').
Proof.
  intros [r _ _ [-> | ->] | Hex _ ->] Hnd.
  - exact Hnd.
  - rewrite touch_keys. exact Hnd.
  - eapply NoDup_snoc; eauto using recipient_is_spec.
Qed.

(** Under the uniqueness constraint a pair has at most one token. *)
Lemma unique_recipients_one_token w r r' :
  unique_recipients w ->
  In r (campaign_recipients w) -> In r' (campaign_recipients w) ->
  cr_campaign_id r = cr_campaign_id r' -> cr_user_id r = cr_user_id r' ->
  unique_token r = unique_token r'.
Proof.
  unfold unique_recipients. intros Hnd Hr Hr' Hc Hu.
  induction (campaign_recipients w) as [| x l IH]; [contradiction |].
  cbn in Hnd. inversion Hnd as [| ? ? Hnotin Hnd']; subst.
  destruct Hr as [-> | Hr], Hr' as [-> | Hr'].
  - reflexivity.
  - exfalso. apply Hnotin. rewrite Hc, Hu.
    apply (in_map (fun r => (cr_campaign_id r, cr_user_id r))). exact Hr'.
  - exfalso. apply Hnotin. rewrite <- Hc, <- Hu.
    apply (in_map (fun r => (cr_campaign_id r, cr_user_id r))). exact Hr.
  - apply IH; assumption.
Qed.

Section Idempotence.
Variable E : Env.

(** What a second resolution finds is what the first one left. *)
Lemma second_step_same phone cid uid1 tok1 us0 us1 rs0 rs1
  uid2 tok2 us2 rs2 :
  user_step phone uid1 us0 us1 -> token_step cid uid1 tok1 rs0 rs1 ->
  user_step phone uid2 us1 us2 -> token_step cid uid2 tok2 rs1 rs2 ->
  tok2 = tok1 /\ us2 = us1 /\ length rs2 = length rs1.
Proof.
  intros Hu1 Ht1 Hu2 Ht2.
  destruct (user_step_has Hu1) as (u1 & Hin1 & Hph1 & Hid1).
  assert (Huid : uid2 = uid1 /\ us2 = us1).
  { destruct Hu2 as [u Hf Hid -> | u Hex _ _ _].
    - split; [| reflexivity].
      assert (Hin : In u1 (filter (Db.user_has_phone phone) us1))
        by (apply filter_In; split; [exact Hin1 | apply user_has_phone_spec; exact Hph1]).
      rewrite Hf in Hin. destruct Hin as [<- | []]. congruence.
    - exfalso.
      assert (existsb (Db.user_has_phone phone) us1 = true)
        by (apply existsb_exists; exists u1; split;
            [exact Hin1 | apply user_has_phone_spec; exact Hph1]).
      congruence. }
  destruct Huid as (-> & ->). split; [| split; [reflexivity |]].
  - destruct (token_step_has Ht1) as (r1 & Hr1 & Hc1 & Hru1 & Htok1).
    assert (Hp : Db.recipient_is cid uid1 r1 = true)
      by (apply recipient_is_spec; congruence).
    destruct Ht2 as [r Hf Htok _ | Hex _ _].
    + assert (Hin : In r1 (filter (Db.recipient_is cid uid1) rs1))
        by (apply filter_In; auto).
      rewrite Hf in Hin. destruct Hin as [<- | []]. congruence.
    + exfalso.
      assert (existsb (Db.recipient_is cid uid1) rs1 = true)
        by (apply existsb_exists; eauto).
      congruence.
  - destruct (token_step_has Ht1) as (r1 & Hr1 & Hc1 & Hru1 & Htok1).
    assert (Hp : Db.recipient_is cid uid1 r1 = true)
      by (apply recipient_is_spec; congruence).
    destruct Ht2 as [r _ _ [-> | ->] | Hex _ _].
    + reflexivity.
    + apply length_map.
    + exfalso.
      assert (existsb (Db.recipient_is cid uid1) rs1 = true)
        by (apply existsb_exists; eauto).
      congruence.
Qed.

Hypothesis Hno_faults : no_faults E.

(** Without failures on the way and under the uniqueness constraints,
    both find-or-create steps return. *)
Lemma findOrCreateUser_returns phone w :
  unique_phones w ->
  exists uid w', Hook.findOrCreateUser E phone w = (inr uid, w').
Proof.
  intros Hnd. unfold Hook.findOrCreateUser, bind, ret, Db.select_user_id,
    Db.insert_users, Db.request.
  rewrite ?Hno_faults. cbn.
  destruct (filter_at_most_one phone_number (Db.user_has_phone phone)
              (user_has_phone_spec phone) (users w) Hnd)
    as [Hnil | (a & Hone)].
  - rewrite Hnil. cbn. rewrite ?Hno_faults. cbn.
    apply (filter_nil_existsb (Db.user_has_phone phone)) in Hnil.
    rewrite Hnil. cbn. eauto.
  - rewrite Hone. cbn. eauto.
Qed.

Lemma findOrCreateRecipient_returns cid uid w :
  unique_recipients w ->
  exists tok w', Hook.findOrCreateRecipient E cid uid w = (inr tok, w').
Proof.
  intros Hnd. unfold Hook.findOrCreateRecipient, bind, ret,
    Db.select_recipient_token, Db.insert_recipients,
    Db.update_recipient_status, Token.generate, Db.request.
  rewrite ?Hno_faults. cbn.
  destruct (filter_at_most_one
              (fun r => (cr_campaign_id r, cr_user_id r))
              (Db.recipient_is cid uid) (recipient_is_spec cid uid)
              (campaign_recipients w) Hnd)
    as [Hnil | (a & Hone)].
  - rewrite Hnil. cbn. rewrite ?Hno_faults. cbn.
    apply (filter_nil_existsb (Db.recipient_is cid uid)) in Hnil.
    rewrite Hnil. cbn. eauto.
  - rewrite Hone. cbn. rewrite ?Hno_faults. cbn. eauto.
Qed.

Lemma resolveToken_returns request h cid phone w :
  JS.nonempty (campaignId request) = Some cid ->
  unique_phones w -> unique_recipients w ->
  exists tok w', Hook.resolveToken E request h phone w = (inr tok, w').
Proof.
  intros Hcid Hup Hur. unfold Hook.resolveToken. rewrite Hcid. unfold bind.
  destruct (select_campaign_short_id_run E cid w) as (r0 & ->).
  destruct (@findOrCreateUser_returns phone (set_db_requests S w) Hup)
    as (uid & w1 & Hrun1).
  pose proof (findOrCreateUser_run E phone (set_db_requests S w)) as Hu.
  rewrite Hrun1 in *. destruct Hu as (_ & Hrecs).
  apply findOrCreateRecipient_returns.
  unfold unique_recipients in *. rewrite Hrecs. exact Hur.
Qed.

End Idempotence.

(** A resolution keeps the uniqueness constraints, whether it returns or
    throws. *)
Lemma resolveToken_unique E request h cid phone w :
  JS.nonempty (campaignId request) = Some cid ->
  unique_phones w -> unique_recipients w ->
  let w' := snd (Hook.resolveToken E request h phone w) in
  unique_phones w' /\ unique_recipients w'.
Proof.
  intros Hcid Hup Hur.
  pose proof (@resolveToken_campaign E request h cid phone w Hcid) as H.
  destruct (Hook.resolveToken E request h phone w) as [[e | tok] w']; cbn.
  - destruct H as (_ & Hrecs & Hus). unfold unique_phones, unique_recipients.
    rewrite Hrecs. split; [| exact Hur].
    destruct Hus as [-> | (uid & Hstep)]; [exact Hup |].
    eapply user_step_unique; eassumption.
  - destruct H as (uid & Hustep & Htstep). split.
    + eapply user_step_unique; eassumption.
    + eapply token_step_unique; eassumption.
Qed.

(** C5: with a campaign, resolving the same phone number twice gives the
    same token both times and the second resolution adds no row; the
    uniqueness constraints of the store hold afterwards, so that a
    [(campaign_id, user_id)] pair has at most one token; and when no
    request fails on the way both resolutions do return a token. *)
Theorem resolution_idempotent (E : Env) (request : SMSRequest) (h : bool)
  (cid phone : string) (w : World) :
  JS.nonempty (campaignId request) = Some cid ->
  unique_phones w ->
  unique_recipients w ->
  match Hook.resolveToken E request h phone w with
  | (first, w1) =>
      match Hook.resolveToken E request h phone w1 with
      | (second, w2) =>
          (forall tok1 tok2,
             first = inr tok1 -> second = inr tok2 ->
             tok2 = tok1 /\
             users w2 = users w1 /\
             length (campaign_recipients w2)
             = length (campaign_recipients w1) /\
             token_on_record w2 cid phone tok1) /\
          (no_faults E -> exists tok, first = inr tok /\ second = inr tok) /\
          unique_phones w2 /\ unique_recipients w2 /\
          (forall r r',
             In r (campaign_recipients w2) ->
             In r' (campaign_recipients w2) ->
             cr_campaign_id r = cr_campaign_id r' ->
             cr_user_id r = cr_user_id r' ->
             unique_token r = unique_token r')
      end
  end.
Proof.
  intros Hcid Hup Hur.
  pose proof (@resolveToken_campaign E request h cid phone w Hcid) as H1.
  pose proof (@resolveToken_unique E request h cid phone w Hcid Hup Hur)
    as Hu1.
  destruct (Hook.resolveToken E request h phone w) as [first w1] eqn:Hrun1.
  cbn in Hu1. destruct Hu1 as (Hup1 & Hur1).
  pose proof (@resolveToken_campaign E request h cid phone w1 Hcid) as H2.
  pose proof (@resolveToken_unique E request h cid phone w1 Hcid Hup1 Hur1)
    as Hu2.
  destruct (Hook.resolveToken E request h phone w1) as [second w2] eqn:Hrun2.
  cbn in Hu2. destruct Hu2 as (Hup2 & Hur2).
  assert (Hsame : forall tok1 tok2,
             first = inr tok1 -> second = inr tok2 ->
             tok2 = tok1 /\
             users w2 = users w1 /\
             length (campaign_recipients w2)
             = length (campaign_recipients w1) /\
             token_on_record w2 cid phone tok1).
  { intros tok1 tok2 -> ->.
    destruct H1 as (uid1 & Hus1 & Hts1). destruct H2 as (uid2 & Hus2 & Hts2).
    destruct (second_step_same Hus1 Hts1 Hus2 Hts2) as (-> & Heq & Hlen).
    split; [reflexivity |]. split; [exact Heq |]. split; [exact Hlen |].
    destruct (user_step_has Hus2) as (u & Hu & Hph & Hid).
    destruct (token_step_has Hts2) as (r & Hr & Hc & Hru & Htok).
    exists u, r. repeat split; auto. congruence. }
  split; [exact Hsame |]. split.
  { intros Hnf.
    destruct (@resolveToken_returns E Hnf request h cid phone w Hcid Hup Hur)
      as (tok1 & w1' & Hr1).
    destruct (@resolveToken_returns E Hnf request h cid phone w1 Hcid Hup1
                Hur1) as (tok2 & w2' & Hr2).
    rewrite Hrun1 in Hr1. rewrite Hrun2 in Hr2.
    injection Hr1 as -> _. injection Hr2 as -> _.
    destruct (Hsame tok1 tok2 eq_refl eq_refl) as (-> & _).
    exists tok1. split; reflexivity. }
  split; [exact Hup2 |]. split; [exact Hur2 |].
  intros r r'. apply unique_recipients_one_token. exact Hur2.
Qed.

(** ** Uniqueness violations *)

(** C7, as amended: when the lookup of a user or of a campaign recipient
    fails although the row exists, the insert that follows is refused as
    a uniqueness violation, and the Resolver throws that violation without
    reading the row again: two requests are made and the store is left as
    it was.  The exception is fatal for that recipient only: it is
    recorded, and the recipient is pushed to the batch with the empty
    link. *)
Theorem uniqueness_violation_is_thrown (E : Env) (request : SMSRequest)
  (h : bool) (phone cid uid m : string) (w : World) :
  db_fault E (db_requests w) = Some m ->
  db_fault E (S (db_requests w)) = None ->
  (existsb (Db.user_has_phone phone) (users w) = true ->
   Hook.findOrCreateUser E phone w
   = (inl (Hook.db_exn E Db.duplicate_key),
      set_db_requests (fun n => S (S n)) w)) /\
  (existsb (Db.recipient_is cid uid) (campaign_recipients w) = true ->
   Hook.findOrCreateRecipient E cid uid w
   = (inl (Hook.db_exn E Db.duplicate_key),
      set_randoms S (set_db_requests (fun n => S (S n)) w))) /\
  (forall results brs bls raw w0 e w1,
     Hook.resolveToken E request h (normalizePhoneNumber E raw) w0
     = (inl e, w1) ->
     Hook.processRecipient E request h (results, brs, bls) raw w0
     = (inr (Hook.push_error
               (normalizePhoneNumber E raw ++ ": " ++
                message_of e "Unknown error")%string results,
             brs ++ [normalizePhoneNumber E raw], bls ++ [""]), w1)).
Proof.
  intros Hlookup Hinsert. split; [| split].
  - intros Hex.
    unfold Hook.findOrCreateUser, bind, Db.select_user_id, Db.insert_users,
      Db.request.
    rewrite Hlookup. cbn. rewrite Hinsert. cbn. rewrite Hex. reflexivity.
  - intros Hex.
    unfold Hook.findOrCreateRecipient, bind, Db.select_recipient_token,
      Db.insert_recipients, Token.generate, Db.request.
    rewrite Hlookup. cbn. rewrite Hinsert. cbn. rewrite Hex. reflexivity.
  - intros. apply processRecipient_failed. assumption.
Qed.

(** C7, the claim as stated fails: the user and the recipient are on
    record with the token ["TOKEN123"]; the lookup of the user (request 1)
    or of the recipient (request 2) fails on the way; the insert is
    refused as a duplicate and the resolution throws instead of going on
    with the token on record; the recipient is sent with the empty link. *)
Lemma uniqueness_violation_counterexample :
  let request :=
    Sample.request ["+359888000001"] "Visit {{ link }}" (Some "c1") in
  token_on_record Sample.known "c1" "+359888000001" "TOKEN123" /\
  fst (Hook.resolveToken (Sample.flaky [1]) request true "+359888000001"
         Sample.known)
  = inl (Exn false Db.duplicate_key) /\
  fst (Hook.resolveToken (Sample.flaky [2]) request true "+359888000001"
         Sample.known)
  = inl (Exn false Db.duplicate_key) /\
  map b_param1
    (invocations (snd (Hook.sendSMS (Sample.flaky [1]) request Sample.known)))
  = [Some ""] /\
  fst (Hook.resolveToken Sample.env request true "+359888000001"
         Sample.known)
  = inr "TOKEN123".
Proof.
  cbv zeta. split.
  - eexists; eexists. cbn.
    split; [left; reflexivity |]. split; [reflexivity |].
    split; [left; reflexivity |]. repeat split.
  - repeat split; vm_compute; reflexivity.
Qed.

(** ** The plain path *)

(** C2, the claim as stated fails on the plain path: the reply of the
    gateway is returned as it is, and the pass-through handler answers
    [success: true] with [sentCount: 0] when the provider reports no
    error and no message. *)
Lemma plain_send_counterexample :
  let request := Sample.request ["+359888000001"] "Hello" None in
  exists r w',
    Hook.sendSMS Sample.nothing_sent_env request Sample.world = (inr r, w') /\
    length (invocations w') = 1 /\
    sentCount r = Some 0%Z /\
    success r = true.
Proof.
  cbv zeta. eexists; eexists. split; [vm_compute; reflexivity |].
  repeat split.
Qed.

(** The plain path writes no row of the log. *)
Lemma plain_send_writes_no_log E request w :
  JS.truthy (campaignId request) = false ->
  JS.includes (message request) "{{ link }}" = false ->
  bulk_messages (snd (Hook.sendSMS E request w)) = bulk_messages w.
Proof.
  intros Hc Hl. rewrite sendSMS_run. unfold Hook.sendSMS_try.
  destruct (recipients request) as [[| p rs] |]; try reflexivity.
  destruct (Hook.validRecipients (p :: rs)); [reflexivity |].
  rewrite Hc, Hl. cbn [negb andb].
  unfold Hook.sendBulkSMS, try_catch, bind, Hook.invoke, Hook.setProgress,
    update, throw, ret.
  destruct (invoke_reply E _ _); reflexivity.
Qed.

(** The personalized path writes at most one row for the whole
    invocation: one when messages were sent and the insert went through,
    whether the send is a test or not. *)
Lemma personalized_log_row E request rs w :
  recipients request = Some rs ->
  Hook.validRecipients rs <> [] ->
  JS.truthy (campaignId request) || JS.includes (message request) "{{ link }}"
  = true ->
  exists r w' n row,
    Hook.sendSMS E request w = (inr r, w') /\
    sentCount r = Some n /\
    sent_count row = n /\
    recipient_count row = Z.of_nat (length (Hook.validRecipients rs)) /\
    (bulk_messages w' = bulk_messages w \/
     (0 < n)%Z /\ bulk_messages w' = bulk_messages w ++ [row]).
Proof.
  intros Hrs Hvalid Hpath. rewrite sendSMS_run.
  rewrite (sendSMS_try_personalized E _ _ Hrs Hvalid Hpath).
  destruct (sendPersonalized_spec E request (Hook.validRecipients rs)
              (JS.includes (message request) "{{ link }}") (started w))
    as (looped & w1 & w' & -> & Hpost & _ & _ & _ & _ & _ & _ & Hlog).
  destruct Hpost as (calls & _ & _ & _ & _ & _ & Hbulk & _ & _ & Hcr).
  destruct (verdict_of_credit Hcr) as (Hn & _).
  cbn in Hbulk, Hn. injection Hn as Hn.
  eexists; eexists; eexists.
  exists {| bm_type := "sms"; bm_content := message request;
            recipient_count := Z.of_nat (length (Hook.validRecipients rs));
            sent_count :=
              Hook.r_sentCount (Hook.determine_success looped);
            bm_status := "completed";
            bm_campaign_id := JS.nonempty (campaignId request) |}.
  split; [reflexivity |]. cbn.
  split; [reflexivity |]. split; [reflexivity |]. split; [reflexivity |].
  rewrite Hlog, Hbulk.
  destruct (Hook.r_success (Hook.determine_success looped)); cbn;
    [| left; apply app_nil_r].
  destruct (0 <? Hook.r_sentCount (Hook.determine_success looped))%Z eqn:Hpos;
    [| left; apply app_nil_r].
  destruct (db_fault E (db_requests w1)); [left; apply app_nil_r |].
  right. split; [apply Z.ltb_lt; exact Hpos | reflexivity].
Qed.

(** ** The placeholder *)

(** The replacement itself tolerates white space inside the braces. *)
Lemma replace_link_tolerant :
  map (JS.replace_link "[%1%]")
    ["Visit {{link}}"; "Visit {{ link }}"; "Visit {{  link  }}"]
  = ["Visit [%1%]"; "Visit [%1%]"; "Visit [%1%]"].
Proof. reflexivity. Qed.

(** The detection does not: only the spelling with one space on each side
    is a placeholder. *)
Lemma detection_is_literal :
  map (fun text => JS.includes text "{{ link }}")
    ["Visit {{link}}"; "Visit {{ link }}"; "Visit {{  link  }}"]
  = [false; true; false].
Proof. reflexivity. Qed.

(** A message without the literal spelling reaches the gateway as it is
    (trimmed), without [param1], on either path. *)
Lemma undetected_placeholder_is_sent_verbatim E request w :
  JS.includes (message request) "{{ link }}" = false ->
  exists calls,
    invocations (snd (Hook.sendSMS E request w)) = invocations w ++ calls /\
    Forall (fun call =>
              b_message call = JS.trim (message request) /\
              b_param1 call = None) calls.
Proof.
  intros Hl. rewrite sendSMS_run.
  destruct (recipients request) as [rs |] eqn:Hrs.
  2: { unfold Hook.sendSMS_try. rewrite Hrs. exists []. cbn.
       rewrite app_nil_r. split; [reflexivity | constructor]. }
  destruct (Hook.validRecipients rs) as [| v valid] eqn:Hv.
  { unfold Hook.sendSMS_try. rewrite Hrs.
    destruct rs; [| rewrite Hv]; exists []; cbn; rewrite app_nil_r;
      (split; [reflexivity | constructor]). }
  destruct (JS.truthy (campaignId request)) eqn:Hc.
  - assert (Hvalid : Hook.validRecipients rs <> []) by (rewrite Hv; discriminate).
    assert (Hpath : JS.truthy (campaignId request) ||
                    JS.includes (message request) "{{ link }}" = true)
      by (rewrite Hc; reflexivity).
    rewrite (sendSMS_try_personalized E _ _ Hrs Hvalid Hpath), Hl.
    destruct (sendPersonalized_spec E request (Hook.validRecipients rs) false
                (started w))
      as (looped & w1 & w' & -> & Hpost & Hinv & _).
    destruct Hpost as (calls & Hcalls & Hcall & _).
    exists calls. cbn. split; [rewrite Hinv; exact Hcalls |].
    clear Hcalls. induction Hcall as [| b c bs cs (links & -> & _) _ IH];
      constructor; [split; reflexivity | exact IH].
  - unfold Hook.sendSMS_try. rewrite Hrs.
    destruct rs as [| p rs]; [discriminate |]. rewrite Hv, Hc, Hl.
    cbn [negb andb].
    unfold Hook.sendBulkSMS, try_catch, bind, Hook.invoke, Hook.setProgress,
      update, throw, ret.
    eexists. destruct (invoke_reply E _ _); cbn;
      (split; [reflexivity |]); repeat constructor.
Qed.

(** C4, evaluated: of the three spellings only ["Visit {{ link }}"] is
    sent as ["Visit [%1%]"] with a link in [param1]; the other two take the
    plain path and reach the gateway unchanged, without [param1].  The
    same holds with a campaign, on the personalized path. *)
Theorem placeholder_spellings_differ :
  let sent_for campaign text :=
    map (fun call => (b_message call, b_param1 call))
      (invocations
         (snd (Hook.sendSMS Sample.env
                 (Sample.request ["+359888000001"] text campaign)
                 Sample.world))) in
  map (sent_for None)
    ["Visit {{link}}"; "Visit {{ link }}"; "Visit {{  link  }}"]
  = [[("Visit {{link}}", None)];
     [("Visit [%1%]", Some "https://app.example/A12Z4567")];
     [("Visit {{  link  }}", None)]] /\
  map (sent_for (Some "c1"))
    ["Visit {{link}}"; "Visit {{ link }}"; "Visit {{  link  }}"]
  = [[("Visit {{link}}", None)];
     [("Visit [%1%]", Some "https://app.example/A12Z4567")];
     [("Visit {{  link  }}", None)]].
Proof. split; vm_compute; reflexivity. Qed.

(** C1, evaluated at 150 recipients.  The replacement of the hook takes
    ["{{link}}"] for the placeholder, its detection does not: without a
    campaign the send makes one call with all 150 recipients and no
    [param1], and with a campaign it makes two calls without [param1];
    both carry the message with the placeholder left in it.  With the
    spelling ["{{ link }}"] the same send makes two calls, of 100 and of
    50 recipients, each with as many ["|"]-separated links in [param1] as
    it has recipients, and the links are those of the recipients, in
    their order. *)
Theorem undetected_placeholder_is_not_batched :
  let calls request :=
    invocations (snd (Hook.sendSMS Sample.env request Sample.world)) in
  let shape request :=
    map (fun call =>
           (length (b_recipients call),
            option_map (fun p => length (JS.split "|" p)) (b_param1 call),
            b_message call))
      (calls request) in
  JS.replace_link "[%1%]" "Visit {{link}}" = "Visit [%1%]" /\
  JS.includes "Visit {{link}}" "{{ link }}" = false /\
  shape (Sample.request (Sample.crowd 150) "Visit {{link}}" None)
  = [(150, None, "Visit {{link}}")] /\
  shape (Sample.request (Sample.crowd 150) "Visit {{link}}" (Some "c1"))
  = [(100, None, "Visit {{link}}"); (50, None, "Visit {{link}}")] /\
  shape (Sample.request (Sample.crowd 150) "Visit {{ link }}" None)
  = [(100, Some 100, "Visit [%1%]"); (50, Some 50, "Visit [%1%]")] /\
  map (fun call => (b_recipients call, b_param1 call))
    (calls (Sample.request ["+359888000001"; "+359888000002"]
              "Visit {{ link }}" None))
  = [(["+359888000001"; "+359888000002"],
      Some "https://app.example/A12Z4567|https://app.example/B12Z4567")].
Proof. cbv zeta. repeat split; vm_compute; reflexivity. Qed.

(** ** The log *)

(** C3, evaluated: a test send through the hook that the gateway reports
    as sent writes a row of the log, where the database-backed handler,
    given a test request, writes none; and a plain send through the hook
    that succeeds and is no test writes none. *)
Theorem test_send_is_logged :
  let request :=
    Hook.with_test
      (Sample.request ["+359888000001"] "Visit {{ link }}" None) in
  let hook := Hook.sendSMS Sample.env request Sample.world in
  let edge :=
    Edge.handler (Sample.edge_env true (Sample.accepted 1))
      (Sample.post ["+359888000001"] "Visit {{ link }}" (Some true) None)
      Sample.world in
  let plain :=
    Hook.sendSMS Sample.env (Sample.request ["+359888000001"] "Hello" None)
      Sample.world in
  test request = Some true /\
  (exists r, fst hook = inr r /\ success r = true) /\
  map b_test (invocations (snd hook)) = [true] /\
  bulk_messages (snd hook)
  = [{| bm_type := "sms"; bm_content := "Visit {{ link }}";
        recipient_count := 1; sent_count := 1; bm_status := "completed";
        bm_campaign_id := None |}] /\
  (exists body, fst edge = inr (Edge.Json 200 body) /\ success body = true) /\
  bulk_messages (snd edge) = [] /\
  (exists r, fst plain = inr r /\ success r = true) /\
  bulk_messages (snd plain) = [].
Proof.
  cbv zeta. split; [reflexivity |].
  split; [eexists; split; [vm_compute; reflexivity | reflexivity] |].
  split; [vm_compute; reflexivity |].
  split; [vm_compute; reflexivity |].
  split; [eexists; split; [vm_compute; reflexivity | reflexivity] |].
  split; [vm_compute; reflexivity |].
  split; [eexists; split; [vm_compute; reflexivity | reflexivity] |].
  vm_compute; reflexivity.
Qed.

(** ** Configuration *)

(** C9, evaluated: without the provider's token the database-backed
    handler answers 500 and calls no provider, but only after it has
    inserted the user; the pass-through handler, which has no store,
    answers 500 before anything else. *)
Theorem missing_token_after_insert :
  let E := Sample.edge_env false (Sample.accepted 1) in
  let request := Sample.post ["+359888000001"] "Hello" None None in
  let backed := Edge.handler E request Sample.world in
  let through := Edge.serve E request Sample.world in
  deno_env E "SMSAPI_TOKEN" = None /\
  fst backed = inr (Edge.Json 500 (failure "SMSAPI token not configured")) /\
  fetches (snd backed) = [] /\
  users Sample.world = [] /\
  users (snd backed)
  = [{| user_id := "user-1-0"; phone_number := "+359888000001";
        country := "BG"; user_status := "active" |}] /\
  through
  = (inr (Edge.Json 500 (failure "SMSAPI token not configured")),
     Sample.world).
Proof. cbv zeta. repeat split; vm_compute; reflexivity. Qed.

(** ** The edge functions: what they leave untouched *)

Section EdgeFrames.
Variable E : Env.
Variable I : World -> Prop.
Hypothesis HI : store_blind I.

Lemma blind_insert_bulk_message row :
  bulk_blind I -> keeps I (Db.insert_bulk_message E row).
Proof.
  intros Hb. apply blind_request; [exact HI |].
  intros n w Hw. cbn. apply Hb. exact Hw.
Qed.

Lemma blind_fetch form : fetch_blind I -> keeps I (Edge.fetch E form).
Proof.
  intros Hf w Hw. unfold Edge.fetch.
  destruct (provider_reply E _ _); cbn; apply Hf; exact Hw.
Qed.

Lemma answer_keeps status body : keeps I (Edge.answer status body).
Proof. apply keeps_ret. Qed.

(** The last steps write the log only for a request that is no test. *)
Lemma finish_keeps c userIdMap reply :
  (Edge.test c = false -> bulk_blind I) ->
  keeps I (Edge.finish E c userIdMap reply).
Proof.
  intros Hlog. unfold Edge.finish.
  destruct reply as [e | text | smsData];
    [apply keeps_throw | apply answer_keeps |].
  destruct (Edge.error_code smsData) as [code |].
  - apply keeps_bind; [| intros _; apply answer_keeps].
    destruct (Edge.test c) eqn:Ht; [apply keeps_ret |].
    apply keeps_bind; [| intros _; apply keeps_ret].
    apply blind_insert_bulk_message. auto.
  - apply keeps_bind; [| intros _].
    { destruct (Edge.campaignId c); [| apply keeps_ret].
      destruct (api_list smsData); [| apply keeps_ret].
      match goal with |- keeps _ (match ?l with _ => _ end) => destruct l end;
        [apply keeps_ret |].
      apply keeps_bind; [| intros _; apply keeps_ret].
      apply blind_update_recipient_status. exact HI. }
    apply keeps_bind; [| intros _; apply answer_keeps].
    destruct (Edge.test c) eqn:Ht; [apply keeps_ret |].
    apply keeps_bind; [| intros _; apply keeps_ret].
    apply blind_insert_bulk_message. auto.
Qed.

(** The provider is called only with a token. *)
Lemma send_keeps c userIdMap campaignRecipientMap :
  (Edge.test c = false -> bulk_blind I) ->
  (JS.nonempty (deno_env E "SMSAPI_TOKEN") <> None -> fetch_blind I) ->
  keeps I (Edge.send E c userIdMap campaignRecipientMap).
Proof.
  intros Hlog Hfetch. unfold Edge.send.
  destruct (JS.nonempty (deno_env E "SMSAPI_TOKEN")) as [token |];
    [| apply answer_keeps].
  apply keeps_bind; [| intros reply; apply finish_keeps; exact Hlog].
  apply blind_fetch. apply Hfetch. discriminate.
Qed.

Lemma assignToken_keeps cid userIdMap existing st phone :
  keeps I (Edge.assignToken E cid userIdMap existing st phone).
Proof.
  unfold Edge.assignToken. destruct st as [m new].
  repeat keeps_step.
Qed.

Lemma campaignRecipients_keeps c userIdMap :
  (Edge.test c = false -> bulk_blind I) ->
  (JS.nonempty (deno_env E "SMSAPI_TOKEN") <> None -> fetch_blind I) ->
  keeps I (Edge.campaignRecipients E c userIdMap).
Proof.
  intros Hlog Hfetch. unfold Edge.campaignRecipients.
  destruct (Edge.campaignId c) as [cid |];
    [| apply send_keeps; assumption].
  apply keeps_bind; [apply blind_select_recipients_in; exact HI |].
  intros [msg | rows]; [apply answer_keeps |].
  apply keeps_bind;
    [apply keeps_forEach; intros; apply assignToken_keeps |].
  intros [m new].
  apply keeps_bind.
  { destruct new; [apply keeps_ret |].
    apply blind_insert_recipients. exact HI. }
  intros [msg | []]; [apply answer_keeps |].
  apply keeps_bind; [| intros _; apply send_keeps; assumption].
  destruct (JSMap.keys (JSMap.of_entries rows)); [apply keeps_ret |].
  apply keeps_bind; [| intros _; apply keeps_ret].
  apply blind_update_recipient_status. exact HI.
Qed.

Lemma resolveUsers_keeps c :
  (Edge.test c = false -> bulk_blind I) ->
  (JS.nonempty (deno_env E "SMSAPI_TOKEN") <> None -> fetch_blind I) ->
  keeps I (Edge.resolveUsers E c).
Proof.
  intros Hlog Hfetch. unfold Edge.resolveUsers.
  apply keeps_bind; [apply blind_select_users_in; exact HI |].
  intros [msg | rows]; [apply answer_keeps |].
  apply keeps_bind.
  { match goal with |- keeps _ (match ?l with _ => _ end) => destruct l end;
      [apply keeps_ret |].
    apply blind_insert_users. exact HI. }
  intros [msg | inserted]; [apply answer_keeps |].
  apply campaignRecipients_keeps; assumption.
Qed.

Lemma handler_keeps req :
  (forall rq, Edge.http_json req = inr rq ->
     or_false (Edge.rq_test rq) = false -> bulk_blind I) ->
  (JS.nonempty (deno_env E "SMSAPI_TOKEN") <> None -> fetch_blind I) ->
  keeps I (Edge.handler E req).
Proof.
  intros Hlog Hfetch. unfold Edge.handler.
  destruct (Edge.http_method req =? "OPTIONS"); [apply keeps_ret |].
  apply keeps_try_catch; [| intros e; apply answer_keeps].
  destruct (Edge.http_json req) as [e | rq]; [apply keeps_throw |].
  specialize (Hlog rq eq_refl).
  unfold Edge.handle_try.
  destruct (Edge.rq_recipients rq) as [[| p ps] |]; try apply answer_keeps.
  destruct (JS.nonempty (Edge.rq_message rq)); [| apply answer_keeps].
  destruct (JS.trim s =? ""); [apply answer_keeps |].
  destruct (JS.nonempty (deno_env E "SUPABASE_URL"));
    [| apply answer_keeps].
  destruct (JS.nonempty (deno_env E "SUPABASE_SERVICE_ROLE_KEY"));
    [| apply answer_keeps].
  destruct (JS.nonempty (Edge.rq_campaignId rq)) as [cid |];
    [| apply resolveUsers_keeps; assumption].
  destruct (JS.includes s "{{ link }}");
    [| apply resolveUsers_keeps; assumption].
  apply keeps_bind; [apply blind_select_campaign_short_id; exact HI |].
  intros [msg | short]; [apply answer_keeps |].
  apply resolveUsers_keeps; assumption.
Qed.

End EdgeFrames.

(** The database-backed handler reuses the token on record of a user:
    no token is drawn and no row is queued for insertion. *)
Lemma assignToken_reuses E cid userIdMap existing m new phone uid tok w :
  JS.nonempty (JSMap.get userIdMap phone) = Some uid ->
  JS.nonempty (JSMap.get existing uid) = Some tok ->
  Edge.assignToken E cid userIdMap existing (m, new) phone w
  = (inr (JSMap.set phone tok m, new), w).
Proof.
  intros Hu Ht. unfold Edge.assignToken. rewrite Hu, Ht. reflexivity.
Qed.

(** Two requests for the same campaign and the same new phone number:
    the second one sends the link of the first and adds no row. *)
Example handler_twice_ex :
  let E := Sample.edge_env true (Sample.accepted 1) in
  let request :=
    Sample.post ["+359888000002"] "Visit {{ link }}" None (Some "c1") in
  let w1 := snd (Edge.handler E request Sample.known) in
  let w2 := snd (Edge.handler E request w1) in
  map f_param1 (fetches w2)
  = [Some "https://your-domain.com/c/spring?token=A12Z4567";
     Some "https://your-domain.com/c/spring?token=A12Z4567"] /\
  map f_message (fetches w2) = ["Visit [%1%]"; "Visit [%1%]"] /\
  length (campaign_recipients w1) = 2 /\
  length (campaign_recipients w2) = 2 /\
  length (bulk_messages w2) = 2.
Proof. cbv zeta. repeat split; vm_compute; reflexivity. Qed.

(** The database-backed handler writes no row of the log for a test
    request. *)
Lemma handler_test_writes_no_log E req rq w :
  Edge.http_json req = inr rq ->
  Edge.rq_test rq = Some true ->
  bulk_messages (snd (Edge.handler E req w)) = bulk_messages w.
Proof.
  intros Hjson Htest.
  apply (keeps_snd (I := fun w' => bulk_messages w' = bulk_messages w));
    [| reflexivity].
  apply handler_keeps.
  - intros w0 Hw0. repeat split; intros ?; exact Hw0.
  - intros rq' Hjson' Hno. exfalso.
    rewrite Hjson in Hjson'. injection Hjson' as <-.
    rewrite Htest in Hno. discriminate.
  - intros _ w0 f Hw0. exact Hw0.
Qed.

(** Without the provider's token the database-backed handler calls no
    provider. *)
Lemma handler_without_token_fetches_nothing E req w :
  JS.nonempty (deno_env E "SMSAPI_TOKEN") = None ->
  fetches (snd (Edge.handler E req w)) = fetches w.
Proof.
  intros Htoken.
  apply (keeps_snd (I := fun w' => fetches w' = fetches w));
    [| reflexivity].
  apply handler_keeps.
  - intros w0 Hw0. repeat split; intros ?; exact Hw0.
  - intros rq' _ _ w0 f Hw0. exact Hw0.
  - intros Hne. contradiction.
Qed.

(** Without the provider's token the pass-through handler changes
    nothing at all. *)
Lemma serve_without_token_is_pure E req w :
  JS.nonempty (deno_env E "SMSAPI_TOKEN") = None ->
  snd (Edge.serve E req w) = w.
Proof.
  intros Htoken. unfold Edge.serve, Edge.serve_try, try_catch.
  destruct (Edge.http_method req =? "OPTIONS"); [reflexivity |].
  destruct (Edge.http_json req) as [e | rq]; [reflexivity |].
  destruct (Edge.rq_recipients rq) as [[| p ps] |]; try reflexivity.
  destruct (JS.nonempty (Edge.rq_message rq)); [| reflexivity].
  destruct (JS.trim s =? ""); [reflexivity |].
  rewrite Htoken. reflexivity.
Qed.

(** ** The theorems at sample inputs *)

(** Three recipients and a campaign: one call, three segments. *)
Lemma personalized_send_calls_witness :
  exists r w' calls,
    Hook.sendSMS Sample.env
      (Sample.request (Sample.crowd 3) "Visit {{ link }}" (Some "c1"))
      Sample.world = (inr r, w') /\
    invocations w' = invocations Sample.world ++ calls /\
    length calls = 1 /\
    Forall (fun call =>
              exists p,
                b_param1 call = Some p /\
                length (JS.split "|" p) = length (b_recipients call)) calls.
Proof.
  destruct (@personalized_send_calls Sample.env
              (Sample.request (Sample.crowd 3) "Visit {{ link }}" (Some "c1"))
              (map Some (Sample.crowd 3)) Sample.world)
    as (r & w' & calls & Hrun & Hinv & Hlen & _ & Hall).
  - reflexivity.
  - discriminate.
  - reflexivity.
  - exists r, w', calls.
    split; [exact Hrun |]. split; [exact Hinv |]. split; [exact Hlen |].
    eapply Forall_impl; [| exact Hall].
    intros call (_ & links & Hp & Hlinks & _ & Hsplit).
    exists (JS.join "|" links). split; [exact Hp |].
    rewrite Hsplit; [exact Hlinks |].
    split; [reflexivity | constructor].
Defined.

(** One recipient, sent: the result is a success. *)
Lemma personalized_success_iff_sent_witness :
  exists r w',
    Hook.sendSMS Sample.env
      (Sample.request (Sample.crowd 1) "Visit {{ link }}" None)
      Sample.world = (inr r, w') /\
    exists n, sentCount r = Some n /\ success r = negb (n =? 0)%Z.
Proof.
  destruct (@personalized_success_iff_sent Sample.env
              (Sample.request (Sample.crowd 1) "Visit {{ link }}" None)
              (map Some (Sample.crowd 1)) Sample.world)
    as (r & w' & calls & n & errs & Hrun & _ & _ & Hn & _ & Hs & _).
  - reflexivity.
  - discriminate.
  - reflexivity.
  - exists r, w'. split; [exact Hrun |]. exists n. split; assumption.
Defined.

(** 101 recipients: two batches, two reports and the final [100]. *)
Lemma personalized_progress_witness :
  exists r w',
    Hook.sendSMS Sample.env
      (Sample.request (Sample.crowd 101) "Visit {{ link }}" None)
      Sample.world = (inr r, w') /\
    progress w' =
      [0%float; progress_after 1 2; progress_after 2 2; 100%float].
Proof.
  destruct (@personalized_progress Sample.env
              (Sample.request (Sample.crowd 101) "Visit {{ link }}" None)
              (map Some (Sample.crowd 101)) Sample.world)
    as (r & w' & Hrun & Hprog).
  - reflexivity.
  - discriminate.
  - reflexivity.
  - exists r, w'. split; [exact Hrun | exact Hprog].
Defined.

(** A known recipient of the campaign: the token on record, twice. *)
Lemma resolution_idempotent_witness :
  let request :=
    Sample.request ["+359888000001"] "Visit {{ link }}" (Some "c1") in
  exists tok,
    fst (Hook.resolveToken Sample.env request true "+359888000001"
           Sample.known) = inr tok /\
    fst (Hook.resolveToken Sample.env request true "+359888000001"
           (snd (Hook.resolveToken Sample.env request true "+359888000001"
                   Sample.known))) = inr tok.
Proof.
  intros request.
  assert (Hup : unique_phones Sample.known)
    by (repeat constructor; intros []).
  assert (Hur : unique_recipients Sample.known)
    by (repeat constructor; intros []).
  pose proof (@resolution_idempotent Sample.env request true
                "c1" "+359888000001" Sample.known eq_refl Hup Hur) as H.
  destruct (Hook.resolveToken Sample.env request true "+359888000001"
              Sample.known) as [first w1].
  cbn [snd fst].
  destruct (Hook.resolveToken Sample.env request true "+359888000001" w1)
    as [second w2].
  destruct H as (_ & Hret & _). apply Hret. intros n. reflexivity.
Defined.

(** The user cannot be looked up nor inserted: the recipient is sent all
    the same, without a link. *)
Lemma failed_recipient_is_sent_without_link_witness :
  let E := Sample.flaky [1; 2] in
  let request :=
    Sample.request ["+359888000001"; "+359888000002"] "Visit {{ link }}"
      (Some "c1") in
  exists results' w' links,
    Hook.processBatch E request true 1 0 (Hook.initial_results 2)
      ["+359888000001"; "+359888000002"] Sample.world = (inr results', w') /\
    length links = 2 /\ nth 0 links "-" = "" /\
    In "+359888000001: Unknown error" (Hook.r_errors results').
Proof.
  intros E request.
  destruct (@failed_recipient_is_sent_without_link E request true 1 0
              (Hook.initial_results 2) [] ["+359888000002"] "+359888000001"
              (Hook.initial_results 2, [], []) Sample.world Sample.world
              (snd (Hook.resolveToken E request true "+359888000001"
                      Sample.world))
              (Exn false "connection lost"))
    as (results' & w' & links & Hrun & _ & Hlen & Hnth & Hin & _).
  - reflexivity.
  - vm_compute. reflexivity.
  - exists results', w', links. repeat split; assumption.
Defined.

(** The lookup of a user on record fails on the way: the insert is
    refused and the violation is thrown. *)
Lemma uniqueness_violation_is_thrown_witness :
  existsb (Db.user_has_phone "+359888000001") (users Sample.known) = true /\
  Hook.findOrCreateUser (Sample.flaky [0]) "+359888000001" Sample.known
  = (inl (Exn false Db.duplicate_key),
     set_db_requests (fun n => S (S n)) Sample.known).
Proof.
  split; [reflexivity |].
  apply (@uniqueness_violation_is_thrown (Sample.flaky [0])
           (Sample.request [] "" None) true "+359888000001" "c1" "u1"
           "connection lost" Sample.known);
    reflexivity.
Defined.

(** * Further properties of the code *)

(** ** The hook: which path a request takes *)

Section HookPaths.
Variable E : Env.

Lemma sendSMS_try_no_recipients request w :
  recipients request = None \/ recipients request = Some [] ->
  Hook.sendSMS_try E request w = (inl (Error "No recipients provided"), w).
Proof. intros [H | H]; unfold Hook.sendSMS_try; rewrite H; reflexivity. Qed.

Lemma sendSMS_try_no_valid request rs w :
  recipients request = Some rs -> rs <> [] ->
  Hook.validRecipients rs = [] ->
  Hook.sendSMS_try E request w
  = (inl (Error "No valid recipients found"), w).
Proof.
  intros Hrs Hne Hv. unfold Hook.sendSMS_try. rewrite Hrs.
  destruct rs as [| p rs]; [contradiction Hne; reflexivity |].
  rewrite Hv. reflexivity.
Qed.

Lemma sendSMS_try_plain request rs w :
  recipients request = Some rs ->
  Hook.validRecipients rs <> [] ->
  JS.truthy (campaignId request) = false ->
  JS.includes (message request) "{{ link }}" = false ->
  Hook.sendSMS_try E request w
  = Hook.sendBulkSMS E (Hook.validRecipients rs) (message request)
      (sender request) (test request) None w.
Proof.
  intros Hrs Hvalid Hc Hl. unfold Hook.sendSMS_try. rewrite Hrs.
  destruct rs as [| p rs]; [contradiction Hvalid; reflexivity |].
  destruct (Hook.validRecipients (p :: rs)) as [| v valid] eqn:Hv;
    [contradiction Hvalid; reflexivity |].
  rewrite Hc, Hl. reflexivity.
Qed.

(** [sendBulkSMS] makes its one call and hands on what came back. *)
Lemma sendBulkSMS_run rs msg snd tst p1 w :
  let body := {| b_recipients := rs; b_message := JS.trim msg;
                 b_sender := JS.or_else snd "BulkComm";
                 b_test := or_false tst; b_param1 := p1 |} in
  let w1 := set_invocations (fun l => l ++ [body]) w in
  let w2 := set_progress (fun l => l ++ [100%float]) w1 in
  Hook.sendBulkSMS E rs msg snd tst p1 w =
  match invoke_reply E (length (invocations w)) body with
  | InvokeThrows e => (inl e, w1)
  | InvokeError err => (inl (Error (Hook.bulk_error_message err)), w2)
  | InvokeData data => (inr data, w2)
  end.
Proof.
  cbv zeta.
  unfold Hook.sendBulkSMS, try_catch, bind, Hook.invoke, Hook.setProgress,
    update, throw, ret.
  destruct (invoke_reply E _ _); reflexivity.
Qed.

End HookPaths.

(** ** The hook: requests that are refused *)

(** X1: a request whose [recipients] are missing or empty is answered
    with [success = false] and the error ["No recipients provided"];
    nothing is sent, stored or logged: the only effects are the raising
    and the lowering of [sending] and the reset of [progress]. *)
Theorem sendSMS_without_recipients (E : Env) (request : SMSRequest)
  (w : World) :
  recipients request = None \/ recipients request = Some [] ->
  Hook.sendSMS E request w
  = (inr (failure "No recipients provided"),
     set_sending (fun l => l ++ [false]) (started w)).
Proof.
  intros H. rewrite sendSMS_run, (@sendSMS_try_no_recipients E request (started w) H).
  reflexivity.
Qed.

(** X2: a request none of whose recipients passes the filter (every
    entry is [null], empty, blank, ["null"] or ["undefined"]) is answered
    with [success = false] and the error ["No valid recipients found"],
    and nothing is sent, stored or logged. *)
Theorem sendSMS_without_valid_recipients (E : Env) (request : SMSRequest)
  (rs : list (option string)) (w : World) :
  recipients request = Some rs -> rs <> [] ->
  Forall (fun p => match p with
                   | Some phone => Hook.is_valid phone = false
                   | None => True
                   end) rs ->
  Hook.sendSMS E request w
  = (inr (failure "No valid recipients found"),
     set_sending (fun l => l ++ [false]) (started w)).
Proof.
  intros Hrs Hne Hall.
  assert (Hv : Hook.validRecipients rs = []).
  { clear Hrs Hne. unfold Hook.validRecipients.
    induction Hall as [| p l Hp _ IH]; [reflexivity |].
    simpl. rewrite IH. destruct p as [phone |]; [| reflexivity].
    rewrite Hp. reflexivity. }
  rewrite sendSMS_run, (@sendSMS_try_no_valid E request rs (started w) Hrs Hne Hv).
  reflexivity.
Qed.

(** ** The hook: the plain path *)

(** X3: a request without campaign and without the placeholder is sent
    in one call of the gateway, however many recipients it has: the call
    carries all valid recipients as they were given (not normalized), the
    trimmed message, the sender (["BulkComm"] by default), the test flag
    and no [param1]; the store is not touched. *)
Theorem plain_send_is_one_call (E : Env) (request : SMSRequest)
  (rs : list (option string)) (w : World) :
  recipients request = Some rs ->
  Hook.validRecipients rs <> [] ->
  JS.truthy (campaignId request) = false ->
  JS.includes (message request) "{{ link }}" = false ->
  let w' := snd (Hook.sendSMS E request w) in
  invocations w'
  = invocations w ++
    [{| b_recipients := Hook.validRecipients rs;
        b_message := JS.trim (message request);
        b_sender := JS.or_else (sender request) "BulkComm";
        b_test := or_false (test request);
        b_param1 := None |}] /\
  users w' = users w /\ campaigns w' = campaigns w /\
  campaign_recipients w' = campaign_recipients w /\
  bulk_messages w' = bulk_messages w /\
  db_requests w' = db_requests w /\ randoms w' = randoms w /\
  fetches w' = fetches w.
Proof.
  intros Hrs Hvalid Hc Hl. cbv zeta.
  rewrite sendSMS_run,
    (@sendSMS_try_plain E request rs (started w) Hrs Hvalid Hc Hl),
    sendBulkSMS_run.
  destruct (invoke_reply E _ _); cbn; repeat split.
Qed.

(** X4: on the plain path the result is the reply of the gateway,
    unchanged, when the call resolves to data; a gateway error becomes a
    failure whose text is chosen by [sendBulkSMS] (connection, non-2xx
    status, the error of the context, the message of the error), and an
    exception of the call a failure with its message.  In each case
    [sending] is raised and lowered once. *)
Theorem plain_send_result (E : Env) (request : SMSRequest)
  (rs : list (option string)) (w : World) :
  recipients request = Some rs ->
  Hook.validRecipients rs <> [] ->
  JS.truthy (campaignId request) = false ->
  JS.includes (message request) "{{ link }}" = false ->
  let body := {| b_recipients := Hook.validRecipients rs;
                 b_message := JS.trim (message request);
                 b_sender := JS.or_else (sender request) "BulkComm";
                 b_test := or_false (test request);
                 b_param1 := None |} in
  exists r w',
    Hook.sendSMS E request w = (inr r, w') /\
    sending w' = sending w ++ [true; false] /\
    match invoke_reply E (length (invocations w)) body with
    | InvokeData data => r = data
    | InvokeError err =>
        r = failure (Hook.bulk_error_message err) /\
        success r = false /\
        error r
        = Some (match fe_message err with
                | Some msg =>
                    if JS.includes msg "Failed to fetch" then
                      "Unable to connect to SMS service. Please check your internet connection and Supabase configuration."
                    else if JS.includes msg "non-2xx status" then
                      "SMS service returned an error. Please check that SMSAPI_TOKEN is configured in Supabase Edge Functions settings."
                    else
                      match fe_context_error err with
                      | Some ctx => if ctx =? "" then
                                      (if msg =? "" then "SMS sending failed" else msg)
                                    else ctx
                      | None => if msg =? "" then "SMS sending failed" else msg
                      end
                | None =>
                    match fe_context_error err with
                    | Some ctx => if ctx =? "" then "SMS sending failed" else ctx
                    | None => "SMS sending failed"
                    end
                end)
    | InvokeThrows e =>
        r = failure (message_of e "Unknown error occurred")
    end.
Proof.
  intros Hrs Hvalid Hc Hl. cbv zeta.
  rewrite sendSMS_run,
    (@sendSMS_try_plain E request rs (started w) Hrs Hvalid Hc Hl),
    sendBulkSMS_run.
  change (length (invocations (started w))) with (length (invocations w)).
  destruct (invoke_reply E _ _) as [e | err | data]; eexists; eexists;
    (split; [reflexivity |]); cbn; rewrite <- !app_assoc;
    (split; [reflexivity |]); try reflexivity.
  split; [reflexivity |]. split; [reflexivity |].
  unfold Hook.bulk_error_message. f_equal.
  destruct (fe_message err) as [msg |]; cbn.
  - destruct (JS.includes msg "Failed to fetch"); [reflexivity |].
    destruct (JS.includes msg "non-2xx status"); [reflexivity |].
    destruct (fe_context_error err) as [ctx |]; cbn;
      [destruct (ctx =? "") |]; reflexivity.
  - destruct (fe_context_error err) as [ctx |]; cbn;
      [destruct (ctx =? "") |]; reflexivity.
Qed.

(** ** The hook: what every send leaves behind *)

Lemma sendSMS_try_cases E request w :
  (exists msg, Hook.sendSMS_try E request w = (inl (Error msg), w)) \/
  (exists rs,
     recipients request = Some rs /\ Hook.validRecipients rs <> [] /\
     ((JS.truthy (campaignId request) = false /\
       JS.includes (message request) "{{ link }}" = false) \/
      JS.truthy (campaignId request) ||
      JS.includes (message request) "{{ link }}" = true)).
Proof.
  destruct (recipients request) as [rs |] eqn:Hrs.
  - destruct rs as [| p rs].
    + left. eexists. apply sendSMS_try_no_recipients. auto.
    + destruct (Hook.validRecipients (p :: rs)) as [| v valid] eqn:Hv.
      * left. eexists. eapply sendSMS_try_no_valid; eauto. discriminate.
      * right. exists (p :: rs). split; [reflexivity |].
        split; [rewrite Hv; discriminate |].
        destruct (JS.truthy (campaignId request)); [right; reflexivity |].
        destruct (JS.includes (message request) "{{ link }}");
          [right; reflexivity | left; split; reflexivity].
  - left. eexists. apply sendSMS_try_no_recipients. auto.
Qed.

(** The calls of the gateway that a send makes carry the test flag and
    the sender of the request; the send raises and lowers [sending] once,
    resets the progress first, and calls no provider itself. *)
Lemma sendSMS_footprint E request w :
  exists r w' calls ps,
    Hook.sendSMS E request w = (inr r, w') /\
    invocations w' = invocations w ++ calls /\
    Forall (fun b => b_test b = or_false (test request) /\
                     b_sender b = JS.or_else (sender request) "BulkComm")
      calls /\
    sending w' = sending w ++ [true; false] /\
    progress w' = progress w ++ 0%float :: ps /\
    fetches w' = fetches w.
Proof.
  rewrite sendSMS_run.
  destruct (sendSMS_try_cases E request (started w))
    as [(msg & ->) | (rs & Hrs & Hvalid & [(Hc & Hl) | Hpath])].
  - eexists; eexists; exists [], []. split; [reflexivity |]. cbn.
    rewrite app_nil_r, <- app_assoc. repeat split. constructor.
  - rewrite (@sendSMS_try_plain E request rs (started w) Hrs Hvalid Hc Hl),
      sendBulkSMS_run.
    destruct (invoke_reply E _ _);
      eexists; eexists; eexists; eexists; (split; [reflexivity |]); cbn;
      rewrite <- !app_assoc;
      (split; [reflexivity |]);
      (split; [repeat constructor |]); repeat split.
  - rewrite (@sendSMS_try_personalized E request rs (started w)
               Hrs Hvalid Hpath).
    destruct (sendPersonalized_spec E request (Hook.validRecipients rs)
                (JS.includes (message request) "{{ link }}") (started w))
      as (looped & w1 & w' & -> & Hpost & Hinv & Hprog & Hsend & Hfetch & _).
    destruct Hpost as (calls & Hcalls & Hcall & Hp1 & Hs1 & Hf1 & _).
    cbn in Hcalls, Hp1, Hs1, Hf1.
    eexists; eexists; exists calls; eexists.
    split; [reflexivity |]. cbn.
    split; [rewrite Hinv; exact Hcalls |].
    split.
    { clear - Hcall. induction Hcall as [| b c bs cs Hc _ IH];
        constructor; [| exact IH].
      destruct Hc as (links & -> & _). split; reflexivity. }
    split; [rewrite Hsend, Hs1, <- app_assoc; reflexivity |].
    split; [rewrite Hprog, Hp1, <- !app_assoc; reflexivity |].
    rewrite Hfetch. exact Hf1.
Qed.

(** X5: whatever the request, every call of the gateway that [testSMS]
    makes carries [test = true] (and the sender of the request,
    ["BulkComm"] when it names none). *)
Theorem testSMS_calls_are_tests (E : Env) (request : SMSRequest)
  (w : World) :
  exists calls,
    invocations (snd (Hook.testSMS E request w)) = invocations w ++ calls /\
    Forall (fun b => b_test b = true /\
                     b_sender b = JS.or_else (sender request) "BulkComm")
      calls.
Proof.
  unfold Hook.testSMS.
  destruct (sendSMS_footprint E (Hook.with_test request) w)
    as (r & w' & calls & ps & -> & Hinv & Hall & _).
  exists calls. split; [exact Hinv | exact Hall].
Qed.

(** X6: whatever the request and whatever fails, [sendSMS] raises
    [sending] once and lowers it once, in this order, reports the
    progress [0] before anything else, and calls no provider itself. *)
Theorem sendSMS_raises_and_lowers_sending (E : Env) (request : SMSRequest)
  (w : World) :
  let w' := snd (Hook.sendSMS E request w) in
  sending w' = sending w ++ [true; false] /\
  (exists ps, progress w' = progress w ++ 0%float :: ps) /\
  fetches w' = fetches w.
Proof.
  cbv zeta.
  destruct (sendSMS_footprint E request w)
    as (r & w' & calls & ps & -> & _ & _ & Hs & Hp & Hf).
  split; [exact Hs |]. split; [exists ps; exact Hp | exact Hf].
Qed.

(** ** The hook: a campaign without the placeholder *)

Lemma calls_without_links E request (J : Prop) w batches calls :
  Forall (fun b => 0 < length b <= Hook.batchSize) batches ->
  Forall2 (call_of E request false J w) batches calls ->
  length calls = length batches /\
  concat (map b_recipients calls)
  = map (normalizePhoneNumber E) (concat batches) /\
  Forall (fun call =>
            0 < length (b_recipients call) <= 100 /\
            b_param1 call = None /\
            b_message call = JS.trim (message request)) calls.
Proof.
  intros Hsizes Hcalls.
  induction Hcalls as [| batch call batches calls Hc Hrest IH].
  - repeat split; constructor.
  - inversion Hsizes as [| ? ? Hsize Hsizes']; subst.
    destruct (IH Hsizes') as (Hlen & Hcat & Hall).
    destruct Hc as (links & -> & _).
    split; [simpl; congruence |]. split.
    + simpl. rewrite Hcat, map_app. reflexivity.
    + constructor; [| exact Hall]. cbn.
      rewrite length_map. split; [exact Hsize |]. split; reflexivity.
Qed.

(** X7: a send for a campaign whose message does not hold the
    placeholder is batched like a personalized one: with [N] valid
    recipients it makes [ceil (N / 100)] calls, which carry the
    normalized recipients in order, between 1 and 100 each, the trimmed
    message as it is and no [param1]. *)
Theorem campaign_send_without_placeholder (E : Env) (request : SMSRequest)
  (rs : list (option string)) (w : World) :
  recipients request = Some rs ->
  Hook.validRecipients rs <> [] ->
  JS.truthy (campaignId request) = true ->
  JS.includes (message request) "{{ link }}" = false ->
  exists r w' calls,
    Hook.sendSMS E request w = (inr r, w') /\
    invocations w' = invocations w ++ calls /\
    length calls = ceil_div (length (Hook.validRecipients rs)) 100 /\
    concat (map b_recipients calls)
    = map (normalizePhoneNumber E) (Hook.validRecipients rs) /\
    Forall (fun call =>
              0 < length (b_recipients call) <= 100 /\
              b_param1 call = None /\
              b_message call = JS.trim (message request)) calls.
Proof.
  intros Hrs Hvalid Hc Hl. rewrite sendSMS_run.
  assert (Hpath : JS.truthy (campaignId request) ||
                  JS.includes (message request) "{{ link }}" = true)
    by (rewrite Hc; reflexivity).
  rewrite (@sendSMS_try_personalized E request rs (started w)
             Hrs Hvalid Hpath), Hl.
  destruct (sendPersonalized_spec E request (Hook.validRecipients rs) false
              (started w))
    as (looped & w1 & w' & -> & Hpost & Hinv & _).
  destruct Hpost as (calls & Hcalls & Hcall & _).
  cbn in Hcalls.
  destruct (calls_without_links
              (batches_from_sizes (Hook.validRecipients rs) 0) Hcall)
    as (Hlen & Hcat & Hall).
  eexists; eexists; exists calls. split; [reflexivity |]. cbn.
  split; [rewrite Hinv; exact Hcalls |].
  split; [rewrite Hlen, batches_from_length, Nat.sub_0_r; reflexivity |].
  split; [rewrite Hcat, batches_from_concat; reflexivity | exact Hall].
Qed.

(** ** Tokens *)

Lemma digit36_alnum d :
  is_alnum_upper (JS.upper (Token.digit36 d)) = true.
Proof.
  unfold Token.digit36.
  pose proof (Nat.mod_upper_bound d 36 ltac:(discriminate)) as Hlt.
  generalize dependent (d mod 36). intros k Hlt.
  do 36 (destruct k as [| k]; [reflexivity |]). lia.
Qed.

Lemma token_of_digits ds :
  String.length (JS.toUpperCase (Token.string_of_digits ds)) = length ds /\
  all_chars is_alnum_upper (JS.toUpperCase (Token.string_of_digits ds))
  = true.
Proof.
  induction ds as [| d ds [IH1 IH2]]; [split; reflexivity |].
  cbn [Token.string_of_digits JS.toUpperCase String.length all_chars length].
  rewrite digit36_alnum, IH1, IH2. split; reflexivity.
Qed.

(** X8: a token drawn by
    [Math.random().toString(36).substring(2, 10).toUpperCase()] has at
    most eight characters, each a digit or an upper-case letter; it has
    fewer, down to none, when the random number prints fewer digits.
    Drawing it uses up one random number and changes nothing else. *)
Theorem generated_token_shape (E : Env) (w : World) :
  exists tok,
    Token.generate E w = (inr tok, set_randoms S w) /\
    String.length tok = Nat.min 8 (length (math_random E (randoms w))) /\
    all_chars is_alnum_upper tok = true.
Proof.
  unfold Token.generate. eexists. split; [reflexivity |].
  destruct (token_of_digits (firstn 8 (math_random E (randoms w))))
    as [H1 H2].
  split; [rewrite H1; apply length_firstn | exact H2].
Qed.

(** ** What the code writes *)

Lemma writes_trans w1 w2 w3 : writes w1 w2 -> writes w2 w3 -> writes w1 w3.
Proof.
  intros H12 H23. induction H23 as [| w2 w3 w4 _ IH Hw]; [exact H12 |].
  eapply writes_step; [apply IH; exact H12 | exact Hw].
Qed.

Lemma writes_one w w' : write w w' -> writes w w'.
Proof. intros H. eapply writes_step; [apply writes_refl | exact H]. Qed.

Section TameRules.
Context {A B : Type}.

Lemma tame_ret (a : A) : tame (ret a).
Proof. intros w. apply writes_refl. Qed.

Lemma tame_throw (e : exn) : tame (@throw A e).
Proof. intros w. apply writes_refl. Qed.

Lemma tame_bind (c : M A) (k : A -> M B) :
  tame c -> (forall a, tame (k a)) -> tame (bind c k).
Proof.
  intros Hc Hk w. specialize (Hc w). unfold bind.
  destruct (c w) as [[e | a] w']; [exact Hc |].
  eapply writes_trans; [exact Hc | apply Hk].
Qed.

Lemma tame_try_catch (c : M A) (h : exn -> M A) :
  tame c -> (forall e, tame (h e)) -> tame (try_catch c h).
Proof.
  intros Hc Hh w. specialize (Hc w). unfold try_catch.
  destruct (c w) as [[e | a] w']; [| exact Hc].
  eapply writes_trans; [exact Hc | apply Hh].
Qed.

Lemma tame_finally (c : M A) (f : M unit) :
  tame c -> tame f -> tame (finally c f).
Proof.
  intros Hc Hf w. specialize (Hc w). unfold finally.
  destruct (c w) as [r w']. specialize (Hf w').
  destruct (f w') as [[e | []] w'']; eapply writes_trans; eassumption.
Qed.

Lemma tame_forEach {S} (body : S -> A -> M S) l s :
  (forall s x, tame (body s x)) -> tame (forEach body l s).
Proof.
  intros Hbody. revert s. induction l as [| x l IH]; intros s; simpl.
  - intros w. apply writes_refl.
  - intros w. specialize (Hbody s x w). unfold bind.
    destruct (body s x w) as [[e | s'] w']; [exact Hbody |].
    eapply writes_trans; [exact Hbody | apply IH].
Qed.

End TameRules.

Section TamePrimitives.
Variable E : Env.

Lemma tame_request {A} (op : nat -> World -> DbResult A * World) :
  (forall n w, writes w (snd (op n w))) -> tame (Db.request E op).
Proof.
  intros Hop w. unfold Db.request.
  destruct (db_fault E (db_requests w)); cbn.
  - apply writes_one. constructor.
  - eapply writes_trans; [apply writes_one; apply write_request |].
    specialize (Hop (db_requests w) (set_db_requests S w)).
    destruct (op (db_requests w) (set_db_requests S w)). exact Hop.
Qed.

Lemma tame_select_campaign_short_id cid :
  tame (Db.select_campaign_short_id E cid).
Proof. apply tame_request. intros; apply writes_refl. Qed.

Lemma tame_select_user_id phone : tame (Db.select_user_id E phone).
Proof. apply tame_request. intros; apply writes_refl. Qed.

Lemma tame_select_users_in phones : tame (Db.select_users_in E phones).
Proof. apply tame_request. intros; apply writes_refl. Qed.

Lemma tame_select_recipient_token cid uid :
  tame (Db.select_recipient_token E cid uid).
Proof. apply tame_request. intros; apply writes_refl. Qed.

Lemma tame_select_recipients_in cid uids :
  tame (Db.select_recipients_in E cid uids).
Proof. apply tame_request. intros; apply writes_refl. Qed.

(** An insert that is accepted appends its rows. *)
Lemma add_users_app rows : forall tbl tbl',
  Db.add_users tbl rows = Some tbl' -> tbl' = tbl ++ rows.
Proof.
  induction rows as [| u rows IH]; intros tbl tbl'; simpl.
  - intros H. injection H as <-. symmetry. apply app_nil_r.
  - destruct (existsb _ tbl); [discriminate |].
    intros H. rewrite (IH _ _ H), <- app_assoc. reflexivity.
Qed.

Lemma add_recipients_app rows : forall tbl tbl',
  Db.add_recipients tbl rows = Some tbl' -> tbl' = tbl ++ rows.
Proof.
  induction rows as [| r rows IH]; intros tbl tbl'; simpl.
  - intros H. injection H as <-. symmetry. apply app_nil_r.
  - destruct (existsb _ tbl); [discriminate |].
    intros H. rewrite (IH _ _ H), <- app_assoc. reflexivity.
Qed.

Lemma tame_insert_users rows :
  Forall (fun r : string * string * string => snd r = "active") rows ->
  tame (Db.insert_users E rows).
Proof.
  intros Hrows. apply tame_request. intros n w. cbv beta zeta.
  match goal with
  | |- context [Db.add_users ?t ?r] =>
      set (new := r); destruct (Db.add_users t new) as [tbl |] eqn:Hadd
  end; cbn; [| apply writes_refl].
  apply add_users_app in Hadd. subst tbl.
  apply writes_one. apply (write_users w (rows := new)).
  subst new. apply Forall_forall. intros u Hu.
  apply in_map_iff in Hu as ([j [[phone ctry] st]] & <- & Hin).
  apply in_combine_r in Hin.
  rewrite Forall_forall in Hrows. apply (Hrows _ Hin).
Qed.

Lemma tame_insert_recipients rows :
  Forall (fun r => cr_status r = "sent") rows ->
  tame (Db.insert_recipients E rows).
Proof.
  intros Hrows. apply tame_request. intros n w.
  destruct (Db.add_recipients (campaign_recipients w) rows) as [tbl |] eqn:Hadd;
    cbn; [| apply writes_refl].
  apply add_recipients_app in Hadd. subst tbl.
  apply writes_one. apply (write_recipients w (rows := rows)). exact Hrows.
Qed.

Lemma tame_update_recipient_status cid uids :
  tame (Db.update_recipient_status E cid uids "sent").
Proof.
  apply tame_request. intros n w. cbn.
  apply writes_one. apply (write_status w cid uids).
Qed.

Lemma tame_insert_bulk_message row :
  bm_type row = "sms" -> tame (Db.insert_bulk_message E row).
Proof.
  intros Hrow. apply tame_request. intros n w. cbn.
  apply writes_one. apply write_log. exact Hrow.
Qed.

Lemma tame_generate : tame (Token.generate E).
Proof. intros w. cbn. apply writes_one. constructor. Qed.

Lemma tame_invoke body : tame (Hook.invoke E body).
Proof.
  intros w. unfold Hook.invoke.
  destruct (invoke_reply E _ _); cbn; apply writes_one; constructor.
Qed.

Lemma tame_fetch form : tame (Edge.fetch E form).
Proof.
  intros w. unfold Edge.fetch.
  destruct (provider_reply E _ _); cbn; apply writes_one; constructor.
Qed.

Lemma tame_setSending b : tame (Hook.setSending b).
Proof. intros w. cbn. apply writes_one. constructor. Qed.

Lemma tame_setProgress p : tame (Hook.setProgress p).
Proof. intros w. cbn. apply writes_one. constructor. Qed.

End TamePrimitives.

Ltac tame_step :=
  match goal with
  | |- tame (bind _ _) => apply tame_bind; [| intros ?]
  | |- tame (ret _) => apply tame_ret
  | |- tame (throw _) => apply tame_throw
  | |- tame (try_catch _ _) => apply tame_try_catch; [| intros ?]
  | |- tame (Edge.answer _ _) => apply tame_ret
  | |- tame (Db.select_campaign_short_id _ _) =>
      apply tame_select_campaign_short_id
  | |- tame (Db.select_user_id _ _) => apply tame_select_user_id
  | |- tame (Db.select_users_in _ _) => apply tame_select_users_in
  | |- tame (Db.select_recipient_token _ _ _) =>
      apply tame_select_recipient_token
  | |- tame (Db.select_recipients_in _ _ _) =>
      apply tame_select_recipients_in
  | |- tame (Db.insert_users _ _) =>
      apply tame_insert_users; repeat constructor
  | |- tame (Db.insert_recipients _ _) =>
      apply tame_insert_recipients; repeat constructor
  | |- tame (Db.update_recipient_status _ _ _ "sent") =>
      apply tame_update_recipient_status
  | |- tame (Db.insert_bulk_message _ _) =>
      apply tame_insert_bulk_message; reflexivity
  | |- tame (Token.generate _) => apply tame_generate
  | |- tame (Hook.invoke _ _) => apply tame_invoke
  | |- tame (Edge.fetch _ _) => apply tame_fetch
  | |- tame (Hook.setSending _) => apply tame_setSending
  | |- tame (Hook.setProgress _) => apply tame_setProgress
  | |- tame (match ?x with _ => _ end) => destruct x
  | |- tame (if ?x then _ else _) => destruct x
  end.

Section TameHook.
Variable E : Env.

Lemma tame_processRecipient request h st phone :
  tame (Hook.processRecipient E request h st phone).
Proof.
  destruct st as [[results brs] bls].
  unfold Hook.processRecipient, Hook.resolveLink, Hook.resolveToken,
    Hook.findOrCreateUser, Hook.findOrCreateRecipient.
  repeat tame_step.
Qed.

Lemma tame_processBatch request h total i results batch :
  tame (Hook.processBatch E request h total i results batch).
Proof.
  unfold Hook.processBatch.
  apply tame_bind;
    [apply tame_forEach; intros; apply tame_processRecipient |].
  intros [[results' brs] bls]. unfold Hook.sendBatch.
  repeat tame_step.
Qed.

Lemma tame_batchLoop request h total batches :
  forall i results, tame (Hook.batchLoop E request h total i batches results).
Proof.
  induction batches as [| batch batches IH]; intros i results; simpl.
  - apply tame_ret.
  - apply tame_bind; [apply tame_processBatch | intros r; apply IH].
Qed.

Lemma tame_sendSMS request : tame (Hook.sendSMS E request).
Proof.
  unfold Hook.sendSMS.
  apply tame_bind; [apply tame_setSending | intros _].
  apply tame_bind; [apply tame_setProgress | intros _].
  apply tame_finally; [| apply tame_setSending].
  apply tame_try_catch; [| intros e; apply tame_ret].
  unfold Hook.sendSMS_try.
  destruct (recipients request) as [[| p rs] |]; try apply tame_throw.
  destruct (Hook.validRecipients (p :: rs)); [apply tame_throw |].
  destruct (negb (JS.truthy (campaignId request)) &&
            negb (JS.includes (message request) "{{ link }}")).
  - unfold Hook.sendBulkSMS. repeat tame_step.
  - unfold Hook.sendPersonalized, Hook.logSMSCampaign.
    apply tame_bind; [apply tame_batchLoop | intros looped].
    repeat tame_step.
Qed.

End TameHook.

(** ** Elementary changes only extend the store *)

Lemma extends_refl w : extends w w.
Proof.
  split; [exists []; split; [symmetry; apply app_nil_r | constructor] |].
  split; [reflexivity |].
  split.
  - exists (campaign_recipients w), [].
    split; [symmetry; apply app_nil_r |].
    split; [| constructor].
    induction (campaign_recipients w); constructor; [left; reflexivity | auto].
  - exists []. split; [symmetry; apply app_nil_r | constructor].
Qed.

Lemma mark_sent_kept cid uids r r' :
  row_kept r r' -> row_kept r (mark_sent cid uids r').
Proof.
  unfold mark_sent.
  destruct ((cr_campaign_id r' =? cid) &&
            existsb (String.eqb (cr_user_id r')) uids); [| auto].
  intros [-> | ->]; right; reflexivity.
Qed.

Lemma mark_sent_status cid uids r :
  cr_status r = "sent" -> cr_status (mark_sent cid uids r) = "sent".
Proof.
  unfold mark_sent.
  destruct ((cr_campaign_id r =? cid) &&
            existsb (String.eqb (cr_user_id r)) uids); [reflexivity | auto].
Qed.

Lemma extends_write w w1 w2 : extends w w1 -> write w1 w2 -> extends w w2.
Proof.
  intros (Hu & Hc & Hr & Hb) Hw.
  destruct Hu as (us & Hus & Husf).
  destruct Hr as (old & new & Hrs & Hold & Hnew).
  destruct Hb as (rows & Hrows & Hrowsf).
  assert (Hsame : extends w w1).
  { split; [exists us; auto |]. split; [exact Hc |].
    split; [exists old, new; auto | exists rows; auto]. }
  destruct Hw as [w1 | w1 | w1 rows' Hact | w1 rows' Hsent | w1 cid uids
                 | w1 row Hrow | w1 body | w1 form | w1 b | w1 p];
    try exact Hsame; clear Hsame; unfold extends; cbn.
  - split.
    { exists (us ++ rows'). rewrite Hus, <- app_assoc.
      split; [reflexivity | apply Forall_app; auto]. }
    eauto 10.
  - split; [eauto |]. split; [exact Hc |]. split; [| eauto].
    exists old, (new ++ rows'). rewrite Hrs, <- app_assoc.
    split; [reflexivity |]. split; [exact Hold | apply Forall_app; auto].
  - split; [eauto |]. split; [exact Hc |]. split; [| eauto].
    exists (map (mark_sent cid uids) old), (map (mark_sent cid uids) new).
    rewrite Hrs, map_app. split; [reflexivity |]. split.
    + clear - Hold. induction Hold; constructor; [| assumption].
      apply mark_sent_kept. assumption.
    + clear - Hnew. induction Hnew; constructor; [| assumption].
      apply mark_sent_status. assumption.
  - split; [eauto |]. split; [exact Hc |]. split; [eauto 10 |].
    exists (rows ++ [row]). rewrite Hrows, <- app_assoc.
    split; [reflexivity |]. apply Forall_app. split; [exact Hrowsf |].
    constructor; [exact Hrow | constructor].
Qed.

Lemma writes_extends w w' : writes w w' -> extends w w'.
Proof.
  induction 1 as [| w1 w2 w3 _ IH Hw]; [apply extends_refl |].
  eapply extends_write; eassumption.
Qed.

(** A campaign recipient on record stays on record, with its token. *)
Lemma row_kept_key r r' :
  row_kept r r' ->
  cr_campaign_id r' = cr_campaign_id r /\ cr_user_id r' = cr_user_id r /\
  unique_token r' = unique_token r.
Proof. intros [-> | ->]; repeat split. Qed.

(** X9: whatever the request and whatever fails, a send through the hook
    only extends the store: it adds users (as ["active"]), campaign
    recipients (as ["sent"]) and log rows (of type ["sms"]); a campaign
    recipient on record keeps its campaign, its user and its token, and
    can only have its status set to ["sent"]; no row is deleted and the
    campaigns are never written. *)
Theorem sendSMS_only_extends_store (E : Env) (request : SMSRequest)
  (w : World) :
  extends w (snd (Hook.sendSMS E request w)).
Proof. apply writes_extends. apply tame_sendSMS. Qed.

(** ** What the edge functions write *)

Lemma tame_bind_val {A B} (Q : A -> Prop) (c : M A) (k : A -> M B) :
  tame c ->
  (forall w a w', c w = (inr a, w') -> Q a) ->
  (forall a, Q a -> tame (k a)) ->
  tame (bind c k).
Proof.
  intros Hc HQ Hk w. specialize (Hc w). specialize (HQ w). unfold bind.
  destruct (c w) as [[e | a] w']; [exact Hc |].
  eapply writes_trans; [exact Hc | apply Hk; eapply HQ; reflexivity].
Qed.

Section TameEdge.
Variable E : Env.

Lemma tame_serve req : tame (Edge.serve E req).
Proof.
  unfold Edge.serve, Edge.serve_try, Edge.internal_error.
  repeat tame_step.
Qed.

Lemma tame_finish c userIdMap reply :
  tame (Edge.finish E c userIdMap reply).
Proof.
  unfold Edge.finish. destruct reply as [e | text | smsData];
    [apply tame_throw | apply tame_ret |].
  destruct (Edge.error_code smsData) as [code |].
  - repeat tame_step.
  - apply tame_bind; [| intros _].
    { destruct (Edge.campaignId c); [| apply tame_ret].
      destruct (api_list smsData); [| apply tame_ret].
      match goal with |- tame (match ?l with _ => _ end) => destruct l end;
        repeat tame_step. }
    repeat tame_step.
Qed.

Lemma tame_send c userIdMap campaignRecipientMap :
  tame (Edge.send E c userIdMap campaignRecipientMap).
Proof.
  unfold Edge.send.
  destruct (JS.nonempty (deno_env E "SMSAPI_TOKEN")); [| apply tame_ret].
  apply tame_bind; [apply tame_fetch | intros reply; apply tame_finish].
Qed.

Lemma tame_assignToken cid userIdMap existing st phone :
  tame (Edge.assignToken E cid userIdMap existing st phone).
Proof.
  unfold Edge.assignToken. destruct st as [m new]. repeat tame_step.
Qed.

(** The rows that step 5 queues for insertion have the status ["sent"]. *)
Lemma assignToken_rows_sent cid userIdMap existing l :
  forall st w st' w',
    forEach (Edge.assignToken E cid userIdMap existing) l st w
    = (inr st', w') ->
    Forall (fun r => cr_status r = "sent") (snd st) ->
    Forall (fun r => cr_status r = "sent") (snd st').
Proof.
  induction l as [| phone l IH]; intros [m new] w st' w'; simpl.
  - intros H. injection H as <- _. auto.
  - unfold bind at 1. unfold Edge.assignToken at 1.
    destruct (JS.nonempty (JSMap.get userIdMap phone)) as [userId |];
      [| cbn; apply IH].
    destruct (JS.nonempty (JSMap.get existing userId)) as [tok |];
      [cbn; apply IH |].
    unfold bind, Token.generate, ret. intros H Hnew.
    eapply IH; [exact H |]. cbn.
    apply Forall_app. split; [exact Hnew | repeat constructor].
Qed.

Lemma tame_campaignRecipients c userIdMap :
  tame (Edge.campaignRecipients E c userIdMap).
Proof.
  unfold Edge.campaignRecipients.
  destruct (Edge.campaignId c) as [cid |]; [| apply tame_send].
  apply tame_bind; [apply tame_select_recipients_in |].
  intros [msg | rows]; [apply tame_ret |].
  apply (tame_bind_val
           (fun st : JSMap.t * list RecipientRow =>
              Forall (fun r => cr_status r = "sent") (snd st))).
  - apply tame_forEach. intros; apply tame_assignToken.
  - intros w st w' Hrun.
    apply (assignToken_rows_sent _ _ _ _ _ _ Hrun). constructor.
  - intros [m new] Hnew. cbn in Hnew.
    apply tame_bind.
    { destruct new; [apply tame_ret |].
      apply tame_insert_recipients. exact Hnew. }
    intros [msg | []]; [apply tame_ret |].
    apply tame_bind; [| intros _; apply tame_send].
    destruct (JSMap.keys (JSMap.of_entries rows)); repeat tame_step.
Qed.

Lemma tame_resolveUsers c : tame (Edge.resolveUsers E c).
Proof.
  unfold Edge.resolveUsers.
  apply tame_bind; [apply tame_select_users_in |].
  intros [msg | rows]; [apply tame_ret |].
  apply tame_bind.
  { match goal with
    | |- tame (match ?l with _ => _ end) =>
        assert (Hnew : Forall (fun r : string * string * string =>
                                 snd r = "active") l)
          by (apply Forall_forall; intros r Hr;
              apply in_map_iff in Hr as (phone & <- & _); reflexivity);
        destruct l
    end; [apply tame_ret |].
    apply tame_insert_users. exact Hnew. }
  intros [msg | inserted]; [apply tame_ret |].
  apply tame_campaignRecipients.
Qed.

Lemma tame_handler req : tame (Edge.handler E req).
Proof.
  unfold Edge.handler.
  destruct (Edge.http_method req =? "OPTIONS"); [apply tame_ret |].
  apply tame_try_catch; [| intros e; apply tame_ret].
  destruct (Edge.http_json req) as [e | rq]; [apply tame_throw |].
  unfold Edge.handle_try.
  destruct (Edge.rq_recipients rq) as [[| p ps] |]; try apply tame_ret.
  destruct (JS.nonempty (Edge.rq_message rq)); [| apply tame_ret].
  destruct (JS.trim s =? ""); [apply tame_ret |].
  destruct (JS.nonempty (deno_env E "SUPABASE_URL")); [| apply tame_ret].
  destruct (JS.nonempty (deno_env E "SUPABASE_SERVICE_ROLE_KEY"));
    [| apply tame_ret].
  destruct (JS.nonempty (Edge.rq_campaignId rq)) as [cid |];
    [| apply tame_resolveUsers].
  destruct (JS.includes s "{{ link }}"); [| apply tame_resolveUsers].
  apply tame_bind; [apply tame_select_campaign_short_id |].
  intros [msg | short]; [apply tame_ret | apply tame_resolveUsers].
Qed.

End TameEdge.

(** X10: whatever the request and whatever fails, the database-backed
    handler only extends the store: it adds users (as ["active"]),
    campaign recipients (as ["sent"]) and log rows (of type ["sms"]); a
    campaign recipient on record keeps its campaign, its user and its
    token, and can only have its status set to ["sent"]; no row is
    deleted and the campaigns are never written. *)
Theorem handler_only_extends_store (E : Env) (req : Edge.HttpRequest)
  (w : World) :
  extends w (snd (Edge.handler E req w)).
Proof. apply writes_extends. apply tame_handler. Qed.

(** ** The database-backed handler, up to the call of the provider *)

Lemma hoare_total {A} (I : World -> Prop) (c : M A) X :
  keeps I c -> total c -> hoare I c (fun _ => I) X.
Proof.
  intros Hk Ht w Hw. specialize (Hk w Hw).
  destruct (Ht w) as (a & w' & Hc). rewrite Hc in *. exact Hk.
Qed.

Lemma total_request E {A} (op : nat -> World -> DbResult A * World) :
  total (Db.request E op).
Proof.
  intros w. unfold Db.request.
  destruct (db_fault E (db_requests w)); [eauto |].
  destruct (op (db_requests w) (set_db_requests S w)). eauto.
Qed.

Lemma total_assignTokens E cid userIdMap existing l :
  forall st, total (forEach (Edge.assignToken E cid userIdMap existing) l st).
Proof.
  induction l as [| phone l IH]; intros [m new] w; simpl;
    [unfold ret; eauto |].
  unfold bind at 1.
  destruct (JS.nonempty (JSMap.get userIdMap phone)) as [userId |];
    [| cbn; apply IH].
  destruct (JS.nonempty (JSMap.get existing userId)) as [tok |];
    cbn; apply IH.
Qed.

(** Everything that the handler does before it calls [send] is reading
    and writing the store; each of its other exits is an error answer. *)
Section HandlerShape.
Variable E : Env.
Variable req : Edge.HttpRequest.
Variable I : World -> Prop.
Variable Q : Edge.Response -> World -> Prop.
Variable Y : exn -> World -> Prop.
Hypothesis HI : store_blind I.
Hypothesis Hpre : forall w, I w -> Q Edge.Preflight w.
Hypothesis Hearly :
  forall st msg w,
    st = 400%Z \/ st = 500%Z -> I w ->
    Q (Edge.Json st (Edge.error_body msg)) w.
Hypothesis Hjson : forall e w, Edge.http_json req = inl e -> I w -> Y e w.
Hypothesis Hcatch :
  forall e w,
    Y e w ->
    Q (Edge.Json 500
         (Edge.with_details DetailsInternal
            (Edge.error_body (message_of e "Unknown error occurred")))) w.
Hypothesis Hsend :
  forall rq rs m short um rm,
    Edge.http_json req = inr rq ->
    Edge.rq_recipients rq = Some rs -> rs <> [] ->
    JS.nonempty (Edge.rq_message rq) = Some m ->
    (JS.trim m =? "") = false ->
    hoare I (Edge.send E (ctx_of E rq rs m short) um rm) Q Y.

Lemma early st msg :
  st = 400%Z \/ st = 500%Z ->
  hoare I (Edge.answer st (Edge.error_body msg)) Q Y.
Proof. intros H. apply hoare_ret. intros w Hw. apply Hearly; assumption. Qed.

Lemma campaignRecipients_via_send c userIdMap :
  (forall um rm, hoare I (Edge.send E c um rm) Q Y) ->
  hoare I (Edge.campaignRecipients E c userIdMap) Q Y.
Proof.
  intros Hs. unfold Edge.campaignRecipients.
  destruct (Edge.campaignId c) as [cid |]; [| apply Hs].
  apply hoare_bind with (R := fun _ => I).
  { apply hoare_total; [apply blind_select_recipients_in; exact HI |].
    apply total_request. }
  intros [msg | rows]; [apply early; auto |].
  apply hoare_bind with (R := fun _ => I).
  { apply hoare_total; [| apply total_assignTokens].
    apply keeps_forEach. intros; apply assignToken_keeps. exact HI. }
  intros [m new]. cbv beta iota.
  apply hoare_bind with (R := fun _ => I).
  { destruct new; [apply hoare_ret; intros w Hw; exact Hw |].
    apply hoare_total; [apply blind_insert_recipients; exact HI |].
    apply total_request. }
  intros [msg | []]; [apply early; auto |].
  apply hoare_bind with (R := fun _ => I); [| intros _; apply Hs].
  destruct (JSMap.keys (JSMap.of_entries rows));
    [apply hoare_ret; intros w Hw; exact Hw |].
  apply hoare_bind with (R := fun _ => I); [| intros _; apply hoare_ret; intros w Hw; exact Hw].
  apply hoare_total;
    [apply blind_update_recipient_status; exact HI | apply total_request].
Qed.

Lemma resolveUsers_via_send c :
  (forall um rm, hoare I (Edge.send E c um rm) Q Y) ->
  hoare I (Edge.resolveUsers E c) Q Y.
Proof.
  intros Hs. unfold Edge.resolveUsers.
  apply hoare_bind with (R := fun _ => I).
  { apply hoare_total; [apply blind_select_users_in; exact HI |].
    apply total_request. }
  intros [msg | rows]; [apply early; auto |].
  apply hoare_bind with (R := fun _ => I).
  { match goal with |- hoare _ (match ?l with _ => _ end) _ _ => destruct l end;
      [apply hoare_ret; intros w Hw; exact Hw |].
    apply hoare_total; [apply blind_insert_users; exact HI |].
    apply total_request. }
  intros [msg | inserted]; [apply early; auto |].
  apply campaignRecipients_via_send. exact Hs.
Qed.

Lemma handler_via_send :
  hoare I (Edge.handler E req) Q (fun _ _ => False).
Proof.
  unfold Edge.handler.
  destruct (Edge.http_method req =? "OPTIONS");
    [apply hoare_ret; exact Hpre |].
  eapply hoare_try_catch with (Y := Y);
    [| intros e; apply hoare_ret; intros w; apply Hcatch].
  destruct (Edge.http_json req) as [e | rq] eqn:Hreq;
    [apply hoare_throw; intros w; apply Hjson; reflexivity |].
  unfold Edge.handle_try.
  destruct (Edge.rq_recipients rq) as [[| p ps] |] eqn:Hrs;
    try (apply early; auto).
  destruct (JS.nonempty (Edge.rq_message rq)) as [m |] eqn:Hm;
    [| apply early; auto].
  destruct (JS.trim m =? "") eqn:Hblank; [apply early; auto |].
  destruct (JS.nonempty (deno_env E "SUPABASE_URL")); [| apply early; auto].
  destruct (JS.nonempty (deno_env E "SUPABASE_SERVICE_ROLE_KEY"));
    [| apply early; auto].
  assert (Hs : forall short um rm,
             hoare I (Edge.send E (ctx_of E rq (p :: ps) m short) um rm) Q Y).
  { intros short um rm.
    apply (Hsend short um rm eq_refl Hrs); [discriminate | exact Hm | exact Hblank]. }
  change
    (hoare I
       (match JS.nonempty (Edge.rq_campaignId rq) with
        | Some cid =>
            if JS.includes m "{{ link }}" then
              campaignData <- Db.select_campaign_short_id E cid ;;
              match campaignData with
              | DbError _ =>
                  Edge.answer 400
                    (Edge.error_body
                       "Campaign not found or invalid campaign ID")
              | DbData short =>
                  Edge.resolveUsers E (ctx_of E rq (p :: ps) m (Some short))
              end
            else Edge.resolveUsers E (ctx_of E rq (p :: ps) m None)
        | None => Edge.resolveUsers E (ctx_of E rq (p :: ps) m None)
        end) Q Y).
  destruct (JS.nonempty (Edge.rq_campaignId rq)) as [cid |];
    [| apply resolveUsers_via_send; apply Hs].
  destruct (JS.includes m "{{ link }}");
    [| apply resolveUsers_via_send; apply Hs].
  apply hoare_bind with (R := fun _ => I).
  { apply hoare_total; [apply blind_select_campaign_short_id; exact HI |].
    apply total_request. }
  intros [msg | short]; [apply early; auto |].
  apply resolveUsers_via_send; apply Hs.
Qed.

End HandlerShape.

(** ** The answers of the edge functions *)

Lemma answer_ok_error st msg :
  st = 400%Z \/ st = 500%Z -> answer_ok (Edge.Json st (Edge.error_body msg)).
Proof. intros H. right. split; [exact H |]. split; [reflexivity |]. eexists; reflexivity. Qed.

Lemma hoare_any {A} (P : World -> Prop) (c : M A) :
  hoare P c (fun _ _ => True) (fun _ _ => True).
Proof. intros w _. destruct (c w) as [[e | a] w']; exact I. Qed.

(** X11: the pass-through handler answers every request, whatever the
    body and whatever the provider does: it never throws; the answer is
    the preflight answer, or status 200 with [success = true], or status
    400 or 500 with [success = false] and an error text.  It has no
    store: it reads and writes no table, and it calls the provider at
    most once. *)
Theorem serve_always_answers (E : Env) (req : Edge.HttpRequest) (w : World) :
  exists r w',
    Edge.serve E req w = (inr r, w') /\ answer_ok r /\
    users w' = users w /\ campaigns w' = campaigns w /\
    campaign_recipients w' = campaign_recipients w /\
    bulk_messages w' = bulk_messages w /\
    db_requests w' = db_requests w /\
    (fetches w' = fetches w \/ exists form, fetches w' = fetches w ++ [form]).
Proof.
  unfold Edge.serve, Edge.serve_try, Edge.internal_error, try_catch,
    Edge.answer, bind, throw, ret, Edge.fetch.
  destruct (Edge.http_method req =? "OPTIONS");
    [eexists; eexists; split; [reflexivity |]; cbn; auto 10 |].
  destruct (Edge.http_json req) as [e | rq];
    [eexists; eexists; split; [reflexivity |];
     split; [apply answer_ok_error; auto | auto 10] |].
  destruct (Edge.rq_recipients rq) as [[| p ps] |];
    try (eexists; eexists; split; [reflexivity |];
         split; [apply answer_ok_error; auto | auto 10]).
  destruct (JS.nonempty (Edge.rq_message rq)) as [m |];
    [| eexists; eexists; split; [reflexivity |];
       split; [apply answer_ok_error; auto | auto 10]].
  destruct (JS.trim m =? "");
    [eexists; eexists; split; [reflexivity |];
     split; [apply answer_ok_error; auto | auto 10] |].
  destruct (JS.nonempty (deno_env E "SMSAPI_TOKEN")) as [tok |];
    [| eexists; eexists; split; [reflexivity |];
       split; [apply answer_ok_error; auto | auto 10]].
  destruct (provider_reply E _ _) as [e | text | smsData];
    [eexists; eexists; split; [reflexivity |];
     split; [apply answer_ok_error; auto | cbn; eauto 10]
    | eexists; eexists; split; [reflexivity |];
      split; [apply answer_ok_error; auto | cbn; eauto 10] |].
  destruct (Edge.error_code smsData) as [code |];
    eexists; eexists; (split; [reflexivity |]); (split; [| cbn; eauto 10]).
  - right. split; [auto |]. split; [reflexivity |]. eexists; reflexivity.
  - left. split; reflexivity.
Qed.

Section HandlerAnswers.
Variable E : Env.

Lemma finish_answer_ok c userIdMap reply :
  hoare (fun _ => True) (Edge.finish E c userIdMap reply)
    (fun r _ => answer_ok r) (fun _ _ => True).
Proof.
  unfold Edge.finish. destruct reply as [e | text | smsData].
  - apply hoare_throw. auto.
  - apply hoare_ret. intros _ _. apply answer_ok_error. auto.
  - destruct (Edge.error_code smsData) as [code |].
    + apply hoare_bind with (R := fun _ _ => True); [apply hoare_any |].
      intros _. apply hoare_ret. intros _ _. right.
      split; [auto |]. split; [reflexivity |]. eexists; reflexivity.
    + apply hoare_bind with (R := fun _ _ => True); [apply hoare_any |].
      intros _.
      apply hoare_bind with (R := fun _ _ => True); [apply hoare_any |].
      intros _. apply hoare_ret. intros _ _. left. split; reflexivity.
Qed.

Lemma send_answer_ok c userIdMap campaignRecipientMap :
  hoare (fun _ => True) (Edge.send E c userIdMap campaignRecipientMap)
    (fun r _ => answer_ok r) (fun _ _ => True).
Proof.
  unfold Edge.send.
  destruct (JS.nonempty (deno_env E "SMSAPI_TOKEN")).
  - apply hoare_bind with (R := fun _ _ => True); [apply hoare_any |].
    intros reply. apply finish_answer_ok.
  - apply hoare_ret. intros _ _. apply answer_ok_error. auto.
Qed.

End HandlerAnswers.

(** X12: the database-backed handler answers every request, whatever
    the body, the store and the provider do: it never throws; the answer
    is the preflight answer, or status 200 with [success = true], or
    status 400 or 500 with [success = false] and an error text. *)
Theorem handler_always_answers (E : Env) (req : Edge.HttpRequest)
  (w : World) :
  exists r w', Edge.handler E req w = (inr r, w') /\ answer_ok r.
Proof.
  assert (H : hoare (fun _ => True) (Edge.handler E req)
                (fun r _ => answer_ok r) (fun _ _ => False)).
  { apply handler_via_send with (Y := fun _ _ => True).
    - intros w0 _. repeat split.
    - intros w0 _. exact I.
    - intros st msg w0 Hst _. apply answer_ok_error. exact Hst.
    - auto.
    - intros e w0 _. apply answer_ok_error. auto.
    - intros. apply send_answer_ok. }
  specialize (H w I).
  destruct (Edge.handler E req w) as [[e | r] w']; [contradiction |].
  exists r, w'. split; [reflexivity | exact H].
Qed.

(** ** Joining and splitting at a separator *)

Lemma split_sep_free c s : has_char c s = false -> JS.split c s = [s].
Proof.
  induction s as [| d s IH]; simpl; [reflexivity |].
  intros H. apply orb_false_iff in H as [Hd Hs].
  rewrite Hd, (IH Hs). reflexivity.
Qed.

Lemma split_sep_app c s t :
  has_char c s = false ->
  JS.split c (s ++ String c t) = s :: JS.split c t.
Proof.
  induction s as [| d s IH]; simpl.
  - intros _. rewrite Ascii.eqb_refl. reflexivity.
  - intros H. apply orb_false_iff in H as [Hd Hs].
    rewrite Hd, (IH Hs). reflexivity.
Qed.

Lemma split_join_sep c (l : list string) :
  l <> [] -> Forall (fun s => has_char c s = false) l ->
  JS.split c (JS.join (String c "") l) = l.
Proof.
  induction l as [| x l IH]; [congruence |].
  intros _ Hall. inversion Hall as [| ? ? Hx Hl]; subst.
  destruct l as [| y l].
  - simpl. apply split_sep_free. exact Hx.
  - change (JS.join (String c "") (x :: y :: l))
      with (x ++ String c (JS.join (String c "") (y :: l)))%string.
    rewrite split_sep_app by exact Hx. f_equal.
    apply IH; [discriminate | exact Hl].
Qed.

(** ** The pass-through handler: a request that is accepted *)

Lemma trim_empty : JS.trim "" = "".
Proof. reflexivity. Qed.

Lemma nonempty_of_trim m :
  (JS.trim m =? "") = false -> JS.nonempty (Some m) = Some m.
Proof.
  intros H. cbn. destruct (m =? "") eqn:Hm; [| reflexivity].
  apply String.eqb_eq in Hm. subst m. discriminate.
Qed.

Section ServeRun.
Variable E : Env.
Variable req : Edge.HttpRequest.
Variable rq : Edge.Request.
Variable rs : list string.
Variable m tok : string.
Hypothesis Hmethod : (Edge.http_method req =? "OPTIONS") = false.
Hypothesis Hjson : Edge.http_json req = inr rq.
Hypothesis Hrs : Edge.rq_recipients rq = Some rs.
Hypothesis Hne : rs <> [].
Hypothesis Hm : Edge.rq_message rq = Some m.
Hypothesis Hblank : (JS.trim m =? "") = false.
Hypothesis Htok : JS.nonempty (deno_env E "SMSAPI_TOKEN") = Some tok.

Lemma serve_run w :
  let form :=
    Edge.form_data tok rs (JS.trim m) (Edge.default_sender rq)
      (Edge.rq_param1 rq) (or_false (Edge.rq_test rq)) in
  let w1 := set_fetches (fun l => l ++ [form]) w in
  Edge.serve E req w =
  match provider_reply E (length (fetches w)) form with
  | FetchThrows e =>
      (inr (Edge.Json 500
              (Edge.with_details DetailsInternal
                 (Edge.error_body (message_of e "Unknown error occurred")))),
       w1)
  | NotJSON responseText =>
      (inr (Edge.Json 500
              (Edge.with_details (DetailsText responseText)
                 (Edge.error_body "Invalid response from SMS provider"))),
       w1)
  | ProviderJSON smsData =>
      match Edge.error_code smsData with
      | Some code =>
          (inr (Edge.Json 400 (Edge.provider_error_body smsData code)), w1)
      | None =>
          (inr (Edge.Json 200
                  {| success := true;
                     sentCount := Some (Edge.or_zero (api_count smsData));
                     totalRecipients := Some (Z.of_nat (length rs));
                     messageIds :=
                       Some (map item_id (Edge.or_nil (api_list smsData)));
                     cost := Some (Edge.total_cost (api_list smsData));
                     currency := Some "EUR";
                     error := None; errorCode := None;
                     invalidNumbers := None;
                     details :=
                       Some (DetailsLists
                               (Edge.or_nil (api_list smsData))
                               (Edge.or_nil (api_invalid_numbers smsData))
                               None);
                     errors := None |}), w1)
      end
  end.
Proof.
  cbv zeta. unfold Edge.serve, Edge.serve_try. rewrite Hmethod, Hjson, Hrs.
  destruct rs as [| p ps]; [contradiction Hne; reflexivity |].
  rewrite Hm, (nonempty_of_trim _ Hblank), Hblank, Htok.
  unfold try_catch, bind, Edge.fetch, Edge.internal_error, Edge.answer,
    throw, ret.
  destruct (provider_reply E _ _) as [e | text | smsData]; try reflexivity.
  destruct (Edge.error_code smsData); reflexivity.
Qed.

End ServeRun.

(** X13: a request with recipients, a message that is not blank and a
    configured token is forwarded to the provider in one call: the
    recipients joined by [","] (which splits back into the recipients
    when none of them holds a comma), the trimmed message, the sender
    (["BulkComm"] when the request has no such field, and the text
    ["null"] when the field is [null], which the default of the
    destructuring pattern does not replace), [param1] only when it is a
    non-empty string, and [test = "1"] only for a test. *)
Theorem serve_forwards_request (E : Env) (req : Edge.HttpRequest)
  (rq : Edge.Request) (rs : list string) (m tok : string) (w : World) :
  (Edge.http_method req =? "OPTIONS") = false ->
  Edge.http_json req = inr rq ->
  Edge.rq_recipients rq = Some rs -> rs <> [] ->
  Edge.rq_message rq = Some m -> (JS.trim m =? "") = false ->
  JS.nonempty (deno_env E "SMSAPI_TOKEN") = Some tok ->
  exists form,
    fetches (snd (Edge.serve E req w)) = fetches w ++ [form] /\
    f_authorization form = ("Bearer " ++ tok)%string /\
    f_to form = JS.join "," rs /\
    (Forall (fun p => has_char "," p = false) rs ->
     JS.split "," (f_to form) = rs) /\
    f_message form = JS.trim m /\
    f_from form
    = match Edge.rq_sender rq with
      | Edge.Missing => "BulkComm"
      | Edge.Null => "null"
      | Edge.Text s => s
      end /\
    f_format form = "json" /\ f_encoding form = "utf-8" /\
    f_param1 form = JS.nonempty (Edge.rq_param1 rq) /\
    f_test form = if or_false (Edge.rq_test rq) then Some "1" else None.
Proof.
  intros Hmethod Hjson Hrs Hne Hm Hblank Htok.
  rewrite (@serve_run E req rq rs m tok Hmethod Hjson Hrs Hne Hm Hblank Htok w).
  eexists. split.
  { destruct (provider_reply E _ _) as [e | text | smsData];
      [reflexivity | reflexivity |].
    destruct (Edge.error_code smsData); reflexivity. }
  cbn. repeat split. intros Hfree. apply split_join_sep; assumption.
Qed.

(** X14: the answer of the pass-through handler to an accepted request
    follows the reply of the provider: 500 with the message of the
    exception when the call throws; 500 with the text when the reply is
    no JSON; 400 with the error code, its text and the invalid numbers
    when the reply carries a non-zero error code; and otherwise 200 with
    the provider's count (0 when it is missing), the ids of the
    provider's list and the number of recipients of the request.  An
    error code [0] counts as no error. *)
Theorem serve_answers_by_reply (E : Env) (req : Edge.HttpRequest)
  (rq : Edge.Request) (rs : list string) (m tok : string) (w : World) :
  (Edge.http_method req =? "OPTIONS") = false ->
  Edge.http_json req = inr rq ->
  Edge.rq_recipients rq = Some rs -> rs <> [] ->
  Edge.rq_message rq = Some m -> (JS.trim m =? "") = false ->
  JS.nonempty (deno_env E "SMSAPI_TOKEN") = Some tok ->
  exists st body form w',
    Edge.serve E req w = (inr (Edge.Json st body), w') /\
    fetches w' = fetches w ++ [form] /\
    let accepted (d : SMSAPIResponse) :=
      st = 200%Z /\ success body = true /\
      sentCount body
      = Some (match api_count d with Some n => n | None => 0%Z end) /\
      totalRecipients body = Some (Z.of_nat (length rs)) /\
      messageIds body
      = Some (map item_id
                (match api_list d with Some l => l | None => [] end)) in
    match provider_reply E (length (fetches w)) form with
    | FetchThrows e =>
        st = 500%Z /\ success body = false /\
        error body = Some (message_of e "Unknown error occurred")
    | NotJSON responseText =>
        st = 500%Z /\ success body = false /\
        error body = Some "Invalid response from SMS provider" /\
        details body = Some (DetailsText responseText)
    | ProviderJSON d =>
        match api_error d with
        | Some code =>
            if (code =? 0)%Z then accepted d
            else
              st = 400%Z /\ success body = false /\
              errorCode body = Some code /\
              error body
              = Some (Edge.provider_error_text code (api_message d)) /\
              invalidNumbers body
              = Some (match api_invalid_numbers d with
                      | Some l => l
                      | None => []
                      end)
        | None => accepted d
        end
    end.
Proof.
  intros Hmethod Hjson Hrs Hne Hm Hblank Htok.
  rewrite (@serve_run E req rq rs m tok Hmethod Hjson Hrs Hne Hm Hblank Htok w). cbv zeta.
  destruct (provider_reply E _ _) as [e | text | d] eqn:Hreply.
  - eexists; eexists; eexists; eexists. split; [reflexivity |].
    split; [reflexivity |]. cbn. rewrite Hreply. repeat split.
  - eexists; eexists; eexists; eexists. split; [reflexivity |].
    split; [reflexivity |]. cbn. rewrite Hreply. repeat split.
  - unfold Edge.error_code.
    destruct (api_error d) as [code |] eqn:Herr.
    + destruct (code =? 0)%Z eqn:Hz;
        eexists; eexists; eexists; eexists; (split; [reflexivity |]);
        (split; [reflexivity |]); cbn; rewrite Hreply, Herr, Hz;
        repeat split.
    + eexists; eexists; eexists; eexists. split; [reflexivity |].
      split; [reflexivity |]. cbn. rewrite Hreply, Herr. repeat split.
Qed.

(** ** The replacement of the placeholder *)

Lemma prefix_nil s : String.prefix "" s = true.
Proof. destruct s; reflexivity. Qed.

Lemma prefix_append p t : String.prefix p (p ++ t) = true.
Proof.
  induction p as [| a p IH]; simpl; [apply prefix_nil |].
  destruct (ascii_dec a a) as [_ | Hne]; [exact IH | contradiction Hne; reflexivity].
Qed.

Lemma prefix_inv p : forall s,
  String.prefix p s = true -> exists t, s = (p ++ t)%string.
Proof.
  induction p as [| a p IH]; intros s H.
  - exists s. reflexivity.
  - destruct s as [| c s]; [discriminate |]. simpl in H.
    destruct (ascii_dec a c) as [-> | _]; [| discriminate].
    destruct (IH s H) as (t & ->). exists t. reflexivity.
Qed.

Lemma append_assoc (a b c : string) : ((a ++ b) ++ c = a ++ (b ++ c))%string.
Proof. induction a as [| x a IH]; simpl; [reflexivity | rewrite IH; reflexivity]. Qed.

Lemma prefix_app_r p a t :
  String.prefix p a = true -> String.prefix p (a ++ t) = true.
Proof.
  intros H. destruct (prefix_inv _ _ H) as (u & ->).
  rewrite append_assoc. apply prefix_append.
Qed.

Lemma includes_app_l a p t :
  JS.includes a p = true -> JS.includes (a ++ t) p = true.
Proof.
  induction a as [| c a IH]; simpl.
  - rewrite orb_false_r. intros H.
    destruct p; [| discriminate].
    destruct t; reflexivity.
  - intros H. apply orb_true_iff in H as [H | H].
    + destruct p as [| b p]; [reflexivity |]. simpl in H |- *.
      destruct (ascii_dec b c); [| discriminate].
      rewrite (prefix_app_r _ _ t H). reflexivity.
    + rewrite (IH H). apply orb_true_r.
Qed.

Lemma includes_cons c s p :
  JS.includes s p = true -> JS.includes (String c s) p = true.
Proof. intros H. simpl. rewrite H. apply orb_true_r. Qed.

(** A literal placeholder is a match of the regular expression. *)
Lemma match_link_literal s :
  String.prefix "{{ link }}" s = true -> JS.match_link s = Some 10.
Proof.
  intros H. destruct (prefix_inv _ _ H) as (t & ->).
  cbv - [String.length Nat.sub]. cbn [String.length].
  f_equal. lia.
Qed.

(** A match of the regular expression starts with two braces. *)
Lemma strip_prefix p : forall s r,
  JS.strip p s = Some r -> String.prefix p s = true.
Proof.
  induction p as [| a p IH]; intros s r; [intros _; apply prefix_nil |].
  destruct s as [| b s]; simpl; [discriminate |].
  destruct (Ascii.eqb a b) eqn:Hab; [| discriminate].
  apply Ascii.eqb_eq in Hab. subst b.
  destruct (ascii_dec a a) as [_ | Hne]; [apply IH | contradiction Hne; reflexivity].
Qed.

Lemma match_link_braces s n :
  JS.match_link s = Some n -> String.prefix "{{" s = true.
Proof.
  unfold JS.match_link.
  destruct (JS.strip "{{" s) as [r1 |] eqn:Hs; [| discriminate].
  intros _. apply (strip_prefix _ _ Hs).
Qed.

(** What is copied from the message holds no ["["]: a prefix of the
    result that is free of ["["] is a prefix of the message. *)
Lemma prefix_replaced p : forall s,
  has_char "[" p = false ->
  String.prefix p (JS.replace_link "[%1%]" s) = true ->
  String.prefix p s = true.
Proof.
  unfold JS.replace_link.
  induction p as [| a p IH]; intros s Hp H; [apply prefix_nil |].
  simpl in Hp. apply orb_false_iff in Hp as [Ha Hp].
  destruct s as [| c r]; [discriminate |].
  cbn [JS.replace_from] in H.
  destruct (JS.match_link (String c r)) as [n |].
  - simpl in H. destruct (ascii_dec a "[") as [-> | _]; discriminate.
  - simpl in H |- *. destruct (ascii_dec a c); [| discriminate].
    apply IH; assumption.
Qed.

Lemma no_placeholder_left s : forall skip,
  JS.includes (JS.replace_from "[%1%]" skip s) "{{ link }}" = false.
Proof.
  induction s as [| c r IH]; intros skip; [reflexivity |].
  cbn [JS.replace_from]. destruct skip as [| k]; [| apply IH].
  destruct (JS.match_link (String c r)) as [n |] eqn:Hmatch.
  - cbn. apply IH.
  - cbn [JS.includes]. rewrite IH, orb_false_r.
    destruct (String.prefix "{{ link }}" (String c (JS.replace_from "[%1%]" 0 r)))
      eqn:Hpre; [| reflexivity].
    assert (Hs : String.prefix "{{ link }}" (String c r) = true).
    { apply prefix_replaced; [reflexivity |].
      unfold JS.replace_link. cbn [JS.replace_from]. rewrite Hmatch.
      exact Hpre. }
    rewrite (match_link_literal _ Hs) in Hmatch. discriminate.
Qed.

Lemma marker_present s :
  JS.includes s "{{ link }}" = true ->
  JS.includes (JS.replace_link "[%1%]" s) "[%1%]" = true.
Proof.
  unfold JS.replace_link.
  induction s as [| c r IH]; [discriminate |].
  intros H. cbn [JS.replace_from].
  destruct (JS.match_link (String c r)) as [n |] eqn:Hmatch.
  - apply includes_app_l. reflexivity.
  - cbn [JS.includes] in H. apply orb_true_iff in H as [H | H].
    + rewrite (match_link_literal _ H) in Hmatch. discriminate.
    + apply includes_cons. apply IH. exact H.
Qed.

Lemma untouched_without_braces s :
  JS.includes s "{{" = false -> JS.replace_link "[%1%]" s = s.
Proof.
  unfold JS.replace_link.
  induction s as [| c r IH]; [reflexivity |].
  intros H. cbn [JS.includes] in H. apply orb_false_iff in H as [Hpre Hr].
  cbn [JS.replace_from].
  destruct (JS.match_link (String c r)) as [n |] eqn:Hmatch.
  - rewrite (match_link_braces _ Hmatch) in Hpre. discriminate.
  - rewrite (IH Hr). reflexivity.
Qed.

(** X15: the replacement [message.replace(/\{\{\s*link\s*\}\}/g,
    '[%1%]')] leaves no literal placeholder ["{{ link }}"] behind; when
    the message holds the literal placeholder, the result holds the
    marker ["[%1%]"]; and a message without ["{{"] is returned as it
    is. *)
Theorem placeholder_replacement (s : string) :
  JS.includes (JS.replace_link "[%1%]" s) "{{ link }}" = false /\
  (JS.includes s "{{ link }}" = true ->
   JS.includes (JS.replace_link "[%1%]" s) "[%1%]" = true) /\
  (JS.includes s "{{" = false -> JS.replace_link "[%1%]" s = s).
Proof.
  split; [apply no_placeholder_left |].
  split; [apply marker_present | apply untouched_without_braces].
Qed.

(** ** Trimming *)

Lemma append_nil_r (s : string) : (s ++ "")%string = s.
Proof. induction s as [| c s IH]; simpl; [| rewrite IH]; reflexivity. Qed.

Lemma rev_append_app s : forall acc,
  JS.rev_append s acc = (JS.rev_append s "" ++ acc)%string.
Proof.
  induction s as [| c s IH]; intros acc; simpl; [reflexivity |].
  rewrite (IH (String c acc)), (IH (String c "")), append_assoc.
  reflexivity.
Qed.

Lemma rev_app a b : JS.rev (a ++ b) = (JS.rev b ++ JS.rev a)%string.
Proof.
  unfold JS.rev. induction a as [| c a IH]; simpl.
  - symmetry. apply append_nil_r.
  - rewrite (rev_append_app (a ++ b)), IH, (rev_append_app a (String c "")).
    apply append_assoc.
Qed.

Lemma rev_involutive s : JS.rev (JS.rev s) = s.
Proof.
  induction s as [| c s IH]; [reflexivity |].
  change (String c s) with (String c "" ++ s)%string at 1.
  rewrite rev_app, rev_app, IH. reflexivity.
Qed.

(** Trimming removes a prefix and a suffix. *)
Lemma trimStart_suffix s : exists sp, s = (sp ++ JS.trimStart s)%string.
Proof.
  induction s as [| c s (sp & IH)]; [exists ""; reflexivity |].
  simpl. destruct (JS.is_space c).
  - exists (String c sp). simpl. rewrite <- IH. reflexivity.
  - exists "". reflexivity.
Qed.

Lemma trimEnd_prefix s : exists sp, s = (JS.trimEnd s ++ sp)%string.
Proof.
  unfold JS.trimEnd.
  destruct (trimStart_suffix (JS.rev s)) as (sp & Hsp).
  exists (JS.rev sp).
  rewrite <- rev_app, <- Hsp. symmetry. apply rev_involutive.
Qed.

Lemma includes_suffix sp s p :
  JS.includes s p = true -> JS.includes (sp ++ s) p = true.
Proof.
  intros H. induction sp as [| c sp IH]; [exact H |].
  simpl. rewrite IH. apply orb_true_r.
Qed.

(** What the trimmed message holds, the message holds. *)
Lemma includes_trim s p :
  JS.includes (JS.trim s) p = true -> JS.includes s p = true.
Proof.
  unfold JS.trim. intros H.
  destruct (trimStart_suffix s) as (sp & Hsp).
  destruct (trimEnd_prefix (JS.trimStart s)) as (sp' & Hsp').
  rewrite Hsp. apply includes_suffix.
  rewrite Hsp'. apply includes_app_l. exact H.
Qed.

(** The message of a personalized call of the hook holds no literal
    placeholder. *)
Lemma batch_message_no_placeholder request recipients links :
  JS.includes
    (b_message (Hook.batch_body request true recipients links))
    "{{ link }}" = false.
Proof.
  unfold Hook.batch_body. cbn [b_message].
  destruct (JS.includes (JS.trim (JS.replace_link "[%1%]" (message request)))
              "{{ link }}") eqn:H; [| reflexivity].
  apply includes_trim in H.
  unfold JS.replace_link in H. rewrite no_placeholder_left in H.
  discriminate.
Qed.

(** ** The database-backed handler: the call of the provider *)

Lemma prefix_refl s : String.prefix s s = true.
Proof.
  rewrite <- (append_nil_r s) at 2. apply prefix_append.
Qed.

Lemma nonempty_some_inv (o : option string) m m' :
  o = Some m -> JS.nonempty o = Some m' -> m' = m.
Proof.
  intros -> H. cbn in H. destruct (m =? ""); [discriminate |].
  injection H as <-. reflexivity.
Qed.

Section HandlerCall.
Variable E : Env.
Variable rq : Edge.Request.
Variable rs : list string.
Variable m : string.
Hypothesis Hne : rs <> [].

(** The request to the provider, when there is a token. *)
Lemma form_of_send short rm tok :
  JS.nonempty (deno_env E "SMSAPI_TOKEN") = Some tok ->
  let c := ctx_of E rq rs m short in
  let links :=
    if Edge.hasLinkPlaceholder c
    then map (Edge.personalizedLink c rm) (Edge.recipients c) else [] in
  let personalize :=
    Edge.hasLinkPlaceholder c && negb (length links =? 0)%nat in
  handler_form E rq rs m
    (Edge.form_data tok (Edge.recipients c)
       (if personalize then JS.replace_link "[%1%]" (JS.trim (Edge.message c))
        else JS.trim (Edge.message c))
       (Edge.sender c)
       (if personalize then Some (JS.join "|" links) else None)
       (Edge.test c)).
Proof.
  intros Htok. cbv zeta. unfold handler_form. cbn.
  split; [exists tok; split; [exact Htok | reflexivity] |].
  split; [reflexivity |]. split; [reflexivity |].
  split; [reflexivity |]. split; [reflexivity |]. split; [reflexivity |].
  destruct (JS.includes m "{{ link }}"); [| split; reflexivity].
  destruct rs as [| p ps]; [contradiction Hne; reflexivity |].
  cbn [map length Nat.eqb negb andb].
  split; [reflexivity |].
  eexists. split; [| split; [reflexivity |]].
  - cbn [length]. rewrite length_map. reflexivity.
  - change (Edge.personalizedLink ?c rm p :: map ?f ps)
      with (map (Edge.personalizedLink c rm) (p :: ps)).
    apply Forall_forall. intros link Hin.
    apply in_map_iff in Hin as (phone & <- & _).
    unfold Edge.personalizedLink, JS.startsWith. cbn.
    destruct (JSMap.get rm phone) as [token |]; [| apply prefix_refl].
    destruct (JS.nonempty (Edge.rq_campaignId rq));
      [destruct (JS.nonempty short) |]; apply prefix_append.
Qed.

Lemma send_fetches short um rm f0 :
  let post := fun w' : World =>
    fetches w' = f0 \/
    exists form, fetches w' = f0 ++ [form] /\ handler_form E rq rs m form in
  hoare (fun w => fetches w = f0)
    (Edge.send E (ctx_of E rq rs m short) um rm)
    (fun _ => post) (fun _ => post).
Proof.
  cbv zeta. intros w Hw.
  pose proof (form_of_send short rm) as Hform. cbv zeta in Hform.
  unfold Edge.send.
  destruct (JS.nonempty (deno_env E "SMSAPI_TOKEN")) as [tok |];
    [| cbn; left; exact Hw].
  specialize (Hform tok eq_refl).
  match type of Hform with
  | handler_form _ _ _ _ ?f => set (form := f) in *
  end.
  unfold bind, Edge.fetch. rewrite Hw.
  set (w1 := set_fetches (fun l => l ++ [form]) w).
  assert (Hw1 : fetches w1 = f0 ++ [form]) by (cbn; rewrite Hw; reflexivity).
  destruct (provider_reply E (length f0) form) as [e | text | smsData] eqn:Hr;
    [right; exists form; split; assumption | |].
  - cbn. right. exists form. split; assumption.
  - pose proof (@finish_keeps E (fun w' => fetches w' = f0 ++ [form])
                  ltac:(intros w0 Hw0; repeat split; intros ?; exact Hw0)
                  (ctx_of E rq rs m short) um (ProviderJSON smsData)
                  ltac:(intros _ w0 f Hw0; exact Hw0) w1 Hw1) as Hk.
    destruct (Edge.finish E _ um (ProviderJSON smsData) w1) as [[e | r] w'];
      right; exists form; split; assumption.
Qed.

End HandlerCall.

(** At most one call of the provider for a request, and which. *)
Lemma handler_fetches E req rq rs m w :
  Edge.http_json req = inr rq ->
  Edge.rq_recipients rq = Some rs ->
  Edge.rq_message rq = Some m ->
  fetches (snd (Edge.handler E req w)) = fetches w \/
  exists form,
    fetches (snd (Edge.handler E req w)) = fetches w ++ [form] /\
    handler_form E rq rs m form.
Proof.
  intros Hjson Hrs Hm.
  pose proof (@handler_via_send E req
                (fun w' => fetches w' = fetches w)
                (fun _ w' =>
                   fetches w' = fetches w \/
                   exists form,
                     fetches w' = fetches w ++ [form] /\
                     handler_form E rq rs m form)
                (fun _ w' =>
                   fetches w' = fetches w \/
                   exists form,
                     fetches w' = fetches w ++ [form] /\
                     handler_form E rq rs m form)) as H.
  assert (Hh : hoare (fun w' => fetches w' = fetches w) (Edge.handler E req)
                 (fun _ w' =>
                    fetches w' = fetches w \/
                    exists form,
                      fetches w' = fetches w ++ [form] /\
                      handler_form E rq rs m form)
                 (fun _ _ => False)).
  { apply H; clear H.
    - intros w0 Hw0. repeat split; intros ?; exact Hw0.
    - intros w0 Hw0. left. exact Hw0.
    - intros st msg w0 _ Hw0. left. exact Hw0.
    - intros e w0 _ Hw0. left. exact Hw0.
    - intros e w0 Hw0. exact Hw0.
    - intros rq0 rs0 m0 short um rm Hjson0 Hrs0 Hne0 Hm0 _.
      rewrite Hjson in Hjson0. injection Hjson0 as <-.
      rewrite Hrs in Hrs0. injection Hrs0 as <-.
      rewrite (nonempty_some_inv Hm Hm0).
      apply (@send_fetches E rq rs m Hne0 short um rm (fetches w)). }
  specialize (Hh w eq_refl).
  destruct (Edge.handler E req w) as [[e | r] w']; [contradiction | exact Hh].
Qed.

(** X16: for one request the database-backed handler calls the provider
    at most once, with all recipients of the request at once, as they
    were given: the call carries the recipients joined by [","], the
    sender (["BulkComm"] when the request has no such field, the text
    ["null"] when the field is [null]) and the test flag; with the
    literal placeholder in the
    message it carries the message after the replacement and, in
    [param1], one link per recipient, each starting with the public base
    URL; without it, the trimmed message and no [param1]. *)
Theorem handler_calls_provider_once (E : Env) (req : Edge.HttpRequest)
  (rq : Edge.Request) (rs : list string) (m : string) (w : World) :
  Edge.http_json req = inr rq ->
  Edge.rq_recipients rq = Some rs ->
  Edge.rq_message rq = Some m ->
  let w' := snd (Edge.handler E req w) in
  fetches w' = fetches w \/
  exists form,
    fetches w' = fetches w ++ [form] /\ handler_form E rq rs m form.
Proof. intros Hjson Hrs Hm. apply handler_fetches; assumption. Qed.

(** X17: the database-backed handler does not read [param1].  Given a
    call of the hook's personalized path, whose message holds the marker
    in place of the placeholder and whose links are in [param1], it
    finds no placeholder and sends the message to the provider without
    [param1]: the links of the hook are dropped. *)
Theorem handler_drops_links_of_hook (E : Env) (request : SMSRequest)
  (recipients links : list string) (w : World) :
  let body := Hook.batch_body request true recipients links in
  let w' := snd (Edge.handler E (http_of body) w) in
  b_param1 body = Some (JS.join "|" links) /\
  (fetches w' = fetches w \/
   exists form,
     fetches w' = fetches w ++ [form] /\
     f_to form = JS.join "," recipients /\
     f_message form = JS.trim (b_message body) /\
     f_param1 form = None).
Proof.
  cbv zeta. split; [reflexivity |].
  destruct (@handler_fetches E
              (http_of (Hook.batch_body request true recipients links))
              _ recipients
              (b_message (Hook.batch_body request true recipients links))
              w eq_refl eq_refl eq_refl)
    as [H | (form & Hf & Hform)]; [left; exact H |].
  right. exists form. split; [exact Hf |].
  destruct Hform as (_ & Hto & _ & _ & _ & _ & Hmsg).
  rewrite batch_message_no_placeholder in Hmsg.
  destruct Hmsg as [Hmsg Hp]. auto.
Qed.

(** ** The database-backed handler: the log *)

Section HandlerLog.
Variable E : Env.
Variable b0 : list BulkRow.






End HandlerLog.


(** ** The edge functions: requests that are refused *)

(** X19: both handlers refuse a request without recipients (missing, no
    array or empty) and a request without message (missing, empty or
    blank) with status 400, the recipients being looked at first; the
    refusal comes before anything else: no configuration is read, no
    table is touched and no provider is called. *)
Theorem invalid_requests_are_refused (E : Env) (req : Edge.HttpRequest)
  (rq : Edge.Request) (w : World) :
  (Edge.http_method req =? "OPTIONS") = false ->
  Edge.http_json req = inr rq ->
  Edge.rq_recipients rq = None \/ Edge.rq_recipients rq = Some [] \/
  Edge.rq_message rq = None \/
  (exists m, Edge.rq_message rq = Some m /\ JS.trim m = "") ->
  let msg :=
    match Edge.rq_recipients rq with
    | None | Some [] => "Recipients array is required and cannot be empty"
    | Some _ => "Message content is required"
    end in
  Edge.serve E req w = (inr (Edge.Json 400 (failure msg)), w) /\
  Edge.handler E req w = (inr (Edge.Json 400 (failure msg)), w).
Proof.
  intros Hmethod Hjson Hbad. cbv zeta.
  unfold Edge.serve, Edge.handler, Edge.serve_try, Edge.handle_try.
  rewrite Hmethod, Hjson.
  destruct (Edge.rq_recipients rq) as [[| p ps] |]; try (split; reflexivity).
  destruct Hbad as [H | [H | [H | (m & H & Hblank)]]]; try discriminate;
    rewrite H.
  - split; reflexivity.
  - cbn [JS.nonempty]. destruct (m =? ""); [split; reflexivity |].
    rewrite Hblank. split; reflexivity.
Qed.

(** ** The country of a phone number *)

Lemma find_all_false {A} (f : A -> bool) l :
  (forall x, In x l -> f x = false) -> find f l = None.
Proof.
  induction l as [| a l IH]; intros H; [reflexivity |].
  simpl. rewrite (H a (or_introl eq_refl)). apply IH.
  intros x Hx. apply H. right. exact Hx.
Qed.

(** X20: the prefix table of the handler's [detectCountryFromPhone] is
    unambiguous: a phone number that starts with a prefix of the table
    gets the country of that prefix, wherever the prefix stands in the
    table; a phone number that starts with none of them gets
    ["Unknown"]. *)
Theorem detectCountry_unambiguous (phone : string) :
  (forall p c,
     In (p, c) Edge.prefixes -> JS.startsWith phone p = true ->
     Edge.detectCountryFromPhone phone = c) /\
  ((forall p c, In (p, c) Edge.prefixes -> JS.startsWith phone p = false) ->
   Edge.detectCountryFromPhone phone = "Unknown").
Proof.
  split.
  - intros p c Hin Hstart. unfold JS.startsWith in Hstart.
    destruct (prefix_inv _ _ Hstart) as (t & ->). clear Hstart.
    unfold Edge.detectCountryFromPhone, JS.startsWith.
    unfold Edge.prefixes in Hin. cbn [In] in Hin.
    repeat (destruct Hin as [Hin | Hin];
            [injection Hin as <- <-; cbn; rewrite prefix_nil; reflexivity |]).
    contradiction.
  - intros Hnone. unfold Edge.detectCountryFromPhone.
    rewrite find_all_false; [reflexivity |].
    intros [p c] Hin. apply (Hnone p c Hin).
Qed.

(** ** The component: what [handleSend] hands to the hook *)

Lemma validRecipients_app l1 l2 :
  Hook.validRecipients (l1 ++ l2)
  = Hook.validRecipients l1 ++ Hook.validRecipients l2.
Proof. unfold Hook.validRecipients. apply flat_map_app. Qed.

Lemma phones_pass us :
  Hook.validRecipients (map Some (Manager.phones_of us))
  = Manager.phones_of us.
Proof.
  induction us as [| u us IH]; [reflexivity |].
  unfold Manager.phones_of in *. cbn [flat_map].
  rewrite map_app, validRecipients_app, IH. f_equal.
  destruct (Manager.phoneNumber u) as [phone |]; [| reflexivity].
  destruct (Manager.phone_ok (Some phone)) eqn:Hok; [| reflexivity].
  cbn. unfold Hook.is_valid. cbn in Hok. rewrite Hok. reflexivity.
Qed.

Lemma recipients_pass P s :
  Hook.validRecipients (map Some (Manager.recipients_of P s))
  = Manager.recipients_of P s.
Proof.
  unfold Manager.recipients_of.
  destruct (Manager.recipientFilter s =? "selected"); [apply phones_pass |].
  destruct (Manager.recipientFilter s =? "filtered"); apply phones_pass.
Qed.

(** X21: every phone number that [handleSend] hands to the hook passes
    the filter of the hook: the hook drops none of them, in any mode of
    selection. *)
Theorem handleSend_recipients_pass_the_filter (P : Manager.Props)
  (s : Manager.State) :
  Hook.validRecipients (map Some (Manager.recipients_of P s))
  = Manager.recipients_of P s.
Proof. apply recipients_pass. Qed.

Lemma phones_of_all us :
  Forall (fun u => Manager.phone_ok (Manager.phoneNumber u) = true) us ->
  length (Manager.phones_of us) = length us.
Proof.
  induction 1 as [| u us Hu _ IH]; [reflexivity |].
  unfold Manager.phones_of in *. cbn [flat_map]. rewrite length_app, IH.
  destruct (Manager.phoneNumber u) as [phone |]; [| discriminate].
  rewrite Hu. reflexivity.
Qed.

Lemma filtered_have_phones P s :
  Forall (fun u => Manager.phone_ok (Manager.phoneNumber u) = true)
    (Manager.filteredUsersWithPhones P s).
Proof.
  apply Forall_forall. intros u Hu.
  unfold Manager.filteredUsersWithPhones, Manager.activeUsersWithPhones in Hu.
  apply filter_In in Hu as [Hu _]. apply filter_In in Hu as [_ Hu].
  apply andb_true_iff in Hu as [_ Hu]. exact Hu.
Qed.

(** X22: unless the selection mode is ["selected"], the recipient count
    that the component shows (and checks before sending) is the number
    of phone numbers that [handleSend] hands to the hook: the second
    filter of [handleSend] drops nobody, since the listed users are
    active users with a usable phone number. *)
Theorem recipient_count_is_number_sent (P : Manager.Props)
  (s : Manager.State) :
  (Manager.recipientFilter s =? "selected") = false ->
  length (Manager.recipients_of P s) = Manager.getRecipientCount P s /\
  Forall (fun u => Manager.status u = "active" /\
                   Manager.phone_ok (Manager.phoneNumber u) = true)
    (Manager.filteredUsersWithPhones P s).
Proof.
  intros Hmode. unfold Manager.recipients_of, Manager.getRecipientCount.
  rewrite Hmode. split.
  - destruct (Manager.recipientFilter s =? "filtered");
      apply phones_of_all, filtered_have_phones.
  - apply Forall_forall. intros u Hu.
    unfold Manager.filteredUsersWithPhones, Manager.activeUsersWithPhones in Hu.
    apply filter_In in Hu as [Hu _]. apply filter_In in Hu as [_ Hu].
    apply andb_true_iff in Hu as [Hact Hu].
    apply String.eqb_eq in Hact. auto.
Qed.

(** ** The component: selecting users *)

(** X23: unchecking a user removes every occurrence of the user's id
    from the selection, so that checking a user who was not selected and
    unchecking the user again gives back the selection. *)
Theorem handleUserSelection_round_trip (userId : string)
  (s : Manager.State) :
  ~ In userId
      (Manager.selectedUserIds (Manager.handleUserSelection userId false s)) /\
  (~ In userId (Manager.selectedUserIds s) ->
   Manager.handleUserSelection userId false
     (Manager.handleUserSelection userId true s) = s).
Proof.
  split.
  - cbn. intros Hin. apply filter_In in Hin as [_ Hin].
    rewrite String.eqb_refl in Hin. discriminate.
  - intros Hnot. destruct s as [c tp cm rf ids term res tm].
    unfold Manager.handleUserSelection, Manager.setSelectedUserIds. cbn.
    f_equal. cbn in Hnot. rewrite filter_app. cbn.
    rewrite String.eqb_refl. cbn. rewrite app_nil_r.
    clear - Hnot. induction ids as [| i ids IH]; [reflexivity |].
    cbn. destruct (i =? userId) eqn:Hi.
    + apply String.eqb_eq in Hi. subst i. contradiction Hnot. left. reflexivity.
    + cbn. f_equal. apply IH. intros H. apply Hnot. right. exact H.
Qed.

(** ** The component: [handleSend] *)

Lemma ceil_div_pos n : 0 < n -> 0 < ceil_div n 100.
Proof.
  intros Hn. unfold ceil_div. apply Nat.div_str_pos. lia.
Qed.

(** A request with a valid recipient reaches the gateway. *)
Lemma sendSMS_sends E request rs w :
  recipients request = Some rs ->
  Hook.validRecipients rs <> [] ->
  exists r w' calls,
    Hook.sendSMS E request w = (inr r, w') /\
    invocations w' = invocations w ++ calls /\
    calls <> [] /\
    Forall (fun b => b_test b = or_false (test request) /\
                     b_sender b = JS.or_else (sender request) "BulkComm")
      calls.
Proof.
  intros Hrs Hvalid. rewrite sendSMS_run.
  destruct (JS.truthy (campaignId request) ||
            JS.includes (message request) "{{ link }}") eqn:Hpath.
  - rewrite (@sendSMS_try_personalized E request rs (started w)
               Hrs Hvalid Hpath).
    destruct (sendPersonalized_spec E request (Hook.validRecipients rs)
                (JS.includes (message request) "{{ link }}") (started w))
      as (looped & w1 & w' & -> & Hpost & Hinv & _).
    destruct Hpost as (calls & Hcalls & Hcall & _).
    cbn in Hcalls.
    eexists; eexists; exists calls. split; [reflexivity |]. cbn.
    split; [rewrite Hinv; exact Hcalls |]. split.
    + pose proof (Forall2_length_eq Hcall) as Hlen.
      rewrite batches_from_length, Nat.sub_0_r in Hlen.
      assert (0 < length (Hook.validRecipients rs))
        by (destruct (Hook.validRecipients rs);
            [contradiction Hvalid; reflexivity | simpl; lia]).
      pose proof (ceil_div_pos H) as Hpos. unfold Hook.batchSize in Hlen.
      intros Hnil. rewrite Hnil in Hlen. cbn [length] in Hlen.
      rewrite Hlen in Hpos. lia.
    + clear - Hcall. induction Hcall as [| b c bs cs Hc _ IH];
        constructor; [| exact IH].
      destruct Hc as (links & -> & _). split; reflexivity.
  - apply orb_false_iff in Hpath as [Hc Hl].
    rewrite (@sendSMS_try_plain E request rs (started w) Hrs Hvalid Hc Hl),
      sendBulkSMS_run.
    destruct (invoke_reply E _ _);
      eexists; eexists; eexists; (split; [reflexivity |]); cbn;
      (split; [reflexivity |]); (split; [discriminate |]);
      repeat constructor.
Qed.

Lemma handleSend_run P E s w :
  let message := Manager.getCurrentMessage P s in
  let s1 := Manager.setSendResult None s in
  if (JS.trim message =? "") || (Manager.getRecipientCount P s =? 0)%nat
  then Manager.handleSend P E s w = (inr s, w)
  else
    match Manager.recipients_of P s with
    | [] =>
        Manager.handleSend P E s w
        = (inr (Manager.setSendResult
                  (Some (failure (Manager.t P "sms.noValidRecipients"))) s1),
           w)
    | p :: ps =>
        exists r w' calls,
          (if Manager.isTestMode s then Hook.testSMS E else Hook.sendSMS E)
            (Manager.request_of s (p :: ps) message) w
          = (inr r, w') /\
          Manager.handleSend P E s w
          = (inr (if success r && negb (Manager.isTestMode s)
                  then Manager.setCustomMessage ""
                         (Manager.setSelectedTemplate ""
                            (Manager.setSendResult (Some r) s1))
                  else Manager.setSendResult (Some r) s1), w') /\
          invocations w' = invocations w ++ calls /\
          calls <> [] /\
          Forall (fun b => b_test b = Manager.isTestMode s /\
                           b_sender b = "1511") calls
    end.
Proof.
  cbv zeta. unfold Manager.handleSend.
  destruct ((JS.trim (Manager.getCurrentMessage P s) =? "") ||
            (Manager.getRecipientCount P s =? 0)%nat);
    [reflexivity |].
  pose proof (recipients_pass P s) as Hpass.
  destruct (Manager.recipients_of P s) as [| p ps] eqn:Hrecs;
    [reflexivity |].
  set (request := Manager.request_of s (p :: ps)
                    (Manager.getCurrentMessage P s)).
  assert (Hvalid : Hook.validRecipients (map Some (p :: ps)) <> [])
    by (rewrite Hpass; discriminate).
  destruct (Manager.isTestMode s) eqn:Htest.
  - destruct (@sendSMS_sends E (Hook.with_test request)
                (map Some (p :: ps)) w eq_refl Hvalid)
      as (r & w' & calls & Hrun & Hinv & Hne & Hall).
    exists r, w', calls. unfold try_catch, bind, Hook.testSMS.
    rewrite Hrun. rewrite andb_false_r.
    split; [reflexivity |].
    split; [reflexivity |]. split; [exact Hinv |]. split; [exact Hne |].
    exact Hall.
  - destruct (@sendSMS_sends E request (map Some (p :: ps)) w eq_refl Hvalid)
      as (r & w' & calls & Hrun & Hinv & Hne & Hall).
    exists r, w', calls. unfold try_catch, bind.
    rewrite Hrun. rewrite andb_true_r.
    split; [reflexivity |].
    split; [destruct (success r); reflexivity |].
    split; [exact Hinv |]. split; [exact Hne |]. exact Hall.
Qed.

(** X24: [handleSend] never throws, and what it does is decided by the
    message and the recipients.  When the message is blank or the
    recipient count is zero it does nothing: the state and the world
    are as they were.  Otherwise, when no phone number is left to send
    to, it calls nothing and records the failure
    [sms.noValidRecipients].  Otherwise it runs the hook ([testSMS] in
    test mode, [sendSMS] otherwise) on the request built from these
    phone numbers and the current message, and records the result of
    the hook; the hook calls the gateway at least once, and every call
    carries the test mode of the component as its test flag and the
    sender ["1511"]. *)
Theorem handleSend_reaches_the_gateway (P : Manager.Props) (E : Env)
  (s : Manager.State) (w : World) :
  exists s' w',
    Manager.handleSend P E s w = (inr s', w') /\
    if (JS.trim (Manager.getCurrentMessage P s) =? "") ||
       (Manager.getRecipientCount P s =? 0)%nat
    then s' = s /\ w' = w
    else
      match Manager.recipients_of P s with
      | [] =>
          w' = w /\
          s' = Manager.setSendResult
                 (Some (failure (Manager.t P "sms.noValidRecipients"))) s
      | p :: ps =>
          exists r calls,
            (if Manager.isTestMode s then Hook.testSMS E else Hook.sendSMS E)
              (Manager.request_of s (p :: ps) (Manager.getCurrentMessage P s))
              w
            = (inr r, w') /\
            Manager.sendResult s' = Some r /\
            invocations w' = invocations w ++ calls /\ calls <> [] /\
            Forall (fun b => b_test b = Manager.isTestMode s /\
                             b_sender b = "1511") calls
      end.
Proof.
  pose proof (handleSend_run P E s w) as Hrun. cbv zeta in Hrun.
  destruct ((JS.trim (Manager.getCurrentMessage P s) =? "") ||
            (Manager.getRecipientCount P s =? 0)%nat).
  { exists s, w. split; [exact Hrun | split; reflexivity]. }
  destruct (Manager.recipients_of P s) as [| p ps].
  { eexists; exists w. split; [exact Hrun | split; reflexivity]. }
  destruct Hrun as (r & w' & calls & Hhook & Hrun & Hinv & Hne & Hall).
  eexists; exists w'. split; [exact Hrun |].
  exists r, calls. split; [exact Hhook |].
  split; [destruct (success r && negb (Manager.isTestMode s)); reflexivity |].
  auto.
Qed.

(** X25: [handleSend] empties the message and the selected template
    only after a send that the hook reported as a success, and never in
    test mode; in every other case (a refusal, a failure, a test) both
    are kept, so that the send can be repeated.  The other settings
    (campaign, selection mode, selected users, search term, test mode)
    are never changed. *)
Theorem handleSend_keeps_the_message (P : Manager.Props) (E : Env)
  (s : Manager.State) (w : World) :
  exists s' w',
    Manager.handleSend P E s w = (inr s', w') /\
    Manager.selectedCampaign s' = Manager.selectedCampaign s /\
    Manager.recipientFilter s' = Manager.recipientFilter s /\
    Manager.selectedUserIds s' = Manager.selectedUserIds s /\
    Manager.userSearchTerm s' = Manager.userSearchTerm s /\
    Manager.isTestMode s' = Manager.isTestMode s /\
    ((Manager.customMessage s' = Manager.customMessage s /\
      Manager.selectedTemplate s' = Manager.selectedTemplate s) \/
     (Manager.isTestMode s = false /\
      (exists r, Manager.sendResult s' = Some r /\ success r = true) /\
      Manager.customMessage s' = "" /\ Manager.selectedTemplate s' = "")).
Proof.
  pose proof (handleSend_run P E s w) as Hrun. cbv zeta in Hrun.
  destruct ((JS.trim (Manager.getCurrentMessage P s) =? "") ||
            (Manager.getRecipientCount P s =? 0)%nat);
    [| destruct (Manager.recipients_of P s) as [| p ps];
       [| destruct Hrun as (r & w' & calls & _ & Hrun & _)]];
    rewrite Hrun.
  - exists s, w. split; [reflexivity |]. repeat split. left. auto.
  - eexists; exists w. split; [reflexivity |]. cbn. repeat split. left. auto.
  - eexists; exists w'. split; [reflexivity |].
    destruct (success r) eqn:Hs, (Manager.isTestMode s) eqn:Ht; cbn;
      repeat split; try rewrite Ht; try reflexivity;
      try (left; split; reflexivity).
    right. split; [reflexivity |]. split; [exists r; auto | auto].
Qed.

(** ** The hook: the log of the personalized path *)


(** ** The hook: what the result gathers *)

Lemma gathered_of_errors r r' : more_errors r r' -> gathered [] r r'.
Proof.
  intros (_ & _ & Ht & Hi & Hc & Hcur & Hinv & _).
  unfold gathered. cbn. rewrite !app_nil_r. auto.
Qed.

Lemma gathered_absorb i reply r :
  gathered [reply] r (Hook.absorb i reply r).
Proof.
  unfold gathered, Hook.absorb, ids_by, invalid_by, cost_by.
  destruct reply as [e | err | data]; cbn; rewrite ?app_nil_r; auto.
  destruct (success data); cbn; rewrite ?app_nil_r.
  - destruct (messageIds data), (cost data); cbn; rewrite ?app_nil_r; auto.
  - destruct (invalidNumbers data); cbn; rewrite ?app_nil_r; auto.
Qed.

Lemma gathered_trans l1 l2 r1 r2 r3 :
  gathered l1 r1 r2 -> gathered l2 r2 r3 -> gathered (l1 ++ l2) r1 r3.
Proof.
  intros (a1 & a2 & a3 & a4 & a5) (b1 & b2 & b3 & b4 & b5).
  unfold gathered. rewrite !map_app, !concat_app, fold_left_app, !app_assoc.
  repeat split; congruence.
Qed.

Section HookGathers.
Variable E : Env.
Variable request : SMSRequest.
Variable hasLinkPlaceholder : bool.

Lemma processBatch_gathers total i results batch w :
  exists results' w' body,
    Hook.processBatch E request hasLinkPlaceholder total i results batch w
    = (inr results', w') /\
    invocations w' = invocations w ++ [body] /\
    gathered [invoke_reply E (length (invocations w)) body] results results'.
Proof.
  unfold Hook.processBatch.
  destruct (@recipients_loop_spec E request hasLinkPlaceholder batch
              results [] [] w)
    as ([[results1 brs1] bls1] & w1 & Hrun & Hpost).
  cbn in Hpost. destruct Hpost as (He1 & _ & Hq1 & _).
  destruct Hq1 as (Hinv & _).
  unfold bind at 1. rewrite Hrun.
  unfold bind at 1. rewrite sendBatch_run.
  eexists; eexists; eexists. split; [reflexivity |]. cbn.
  split; [rewrite Hinv; reflexivity |].
  rewrite <- Hinv.
  apply (@gathered_trans [] [_] results results1);
    [apply gathered_of_errors; exact He1 | apply gathered_absorb].
Qed.

Lemma batchLoop_gathers total batches :
  forall i results w,
  exists results' w' calls,
    Hook.batchLoop E request hasLinkPlaceholder total i batches results w
    = (inr results', w') /\
    invocations w' = invocations w ++ calls /\
    gathered (replies_of E (length (invocations w)) calls) results results'.
Proof.
  induction batches as [| batch batches IH]; intros i results w.
  - exists results, w, []. cbn. rewrite app_nil_r.
    split; [reflexivity |]. split; [reflexivity |].
    apply gathered_of_errors, more_errors_refl.
  - destruct (processBatch_gathers total i results batch w)
      as (results1 & w1 & body & Hrun1 & Hinv1 & Hg1).
    destruct (IH (S i) results1 w1)
      as (results2 & w2 & calls & Hrun2 & Hinv2 & Hg2).
    exists results2, w2, (body :: calls).
    split; [simpl; unfold bind; rewrite Hrun1; exact Hrun2 |].
    split; [rewrite Hinv2, Hinv1, <- app_assoc; reflexivity |].
    rewrite Hinv1, length_app, Nat.add_1_r in Hg2.
    apply (gathered_trans (l1 := [_]) Hg1 Hg2).
Qed.

End HookGathers.

(** X27: the result of a send on the personalized path gathers the
    replies of its calls, in the order of the batches: [messageIds] are
    the ids of the batches that the gateway reported as sent,
    [invalidNumbers] those of the batches that it reported as failed,
    [cost] the costs of the former added up from 0 one batch after the
    other; [totalRecipients] is the number of valid recipients of the
    request, whatever was sent, and [currency] is ["EUR"]. *)
Theorem personalized_result_gathers (E : Env) (request : SMSRequest)
  (rs : list (option string)) (w : World) :
  recipients request = Some rs ->
  Hook.validRecipients rs <> [] ->
  JS.truthy (campaignId request) || JS.includes (message request) "{{ link }}"
  = true ->
  exists r w' calls,
    Hook.sendSMS E request w = (inr r, w') /\
    invocations w' = invocations w ++ calls /\
    let replies := replies_of E (length (invocations w)) calls in
    messageIds r = Some (concat (map ids_by replies)) /\
    invalidNumbers r = Some (concat (map invalid_by replies)) /\
    cost r = Some (fold_left cost_by replies 0%float) /\
    totalRecipients r = Some (Z.of_nat (length (Hook.validRecipients rs))) /\
    currency r = Some "EUR".
Proof.
  intros Hrs Hvalid Hpath. rewrite sendSMS_run.
  rewrite (@sendSMS_try_personalized E request rs (started w)
             Hrs Hvalid Hpath).
  unfold Hook.sendPersonalized.
  set (valid := Hook.validRecipients rs).
  set (h := JS.includes (message request) "{{ link }}").
  destruct (batchLoop_gathers E request h
              (length (Hook.batches_from valid 0))
              (Hook.batches_from valid 0) 0
              (Hook.initial_results (length valid)) (started w))
    as (looped & w1 & calls & Hrun & Hinv & Hg).
  unfold bind at 1. rewrite Hrun.
  unfold bind at 1. unfold Hook.setProgress at 1, update at 1.
  set (w2 := set_progress (fun l => l ++ [100%float]) w1).
  unfold bind.
  destruct Hg as (Hids & Hinvalid & Hcost & Htotal & Hcur).
  cbn in Hids, Hinvalid, Hcost, Htotal, Hcur, Hinv.
  assert (Hfields :
    forall r0, Hook.determine_success looped = r0 ->
      Hook.r_messageIds r0 = Hook.r_messageIds looped /\
      Hook.r_invalidNumbers r0 = Hook.r_invalidNumbers looped /\
      Hook.r_cost r0 = Hook.r_cost looped /\
      Hook.r_totalRecipients r0 = Hook.r_totalRecipients looped /\
      Hook.r_currency r0 = Hook.r_currency looped).
  { intros r0 <-. unfold Hook.determine_success.
    destruct (Hook.r_sentCount looped =? 0)%Z; repeat split. }
  destruct (Hfields _ eq_refl) as (F1 & F2 & F3 & F4 & F5).
  destruct (Hook.r_success (Hook.determine_success looped) &&
            (0 <? Hook.r_sentCount (Hook.determine_success looped))%Z).
  - destruct (@logSMSCampaign_run E "sms" (message request)
                (Z.of_nat (length valid))
                (Hook.r_sentCount (Hook.determine_success looped))
                "completed" (campaignId request) w2)
      as (w' & Hlog & H1 & _).
    rewrite Hlog. eexists; eexists; exists calls.
    split; [reflexivity |]. cbn.
    split; [rewrite H1; exact Hinv |].
    rewrite F1, F2, F3, F4, F5, Hids, Hinvalid, Hcost, Htotal, Hcur.
    repeat split.
  - eexists; eexists; exists calls.
    split; [reflexivity |]. cbn. split; [exact Hinv |].
    rewrite F1, F2, F3, F4, F5, Hids, Hinvalid, Hcost, Htotal, Hcur.
    repeat split.
Qed.

(** ** The hook: [sendSingleSMS] *)

Lemma single_batch (phone : string) : Hook.batches_from [phone] 0 = [[phone]].
Proof.
  pose proof (batches_from_length [phone] 0) as Hlen.
  pose proof (batches_from_concat [phone] 0) as Hcat.
  destruct (Hook.batches_from [phone] 0) as [| b [| b' l]];
    try discriminate.
  simpl in Hcat. rewrite app_nil_r in Hcat. subst b. reflexivity.
Qed.

(** X28: [sendSingleSMS] with a phone number that passes the filter
    makes exactly one call of the gateway, for this one recipient
    (normalized when the send is personalized), and never as a test. *)
Theorem sendSingleSMS_is_one_call (E : Env) (phoneNumber msg : string)
  (snd campaign : option string) (w : World) :
  Hook.is_valid phoneNumber = true ->
  exists r w' body,
    Hook.sendSingleSMS E phoneNumber msg snd campaign w = (inr r, w') /\
    invocations w' = invocations w ++ [body] /\
    b_test body = false /\
    b_recipients body
    = [if JS.truthy campaign || JS.includes msg "{{ link }}"
       then normalizePhoneNumber E phoneNumber else phoneNumber].
Proof.
  intros Hok. unfold Hook.sendSingleSMS.
  set (request := {| recipients := Some [Some phoneNumber]; message := msg;
                     sender := snd; test := None; campaignId := campaign;
                     param1 := None |}).
  assert (Hv : Hook.validRecipients [Some phoneNumber] = [phoneNumber])
    by (cbn; rewrite Hok; reflexivity).
  assert (Hvalid : Hook.validRecipients [Some phoneNumber] <> [])
    by (rewrite Hv; discriminate).
  rewrite sendSMS_run.
  destruct (JS.truthy campaign || JS.includes msg "{{ link }}") eqn:Hpath.
  - rewrite (@sendSMS_try_personalized E request [Some phoneNumber]
               (started w) eq_refl Hvalid Hpath).
    destruct (sendPersonalized_spec E request
                (Hook.validRecipients [Some phoneNumber])
                (JS.includes (message request) "{{ link }}") (started w))
      as (looped & w1 & w' & -> & Hpost & Hinv & _).
    destruct Hpost as (calls & Hcalls & Hcall & _).
    rewrite Hv, single_batch in Hcall. cbn in Hcalls.
    inversion Hcall as [| b c bs cs Hc Hrest]; subst.
    inversion Hrest; subst.
    destruct Hc as (links & -> & _).
    eexists; eexists; eexists. split; [reflexivity |]. cbn.
    split; [rewrite Hinv; exact Hcalls |]. split; reflexivity.
  - apply orb_false_iff in Hpath as [Hc Hl].
    rewrite (@sendSMS_try_plain E request [Some phoneNumber] (started w)
               eq_refl Hvalid Hc Hl), sendBulkSMS_run, Hv.
    destruct (invoke_reply E _ _);
      eexists; eexists; eexists; (split; [reflexivity |]); cbn;
      repeat split.
Qed.

(** ** The component: the message and the search *)

(** X29: when a template is selected that is not among the SMS
    templates, the message of the component is empty, whatever the
    custom message holds, and [handleSend] does nothing: no state is
    changed and nothing is sent. *)
Theorem unknown_template_blocks_send (P : Manager.Props) (E : Env)
  (s : Manager.State) (w : World) :
  Manager.selectedTemplate s <> "" ->
  (forall tp, In tp (Manager.templates P) ->
     Manager.tpl_type tp = "sms" ->
     Manager.tpl_id tp <> Manager.selectedTemplate s) ->
  Manager.getCurrentMessage P s = "" /\
  Manager.handleSend P E s w = (inr s, w).
Proof.
  intros Hsel Hnone.
  assert (Hmsg : Manager.getCurrentMessage P s = "").
  { unfold Manager.getCurrentMessage.
    destruct (Manager.selectedTemplate s =? "") eqn:He;
      [apply String.eqb_eq in He; contradiction |].
    cbn [negb]. rewrite find_all_false; [reflexivity |].
    intros tp Htp. unfold Manager.smsTemplates in Htp.
    apply filter_In in Htp as [Hin Hty]. apply String.eqb_eq in Hty.
    apply String.eqb_neq. apply Hnone; assumption. }
  split; [exact Hmsg |].
  unfold Manager.handleSend. rewrite Hmsg. reflexivity.
Qed.

Lemma is_space_lower c : JS.is_space (JS.lower c) = JS.is_space c.
Proof.
  destruct c as [[] [] [] [] [] [] [] []]; reflexivity.
Qed.

Lemma all_space_lower s :
  all_chars JS.is_space (JS.toLowerCase s) = all_chars JS.is_space s.
Proof.
  induction s as [| c s IH]; [reflexivity |].
  simpl. rewrite is_space_lower, IH. reflexivity.
Qed.

Lemma trimStart_spaces s :
  exists sp, s = (sp ++ JS.trimStart s)%string /\
             all_chars JS.is_space sp = true.
Proof.
  induction s as [| c s (sp & IH & Hsp)]; [exists ""; split; reflexivity |].
  simpl. destruct (JS.is_space c) eqn:Hc.
  - exists (String c sp). simpl. rewrite <- IH, Hc, Hsp. split; reflexivity.
  - exists "". split; reflexivity.
Qed.

Lemma trimStart_head s c r :
  JS.trimStart s = String c r -> JS.is_space c = false.
Proof.
  induction s as [| d s IH]; [discriminate |].
  simpl. destruct (JS.is_space d) eqn:Hd; [exact IH |].
  intros H. injection H as <- _. exact Hd.
Qed.

Lemma all_chars_app p a b :
  all_chars p (a ++ b) = all_chars p a && all_chars p b.
Proof.
  induction a as [| c a IH]; [reflexivity |].
  simpl. rewrite IH. apply andb_assoc.
Qed.

Lemma all_chars_rev p s : all_chars p (JS.rev s) = all_chars p s.
Proof.
  induction s as [| c s IH]; [reflexivity |].
  change (String c s) with (String c "" ++ s)%string at 1.
  rewrite rev_app, all_chars_app, IH. simpl. rewrite andb_true_r.
  apply andb_comm.
Qed.

Lemma trimStart_all_space s :
  all_chars JS.is_space s = true -> JS.trimStart s = "".
Proof.
  induction s as [| c s IH]; [reflexivity |].
  simpl. intros H. apply andb_true_iff in H as [Hc Hs].
  rewrite Hc. apply IH. exact Hs.
Qed.

(** A string trims to nothing exactly when it is made of white space. *)
Lemma trim_blank s :
  (JS.trim s =? "") = all_chars JS.is_space s.
Proof.
  destruct (all_chars JS.is_space s) eqn:Hall.
  - unfold JS.trim. rewrite (trimStart_all_space _ Hall). reflexivity.
  - apply String.eqb_neq. intros Htrim.
    unfold JS.trim in Htrim.
    destruct (trimStart_spaces s) as (sp & Hs & Hsp).
    destruct (JS.trimStart s) as [| c r] eqn:Hx.
    + rewrite Hs, append_nil_r, Hsp in Hall. discriminate.
    + pose proof (trimStart_head _ Hx) as Hc.
      unfold JS.trimEnd in Htrim.
      destruct (trimStart_spaces (JS.rev (String c r))) as (sp' & Hr & Hsp').
      assert (Hrev : JS.trimStart (JS.rev (String c r)) = "").
      { rewrite <- (rev_involutive (JS.trimStart (JS.rev (String c r)))).
        rewrite Htrim. reflexivity. }
      rewrite Hrev, append_nil_r in Hr.
      assert (Hcr : all_chars JS.is_space (String c r) = true)
        by (rewrite <- all_chars_rev, Hr; exact Hsp').
      simpl in Hcr. rewrite Hc in Hcr. discriminate.
Qed.

Lemma matches_search_lower t1 t2 u :
  JS.toLowerCase t1 = JS.toLowerCase t2 ->
  Manager.matches_search t1 u = Manager.matches_search t2 u.
Proof.
  intros H. unfold Manager.matches_search.
  rewrite !trim_blank, <- (all_space_lower t1), <- (all_space_lower t2), H.
  reflexivity.
Qed.

(** X30: the search of the component ignores the case of the search
    term: two terms with the same lower-case form list the same users;
    and a blank term lists every active user with a usable phone
    number. *)
Theorem search_ignores_case (P : Manager.Props) (s s' : Manager.State) :
  (JS.toLowerCase (Manager.userSearchTerm s)
   = JS.toLowerCase (Manager.userSearchTerm s') ->
   Manager.filteredUsersWithPhones P s
   = Manager.filteredUsersWithPhones P s') /\
  (JS.trim (Manager.userSearchTerm s) = "" ->
   Manager.filteredUsersWithPhones P s = Manager.activeUsersWithPhones P).
Proof.
  unfold Manager.filteredUsersWithPhones. split.
  - intros H. apply filter_ext. intros u. apply matches_search_lower. exact H.
  - intros H.
    rewrite (filter_ext _ (fun _ => true)).
    + induction (Manager.activeUsersWithPhones P) as [| u l IH];
        [reflexivity | simpl; rewrite IH; reflexivity].
    + intros u. unfold Manager.matches_search. rewrite H. reflexivity.
Qed.

(** ** The further properties at sample inputs *)

(** An empty list of recipients. *)
Lemma sendSMS_without_recipients_witness :
  Hook.sendSMS Sample.env (Sample.request [] "Hello" None) Sample.world
  = (inr (failure "No recipients provided"),
     set_sending (fun l => l ++ [false]) (started Sample.world)).
Proof.
  apply (@sendSMS_without_recipients Sample.env
           (Sample.request [] "Hello" None) Sample.world).
  right. reflexivity.
Defined.

(** Three entries, none of them a phone number. *)
Lemma sendSMS_without_valid_recipients_witness :
  Hook.sendSMS Sample.env (Sample.request [""; "null"; "  "] "Hello" None)
    Sample.world
  = (inr (failure "No valid recipients found"),
     set_sending (fun l => l ++ [false]) (started Sample.world)).
Proof.
  apply (@sendSMS_without_valid_recipients Sample.env
           (Sample.request [""; "null"; "  "] "Hello" None)
           [Some ""; Some "null"; Some "  "] Sample.world).
  - reflexivity.
  - discriminate.
  - repeat constructor.
Defined.

(** Two recipients, no campaign, no placeholder: one call. *)
Lemma plain_send_is_one_call_witness :
  map b_recipients
    (invocations
       (snd (Hook.sendSMS Sample.env
               (Sample.request ["+359888000001"; "+359888000002"] " Hello "
                  None) Sample.world)))
  = [["+359888000001"; "+359888000002"]].
Proof.
  destruct (@plain_send_is_one_call Sample.env
              (Sample.request ["+359888000001"; "+359888000002"] " Hello "
                 None)
              [Some "+359888000001"; Some "+359888000002"] Sample.world)
    as (Hinv & _).
  - reflexivity.
  - discriminate.
  - reflexivity.
  - reflexivity.
  - rewrite Hinv. reflexivity.
Defined.

(** The gateway reports the recipient as sent: its reply is the result. *)
Lemma plain_send_result_witness :
  exists w',
    Hook.sendSMS Sample.env (Sample.request ["+359888000001"] "Hello" None)
      Sample.world = (inr (Sample.sent 1), w') /\
    sending w' = [true; false].
Proof.
  destruct (@plain_send_result Sample.env
              (Sample.request ["+359888000001"] "Hello" None)
              [Some "+359888000001"] Sample.world)
    as (r & w' & Hrun & Hsending & Hreply).
  - reflexivity.
  - discriminate.
  - reflexivity.
  - reflexivity.
  - cbn in Hreply. subst r.
    exists w'. split; [exact Hrun | exact Hsending].
Defined.

(** Three recipients of a campaign, no placeholder: one call, no
    [param1]. *)
Lemma campaign_send_without_placeholder_witness :
  exists r w' calls,
    Hook.sendSMS Sample.env
      (Sample.request (Sample.crowd 3) "Hello" (Some "c1")) Sample.world
    = (inr r, w') /\
    invocations w' = calls /\ length calls = 1 /\
    Forall (fun call => b_param1 call = None /\ b_message call = "Hello")
      calls.
Proof.
  destruct (@campaign_send_without_placeholder Sample.env
              (Sample.request (Sample.crowd 3) "Hello" (Some "c1"))
              (map Some (Sample.crowd 3)) Sample.world)
    as (r & w' & calls & Hrun & Hinv & Hlen & _ & Hall).
  - reflexivity.
  - discriminate.
  - reflexivity.
  - reflexivity.
  - exists r, w', calls. split; [exact Hrun |]. split; [exact Hinv |].
    split; [exact Hlen |].
    eapply Forall_impl; [| exact Hall]. intros call (_ & Hp & Hm). auto.
Defined.

(** Two recipients, a token, a provider that accepts; the request has no
    [sender], and then [sender: null]. *)
Lemma serve_forwards_request_witness :
  (exists form,
     fetches (snd (Edge.serve (Sample.edge_env true (Sample.accepted 1))
                     (Sample.post ["+359888000001"; "+359888000002"]
                        " Hello " None None) Sample.world)) = [form] /\
     f_to form = "+359888000001,+359888000002" /\
     JS.split "," (f_to form) = ["+359888000001"; "+359888000002"] /\
     f_message form = "Hello" /\ f_from form = "BulkComm" /\
     f_param1 form = None /\ f_test form = None) /\
  (exists form,
     fetches (snd (Edge.serve (Sample.edge_env true (Sample.accepted 1))
                     (Sample.post_from Edge.Null ["+359888000001"] "Hello")
                     Sample.world)) = [form] /\
     f_to form = "+359888000001" /\ f_from form = "null").
Proof.
  split.
  - destruct (@serve_forwards_request
                (Sample.edge_env true (Sample.accepted 1))
                (Sample.post ["+359888000001"; "+359888000002"] " Hello "
                   None None)
                (Sample.body_of ["+359888000001"; "+359888000002"] " Hello "
                   None None)
                ["+359888000001"; "+359888000002"] " Hello " "provider-token"
                Sample.world)
      as (form & Hf & _ & Hto & Hsplit & Hm & Hfrom & _ & _ & Hp & Ht);
      try reflexivity; try discriminate.
    exists form. split; [exact Hf |]. split; [exact Hto |].
    split; [apply Hsplit; repeat constructor |].
    split; [exact Hm |]. split; [exact Hfrom |].
    split; [exact Hp | exact Ht].
  - destruct (@serve_forwards_request
                (Sample.edge_env true (Sample.accepted 1))
                (Sample.post_from Edge.Null ["+359888000001"] "Hello")
                (Sample.body_from Edge.Null ["+359888000001"] "Hello")
                ["+359888000001"] "Hello" "provider-token" Sample.world)
      as (form & Hf & _ & Hto & _ & _ & Hfrom & _);
      try reflexivity; try discriminate.
    exists form. split; [exact Hf |]. split; [exact Hto | exact Hfrom].
Defined.

(** The provider accepts and reports one message. *)
Lemma serve_answers_by_reply_witness :
  exists body w',
    Edge.serve (Sample.edge_env true (Sample.accepted 1))
      (Sample.post ["+359888000001"] "Hello" None None) Sample.world
    = (inr (Edge.Json 200 body), w') /\
    success body = true /\ sentCount body = Some 1%Z /\
    totalRecipients body = Some 1%Z /\ messageIds body = Some [].
Proof.
  destruct (@serve_answers_by_reply (Sample.edge_env true (Sample.accepted 1))
              (Sample.post ["+359888000001"] "Hello" None None)
              (Sample.body_of ["+359888000001"] "Hello" None None)
              ["+359888000001"] "Hello" "provider-token" Sample.world)
    as (st & body & form & w' & Hrun & _ & Hreply);
    try reflexivity; try discriminate.
  cbn in Hreply. destruct Hreply as (-> & Hs & Hn & Ht & Hids).
  exists body, w'. auto.
Defined.

(** A request for a campaign, with the placeholder: one call, one link;
    and a request with [sender: null]. *)
Lemma handler_calls_provider_once_witness :
  (exists form link,
     fetches (snd (Edge.handler (Sample.edge_env true (Sample.accepted 1))
                     (Sample.post ["+359888000001"] "Visit {{ link }}" None
                        (Some "c1")) Sample.known)) = [form] /\
     f_to form = "+359888000001" /\ f_from form = "BulkComm" /\
     f_message form = "Visit [%1%]" /\
     f_param1 form = Some link /\
     JS.startsWith link "https://your-domain.com" = true) /\
  (exists form,
     fetches (snd (Edge.handler (Sample.edge_env true (Sample.accepted 1))
                     (Sample.post_from Edge.Null ["+359888000001"] "Hello")
                     Sample.world)) = [form] /\
     f_to form = "+359888000001" /\ f_from form = "null" /\
     f_message form = "Hello" /\ f_param1 form = None).
Proof.
  split.
  - destruct (@handler_calls_provider_once
                (Sample.edge_env true (Sample.accepted 1))
                (Sample.post ["+359888000001"] "Visit {{ link }}" None
                   (Some "c1"))
                (Sample.body_of ["+359888000001"] "Visit {{ link }}" None
                   (Some "c1"))
                ["+359888000001"] "Visit {{ link }}" Sample.known
                eq_refl eq_refl eq_refl)
      as [Hnone | (form & Hf & Hform)].
    + vm_compute in Hnone. discriminate.
    + destruct Hform as (_ & Hto & Hfrom & _ & _ & _ & Hmsg).
      cbn in Hmsg. destruct Hmsg as (Hm & links & Hlen & Hp & Hall).
      destruct links as [| link [| link' links]]; try discriminate.
      inversion Hall as [| ? ? Hlink _]; subst.
      exists form, link. split; [exact Hf |]. split; [exact Hto |].
      split; [exact Hfrom |].
      split; [exact Hm |]. split; [| exact Hlink].
      rewrite Hp. cbn. destruct link; [discriminate | reflexivity].
  - destruct (@handler_calls_provider_once
                (Sample.edge_env true (Sample.accepted 1))
                (Sample.post_from Edge.Null ["+359888000001"] "Hello")
                (Sample.body_from Edge.Null ["+359888000001"] "Hello")
                ["+359888000001"] "Hello" Sample.world
                eq_refl eq_refl eq_refl)
      as [Hnone | (form & Hf & Hform)].
    + vm_compute in Hnone. discriminate.
    + destruct Hform as (_ & Hto & Hfrom & _ & _ & _ & Hmsg).
      cbn in Hmsg. destruct Hmsg as (Hm & Hp).
      exists form. split; [exact Hf |]. split; [exact Hto |].
      split; [exact Hfrom |]. split; [exact Hm | exact Hp].
Defined.


(** No recipients: both handlers answer 400. *)
Lemma invalid_requests_are_refused_witness :
  let E := Sample.edge_env true (Sample.accepted 1) in
  let req := Sample.post [] "Hello" None None in
  let answer :=
    Edge.Json 400 (failure "Recipients array is required and cannot be empty") in
  Edge.serve E req Sample.world = (inr answer, Sample.world) /\
  Edge.handler E req Sample.world = (inr answer, Sample.world).
Proof.
  cbv zeta.
  apply (@invalid_requests_are_refused
           (Sample.edge_env true (Sample.accepted 1))
           (Sample.post [] "Hello" None None)
           (Sample.body_of [] "Hello" None None) Sample.world).
  - reflexivity.
  - reflexivity.
  - right. left. reflexivity.
Defined.

(** Two of the four users are listed, and two phone numbers are sent. *)
Lemma recipient_count_is_number_sent_witness :
  Manager.getRecipientCount Sample.props (Sample.draft "" "Hello") = 2 /\
  length (Manager.recipients_of Sample.props (Sample.draft "" "Hello")) = 2.
Proof.
  destruct (@recipient_count_is_number_sent Sample.props
              (Sample.draft "" "Hello") eq_refl) as [Hlen _].
  split; [reflexivity | rewrite Hlen; reflexivity].
Defined.


(** One recipient, sent: no ids, no invalid numbers, one recipient. *)
Lemma personalized_result_gathers_witness :
  exists r w',
    Hook.sendSMS Sample.env
      (Sample.request ["+359888000001"] "Visit {{ link }}" None)
      Sample.world = (inr r, w') /\
    totalRecipients r = Some 1%Z /\ currency r = Some "EUR".
Proof.
  destruct (@personalized_result_gathers Sample.env
              (Sample.request ["+359888000001"] "Visit {{ link }}" None)
              [Some "+359888000001"] Sample.world)
    as (r & w' & calls & Hrun & _ & _ & _ & _ & Ht & Hc).
  - reflexivity.
  - discriminate.
  - reflexivity.
  - exists r, w'. split; [exact Hrun |]. split; [exact Ht | exact Hc].
Defined.

(** One phone number, no campaign, no placeholder. *)
Lemma sendSingleSMS_is_one_call_witness :
  exists r w' body,
    Hook.sendSingleSMS Sample.env "+359888000001" "Hello" None None
      Sample.world = (inr r, w') /\
    invocations w' = [body] /\ b_recipients body = ["+359888000001"].
Proof.
  destruct (@sendSingleSMS_is_one_call Sample.env "+359888000001" "Hello"
              None None Sample.world eq_refl)
    as (r & w' & body & Hrun & Hinv & _ & Hrec).
  exists r, w', body. split; [exact Hrun |]. split; [exact Hinv | exact Hrec].
Defined.

(** The e-mail template is selected: nothing is sent. *)
Lemma unknown_template_blocks_send_witness :
  Manager.handleSend Sample.props Sample.env (Sample.draft "t2" "Hello")
    Sample.world
  = (inr (Sample.draft "t2" "Hello"), Sample.world).
Proof.
  apply (@unknown_template_blocks_send Sample.props Sample.env
           (Sample.draft "t2" "Hello") Sample.world).
  - discriminate.
  - intros tp [<- | [<- | []]] Hty; [discriminate | discriminate].
Defined.

(** A custom message and two users with a phone number: one call with
    both numbers; with no message, nothing happens. *)
Lemma handleSend_reaches_the_gateway_witness :
  (exists s' w' r,
     Manager.handleSend Sample.props Sample.env (Sample.draft "" "Hello")
       Sample.world = (inr s', w') /\
     Manager.sendResult s' = Some r /\ success r = true /\
     map b_recipients (invocations w')
     = [["+359888000001"; "+359888000002"]] /\
     map b_message (invocations w') = ["Hello"] /\
     map b_sender (invocations w') = ["1511"] /\
     map b_test (invocations w') = [false]) /\
  Manager.handleSend Sample.props Sample.env (Sample.draft "" " ")
    Sample.world
  = (inr (Sample.draft "" " "), Sample.world).
Proof.
  split.
  - destruct (handleSend_reaches_the_gateway Sample.props Sample.env
                (Sample.draft "" "Hello") Sample.world)
      as (s' & w' & Hrun & Hcase).
    vm_compute in Hcase.
    destruct Hcase as (r & calls & Hhook & Hres & _).
    injection Hhook as <- <-.
    exists s'. eexists. eexists. split; [exact Hrun |].
    split; [exact Hres |]. repeat split.
  - destruct (handleSend_reaches_the_gateway Sample.props Sample.env
                (Sample.draft "" " ") Sample.world)
      as (s' & w' & Hrun & Hcase).
    vm_compute in Hcase. destruct Hcase as [-> ->]. exact Hrun.
Defined.
